(** * Supervisor schedule: a shallow embedding of [src/lib/schedule.js]
      and [src/lib/validate.js], with the properties of its specification.

    Conventions of the embedding.
    - Days, offsets, counters and regime parameters are JavaScript numbers
      that hold integers well below 2^53 once [clampInt] has run; they are
      modelled as [Z], on which [+], [-], [*], [Math.max], [Math.min] and
      [Math.abs] are exact.  The remainder operator [%] truncates towards
      zero: it is [Z.rem].
    - Arrays are lists; [a[i] = v] on an index inside the array is stdpp's
      [<[i:=v]>] and [a[i]] is a lookup.
    - A thrown exception is [None] in the option monad.  The only throwing
      operation of the module is [Array(n)], which raises a [RangeError]
      unless [n] is an integer in [0, 2^32 - 1]. *)

From Stdlib Require Import ZArith QArith Qround String Ascii Lia.
From Stdlib Require Import Decimal DecimalString.
From stdpp Require Import base tactics option list list_numbers sorting strings gmap.

Local Open Scope Z_scope.

(** ** Day states *)

(** [STATES]: the six one-character labels. *)
Inductive DayState : Type :=
  | EMPTY      (* "-" *)
  | STANDUP    (* "S" *)
  | INDUCTION  (* "I" *)
  | PRODUCING  (* "P" *)
  | WINDDOWN   (* "B" *)
  | REST.      (* "D" *)

#[global] Instance DayState_eq_dec : EqDecision DayState.
Proof. solve_decision. Defined.

#[global] Instance DayState_inhabited : Inhabited DayState := populate EMPTY.

Definition label (st : DayState) : string :=
  match st with
  | EMPTY => "-"
  | STANDUP => "S"
  | INDUCTION => "I"
  | PRODUCING => "P"
  | WINDDOWN => "B"
  | REST => "D"
  end.

(** ** JavaScript values at the boundary *)

(** What a caller can put in a field of the parameter object: a finite
    number (every finite double is a rational), one of the three non-finite
    numbers, or a value that is not a number at all ([undefined], a string,
    ...), for which [Number.isFinite] answers [false] without coercion. *)
Inductive JsValue : Type :=
  | JsFinite (q : Q)
  | JsNaN
  | JsPosInfinity
  | JsNegInfinity
  | JsOther.

Definition Number_isFinite (v : JsValue) : bool :=
  match v with
  | JsFinite _ => true
  | _ => false
  end.

(** [clampInt(n, min, max)]. *)
Definition clampInt (n : JsValue) (min max : Z) : Z :=
  let x := match n with
           | JsFinite q => Qfloor q
           | _ => min
           end in
  Z.max min (Z.min max x).

(** ** The state generator *)

Module Canonical.

(** [getSupervisorStateAtDay(t, startDay, W, R, I)] of [schedule.js]; the
    running [cursor] is rebound at each segment as in the source. *)
Definition getSupervisorStateAtDay (t startDay W R I : Z) : DayState :=
  if t <? startDay then EMPTY else
  let realRest := Z.max 0 (R - 2) in
  let firstP := Z.max 0 (W - I) in
  let cursor := startDay in
  (* 1) S *)
  if t =? cursor then STANDUP else
  let cursor := cursor + 1 in
  (* 2) I *)
  if (cursor <=? t) && (t <? cursor + I) then INDUCTION else
  let cursor := cursor + I in
  (* 3) P of the first cycle *)
  if (cursor <=? t) && (t <? cursor + firstP) then PRODUCING else
  let cursor := cursor + firstP in
  (* 4) B *)
  if t =? cursor then WINDDOWN else
  let cursor := cursor + 1 in
  (* 5) D *)
  if (cursor <=? t) && (t <? cursor + realRest) then REST else
  let cursor := cursor + realRest in
  (* 6) S *)
  if t =? cursor then STANDUP else
  let cursor := cursor + 1 in
  let cycleLen := W + 1 + realRest + 1 in
  if cycleLen =? 0 then EMPTY else
  let k := t - cursor in
  let pos := Z.rem (Z.rem k cycleLen + cycleLen) cycleLen in
  if pos <? W then PRODUCING else
  if pos =? W then WINDDOWN else
  if (W <? pos) && (pos <? W + 1 + realRest) then REST else
  STANDUP.

End Canonical.

Module Alternative.

(** [getSupervisorStateAtDay] of the other copy of the module, which keeps
    [S] and [B] inside the [W] block and all [R] days as rest. *)
Definition getSupervisorStateAtDay (t startDay W R I : Z) : DayState :=
  if t <? startDay then EMPTY else
  let W := Z.max 2 W in
  let R := Z.max 0 R in
  let I := clampInt (JsFinite (inject_Z I)) 1 5 in
  let firstCycleLen := W + R in
  let firstPos := t - startDay in
  if firstPos <? firstCycleLen then
    if firstPos =? 0 then STANDUP else
    if firstPos =? W - 1 then WINDDOWN else
    if W <=? firstPos then REST else
    if (1 <=? firstPos) && (firstPos <=? I) then INDUCTION else
    PRODUCING
  else
    let afterFirst := firstPos - firstCycleLen in
    let cycleLen := W + R in
    let pos := Z.rem afterFirst cycleLen in
    if pos =? 0 then STANDUP else
    if pos =? W - 1 then WINDDOWN else
    if W <=? pos then REST else
    PRODUCING.

End Alternative.

Export Canonical.

(** ** Arrays *)

(** [Array(n).fill(v)]: a [RangeError] unless [n] is a valid array length. *)
Definition Array_fill {A : Type} (n : Z) (v : A) : option (list A) :=
  if (0 <=? n) && (n <? 2 ^ 32) then Some (replicate (Z.to_nat n) v) else None.

(** The indices visited by [for (let d = 0; d < n; d++)]. *)
Definition upto (n : Z) : list nat := seq 0 (Z.to_nat n).

(** [a.findIndex(p)], with [-1] when no element satisfies [p]. *)
Fixpoint findIndex_from {A : Type} (p : A -> bool) (l : list A) (i : Z) : Z :=
  match l with
  | [] => -1
  | x :: l' => if p x then i else findIndex_from p l' (i + 1)
  end.

Definition findIndex {A : Type} (p : A -> bool) (l : list A) : Z :=
  findIndex_from p l 0.

(** [a.slice(0, n)]; a negative [n] counts from the end of the array. *)
Definition slice0 {A : Type} (l : list A) (n : Z) : list A :=
  if 0 <=? n then take (Z.to_nat n) l
  else take (length l - Z.to_nat (- n)) l.

(** [pCount[d] += 1]. *)
Definition increment (d : nat) (pCount : list Z) : list Z :=
  <[d := pCount !!! d + 1]> pCount.

(** ** The offset solver *)

Record Diagnostics : Type := {
  firstPDay : Z;
  threePDays : Z;
  notTwoAfterPDays : Z;
  score : Z;
  isPerfect : bool
}.

(** The first loop nest of [scoreOffsets].  Its local [states] is only
    written, never read, and is left out; [pCount] is the array the
    diagnostics are computed from. *)
Definition countLoop (W R I : Z) (starts : list Z) (horizon : Z)
    (pCount : list Z) : list Z :=
  foldl (fun pCount d =>
    foldl (fun pCount s =>
      let st := getSupervisorStateAtDay (Z.of_nat d) (starts !!! s) W R I in
      if decide (st = PRODUCING) then increment d pCount else pCount)
      pCount (seq 0 3))
    pCount (upto horizon).

(** The second loop of [scoreOffsets], on the pair [(threeP, notTwoAfterP)]. *)
Definition tallyLoop (pCount : list Z) (firstPDay horizon : Z) : Z * Z :=
  foldl (fun '(threeP, notTwoAfterP) d =>
    let threeP := if pCount !!! d =? 3 then threeP + 1 else threeP in
    let notTwoAfterP :=
      if negb (firstPDay =? -1) && (firstPDay <=? Z.of_nat d)
         && negb (pCount !!! d =? 2)
      then notTwoAfterP + 1 else notTwoAfterP in
    (threeP, notTwoAfterP))
    (0, 0) (upto horizon).

Definition scoreOffsets (W R I horizon : Z) (starts : list Z)
    : option Diagnostics :=
  pCount ← Array_fill horizon 0;
  let pCount := countLoop W R I starts horizon pCount in
  let firstPDay := findIndex (fun x => 0 <? x) pCount in
  let '(threeP, notTwoAfterP) := tallyLoop pCount firstPDay horizon in
  let score := threeP * 1000 + notTwoAfterP * 10
               + Z.abs (starts !!! 1%nat - starts !!! 0%nat)
               + Z.abs (starts !!! 2%nat - starts !!! 0%nat) in
  Some {| firstPDay := firstPDay;
          threePDays := threeP;
          notTwoAfterPDays := notTwoAfterP;
          score := score;
          isPerfect := (threeP =? 0) && (notTwoAfterP =? 0) |}.

(** The object [{ startS2, startS3, diagnostics }] of [findBestOffsets]. *)
Record Best : Type := {
  startS2 : Z;
  startS3 : Z;
  bestDiagnostics : Diagnostics
}.

(** How a loop body ends: [return r] out of the function, or the next
    iteration with the loop's variables. *)
Inductive Control (X S : Type) : Type :=
  | Return (r : X)
  | Continue (s : S).
Arguments Return {X S} r.
Arguments Continue {X S} s.

(** [for (const startS3 of candidatesS3) { ... }] for one [startS2]. *)
Fixpoint innerLoop (W R I horizon startS1 startS2 : Z) (candidatesS3 : list Z)
    (best : option Best) : option (Control Best (option Best)) :=
  match candidatesS3 with
  | [] => Some (Continue best)
  | startS3 :: rest =>
      diag ← scoreOffsets W R I horizon [startS1; startS2; startS3];
      let this := {| startS2 := startS2; startS3 := startS3;
                     bestDiagnostics := diag |} in
      if isPerfect diag then Some (Return this)
      else
        let best :=
          match best with
          | None => Some this
          | Some b =>
              if score diag <? score (bestDiagnostics b) then Some this
              else Some b
          end in
        innerLoop W R I horizon startS1 startS2 rest best
  end.

(** [for (const startS2 of candidatesS2) { ... }]. *)
Fixpoint outerLoop (W R I horizon startS1 : Z) (candidatesS2 candidatesS3 : list Z)
    (best : option Best) : option (Control Best (option Best)) :=
  match candidatesS2 with
  | [] => Some (Continue best)
  | startS2 :: rest =>
      r ← innerLoop W R I horizon startS1 startS2 candidatesS3 best;
      match r with
      | Return found => Some (Return found)
      | Continue best => outerLoop W R I horizon startS1 rest candidatesS3 best
      end
  end.

Definition maxOffsetOf (W R I horizon : Z) : Z :=
  Z.min (horizon - 1) ((W + R + I) * 3 + 20).

(** The two nested loops of [findBestOffsets] over the candidate lists
    [0, 1, ..., maxOffset]. *)
Definition searchOffsets (W R I horizon startS1 : Z)
    : option (Control Best (option Best)) :=
  let maxOffset := maxOffsetOf W R I horizon in
  let candidatesS2 := seqZ 0 (maxOffset + 1) in
  let candidatesS3 := seqZ 0 (maxOffset + 1) in
  outerLoop W R I horizon startS1 candidatesS2 candidatesS3 None.

Definition findBestOffsets (W R I horizon startS1 : Z) : option Best :=
  r ← searchOffsets W R I horizon startS1;
  match r with
  | Return found => Some found
  | Continue (Some best) => Some best
  | Continue None =>
      diag ← scoreOffsets W R I horizon [startS1; 0; W + 1];
      Some {| startS2 := 0; startS3 := W + 1; bestDiagnostics := diag |}
  end.

(** ** The schedule builder *)

(** The parameter object as the caller passes it. *)
Module Raw.
Record t : Type := mk {
  W : JsValue;
  R : JsValue;
  I : JsValue;
  totalPerforationDays : JsValue
}.
End Raw.

(** The [params] of the result: the parameters after clamping. *)
Record Params : Type := {
  W : Z;
  R : Z;
  I : Z;
  totalPerforationDays : Z
}.

Record Schedule : Type := {
  params : Params;
  starts : list Z;
  days : Z;
  names : list string;
  states : list (list DayState);
  pCount : list Z;
  diagnostics : Diagnostics
}.

(** The loop nest of [buildSchedule] that fills [states] and [pCount]. *)
Definition fillLoop (W R I : Z) (starts : list Z) (horizon : Z)
    (init : list (list DayState) * list Z) : list (list DayState) * list Z :=
  foldl (fun acc d =>
    foldl (fun '(states, pCount) s =>
      let st := getSupervisorStateAtDay (Z.of_nat d) (starts !!! s) W R I in
      let states := <[s := <[d := st]> (states !!! s)]> states in
      let pCount :=
        if decide (st = PRODUCING) then increment d pCount else pCount in
      (states, pCount))
      acc (seq 0 3))
    init (upto horizon).

(** The trimming loop: [daysWithTwo] accumulates, and the loop stops at the
    first day on which it reaches the target ([endDay = d; break]). *)
Fixpoint trimLoop (pCount : list Z) (totalPerforationDays : Z) (ds : list nat)
    (daysWithTwo endDay : Z) : Z :=
  match ds with
  | [] => endDay
  | d :: rest =>
      let daysWithTwo :=
        if pCount !!! d =? 2 then daysWithTwo + 1 else daysWithTwo in
      if totalPerforationDays <=? daysWithTwo then Z.of_nat d
      else trimLoop pCount totalPerforationDays rest daysWithTwo endDay
  end.

Definition horizonOf (W R I totalPerforationDays : Z) : Z :=
  totalPerforationDays + (W + R + I) * 6 + 20.

Definition buildSchedule (p : Raw.t) : option Schedule :=
  let W := clampInt (Raw.W p) 1 60 in
  let R := clampInt (Raw.R p) 2 60 in
  let I := clampInt (Raw.I p) 1 5 in
  let totalPerforationDays := clampInt (Raw.totalPerforationDays p) 1 5000 in
  let horizon := horizonOf W R I totalPerforationDays in
  let startS1 := 0 in
  best ← findBestOffsets W R I horizon startS1;
  let starts := [startS1; startS2 best; startS3 best] in
  let names := ["S1"; "S2"; "S3"]%string in
  states ← mapM (fun _ => Array_fill horizon EMPTY) names;
  pCount ← Array_fill horizon 0;
  let '(states, pCount) := fillLoop W R I starts horizon (states, pCount) in
  let endDay :=
    trimLoop pCount totalPerforationDays (upto horizon) 0 (horizon - 1) in
  let days := endDay + 1 in
  let trimmedStates := (fun row => slice0 row days) <$> states in
  let trimmedPCount := slice0 pCount days in
  Some {| params := {| W := W; R := R; I := I;
                       totalPerforationDays := totalPerforationDays |};
          starts := starts;
          days := days;
          names := names;
          states := trimmedStates;
          pCount := trimmedPCount;
          diagnostics := bestDiagnostics best |}.

(** ** The validator *)

(** The alerts of [validateSchedule], before they are printed: which
    template is pushed and the values interpolated into it.  [InvalidPattern
    s d key] is the alert of unit [s] for the day pair [d - 1 -> d]. *)
Inductive Alert : Type :=
  | ThreeProducing (d : nat)
  | OneProducing (d : nat)
  | ZeroProducing (d : nat)
  | InvalidPattern (s d : nat) (key : string).

(** [new Set(["S-S", "S-B", "B-S", "I-S", "D-I"])]. *)
Definition invalidPairs : gset string :=
  {[ "S-S"; "S-B"; "B-S"; "I-S"; "D-I" ]}%string.

(** The template literal [`${a}-${b}`]. *)
Definition pairKey (a b : DayState) : string :=
  (label a +:+ "-" +:+ label b)%string.

(** The three passes of [validateSchedule]; [alerts.push(x)] appends. *)
Definition checkThree (pCount : list Z) (alerts : list Alert) : list Alert :=
  foldl (fun alerts d =>
    if pCount !!! d =? 3 then alerts ++ [ThreeProducing d] else alerts)
    alerts (seq 0 (length pCount)).

Definition checkCoverage (pCount : list Z) (alerts : list Alert) : list Alert :=
  let firstPDay := findIndex (fun x => x =? 2) pCount in
  if negb (firstPDay =? -1) then
    foldl (fun alerts d =>
      let alerts :=
        if pCount !!! d =? 1 then alerts ++ [OneProducing d] else alerts in
      if pCount !!! d =? 0 then alerts ++ [ZeroProducing d] else alerts)
      alerts (seq (Z.to_nat firstPDay) (length pCount - Z.to_nat firstPDay))
  else alerts.

Definition checkRow (s : nat) (row : list DayState) (alerts : list Alert)
    : list Alert :=
  foldl (fun alerts d =>
    let a := row !!! (d - 1)%nat in
    let b := row !!! d in
    if bool_decide (a = EMPTY) || bool_decide (b = EMPTY) then alerts
    else
      let key := pairKey a b in
      if bool_decide (key ∈ invalidPairs)
      then alerts ++ [InvalidPattern s d key] else alerts)
    alerts (seq 1 (length row - 1)).

Definition checkPatterns (states : list (list DayState)) (alerts : list Alert)
    : list Alert :=
  foldl (fun alerts s => checkRow s (states !!! s) alerts)
    alerts (seq 0 (length states)).

Definition validateAlerts (states : list (list DayState)) (pCount : list Z)
    : list Alert :=
  checkPatterns states (checkCoverage pCount (checkThree pCount [])).

(** Printing: [`${d}`] of a day index and [names[s]]. *)
Definition decimal (n : nat) : string :=
  NilZero.string_of_uint (Nat.to_uint n).

Definition nameOf (names : list string) (s : nat) : string :=
  default "undefined"%string (names !! s).

Definition render (names : list string) (a : Alert) : string :=
  match a with
  | ThreeProducing d =>
      "ERROR: Día " +:+ decimal d +:+ " tiene 3 supervisores perforando (#P=3)."
  | OneProducing d =>
      "ERROR: Día " +:+ decimal d +:+
      " tiene solo 1 supervisor perforando (#P=1) después del inicio de perforación."
  | ZeroProducing d =>
      "ERROR: Día " +:+ decimal d +:+
      " tiene 0 perforando (#P=0) después del inicio de perforación."
  | InvalidPattern s d key =>
      "Patrón inválido en " +:+ nameOf names s +:+ " día " +:+
      decimal (d - 1) +:+ "->" +:+ decimal d +:+ ": " +:+ key
  end%string.

(** [validateSchedule({ names, states, pCount })]. *)
Definition validateSchedule (names : list string)
    (states : list (list DayState)) (pCount : list Z) : list string :=
  render names <$> validateAlerts states pCount.

(** ** Vocabulary of the specification and of the proofs *)

(** How many of the units started at [starts] are producing on day [t]. *)
Definition producingCount (W R I : Z) (starts : list Z) (t : Z) : Z :=
  Z.of_nat (length (filter
    (fun s => getSupervisorStateAtDay t s W R I = PRODUCING) starts)).

(** The untrimmed matrix and count vector over [0, horizon). *)
Definition fullStates (W R I : Z) (starts : list Z) (horizon : Z)
    : list (list DayState) :=
  (fun s => (fun d => getSupervisorStateAtDay (Z.of_nat d) s W R I)
              <$> upto horizon) <$> starts.

Definition fullPCount (W R I : Z) (starts : list Z) (horizon : Z) : list Z :=
  (fun d => producingCount W R I starts (Z.of_nat d)) <$> upto horizon.

(** The number of days of a count vector with exactly two units producing. *)
Definition countTwo (pCount : list Z) : Z :=
  Z.of_nat (length (filter (fun x => x = 2) pCount)).

(** The running count of such days, day [d] included, has reached [target]. *)
Definition reached (pCount : list Z) (target : Z) (d : nat) : Prop :=
  target <= countTwo (take (S d) pCount).


(** The forbidden transitions, as pairs of states. *)
Definition forbiddenTransitions : list (DayState * DayState) :=
  [ (STANDUP, STANDUP); (STANDUP, WINDDOWN); (WINDDOWN, STANDUP);
    (INDUCTION, STANDUP); (REST, INDUCTION) ].

(** Enumeration order of the candidates [(offset2, offset3)]: [offset2]
    ascending in the outer loop, [offset3] ascending in the inner loop. *)
Definition enumeratedBefore (a b : Z * Z) : Prop :=
  a.1 < b.1 \/ (a.1 = b.1 /\ a.2 < b.2).

(** The part of [fillLoop] that writes the matrix. *)
Definition statesLoop (W R I : Z) (starts : list Z) (horizon : Z)
    (states : list (list DayState)) : list (list DayState) :=
  foldl (fun states d =>
    foldl (fun states s =>
      let st := getSupervisorStateAtDay (Z.of_nat d) (starts !!! s) W R I in
      <[s := <[d := st]> (states !!! s)]> states)
      states (seq 0 3))
    states (upto horizon).

(** The diagnostics of a candidate [(offset2, offset3)] in the words of the
    specification: per-day producing counts of the units started at
    [0, offset2, offset3]; the first day with a positive count; the number
    of days with count 3; the number of days at or after that first day with
    a count other than 2; the score and the perfection test. *)
Definition specDiagnostics (W R I horizon offset2 offset3 : Z) : Diagnostics :=
  let counts := fullPCount W R I [0; offset2; offset3] horizon in
  let firstProducingDay := findIndex (fun x => 0 <? x) counts in
  let threeProducingDays :=
    Z.of_nat (length (filter (fun d : nat => counts !!! d = 3) (upto horizon))) in
  let notTwoAfterStartDays :=
    Z.of_nat (length (filter
      (fun d : nat => firstProducingDay <> -1
                      /\ firstProducingDay <= Z.of_nat d
                      /\ counts !!! d <> 2) (upto horizon))) in
  {| firstPDay := firstProducingDay;
     threePDays := threeProducingDays;
     notTwoAfterPDays := notTwoAfterStartDays;
     score := threeProducingDays * 1000 + notTwoAfterStartDays * 10
              + Z.abs offset2 + Z.abs offset3;
     isPerfect := (threeProducingDays =? 0) && (notTwoAfterStartDays =? 0) |}.

(** The candidates [(offset2, offset3)] in the order the two nested loops
    visit them. *)
Definition candidates (maxOffset : Z) : list (Z * Z) :=
  a ← seqZ 0 (maxOffset + 1); (fun b => (a, b)) <$> seqZ 0 (maxOffset + 1).

Definition candidateAt (W R I horizon : Z) (c : Z * Z) : Best :=
  {| startS2 := c.1; startS3 := c.2;
     bestDiagnostics := specDiagnostics W R I horizon c.1 c.2 |}.

(** The update of [best] by a candidate that is not perfect. *)
Definition better (this : Best) (best : option Best) : option Best :=
  match best with
  | None => Some this
  | Some b =>
      if score (bestDiagnostics this) <? score (bestDiagnostics b)
      then Some this else Some b
  end.

(** The search as one loop over a list of candidates. *)
Fixpoint scan (W R I horizon : Z) (l : list (Z * Z)) (best : option Best)
    : Control Best (option Best) :=
  match l with
  | [] => Continue best
  | c :: rest =>
      let this := candidateAt W R I horizon c in
      if isPerfect (bestDiagnostics this) then Return this
      else scan W R I horizon rest (better this best)
  end.

(** The parameters [buildSchedule] computes on. *)
Definition clamped (p : Raw.t) : Params :=
  {| W := clampInt (Raw.W p) 1 60;
     R := clampInt (Raw.R p) 2 60;
     I := clampInt (Raw.I p) 1 5;
     totalPerforationDays := clampInt (Raw.totalPerforationDays p) 1 5000 |}.

Definition horizonFor (q : Params) : Z :=
  horizonOf (W q) (R q) (I q) (totalPerforationDays q).

(** The schedule assembled from the offsets the solver returned. *)
Definition assemble (q : Params) (best : Best) : Schedule :=
  let horizon := horizonFor q in
  let starts := [0; startS2 best; startS3 best] in
  let counts := fullPCount (W q) (R q) (I q) starts horizon in
  let endDay :=
    trimLoop counts (totalPerforationDays q) (upto horizon) 0 (horizon - 1) in
  let days := endDay + 1 in
  {| params := q;
     starts := starts;
     days := days;
     names := ["S1"; "S2"; "S3"]%string;
     states := (fun row => slice0 row days)
                 <$> fullStates (W q) (R q) (I q) starts horizon;
     pCount := slice0 counts days;
     diagnostics := bestDiagnostics best |}.

(** An alert of the third pass of the validator. *)
Definition isPattern (x : Alert) : Prop :=
  match x with InvalidPattern _ _ _ => True | _ => False end.

(** For a unit started on day 0: its first producing day, and the [B] day
    that ends the block this day belongs to. *)
Definition firstProducingDayOf (W R I : Z) : Z :=
  if I <? W then 1 + I else I + R + 1.

Definition firstWinddownAfter (W R I : Z) : Z :=
  if I <? W then W + 1 else I + R + W + 1.

(** An integer parameter object. *)
Definition integerParams (w r i t : Z) : Raw.t :=
  Raw.mk (JsFinite (inject_Z w)) (JsFinite (inject_Z r))
         (JsFinite (inject_Z i)) (JsFinite (inject_Z t)).

(** The forbidden transitions as a boolean test. *)
Definition forbiddenb (a b : DayState) : bool :=
  match a, b with
  | STANDUP, STANDUP | STANDUP, WINDDOWN | WINDDOWN, STANDUP
  | INDUCTION, STANDUP | REST, INDUCTION => true
  | _, _ => false
  end.

(** ** The other copy of the solver and the builder *)

Module Alt.

(** The loop nest of [scoreOffsets], which in this copy has no local
    [states]. *)
Definition countLoop (W R I : Z) (starts : list Z) (horizon : Z)
    (pCount : list Z) : list Z :=
  foldl (fun pCount d =>
    foldl (fun pCount s =>
      let st :=
        Alternative.getSupervisorStateAtDay (Z.of_nat d) (starts !!! s) W R I in
      if decide (st = PRODUCING) then increment d pCount else pCount)
      pCount (seq 0 3))
    pCount (upto horizon).

(** [scoreOffsets]: the second loop is that of the first copy; the score
    has other weights and takes the offsets as they are. *)
Definition scoreOffsets (W R I horizon : Z) (starts : list Z)
    : option Diagnostics :=
  pCount ← Array_fill horizon 0;
  let pCount := countLoop W R I starts horizon pCount in
  let firstPDay := findIndex (fun x => 0 <? x) pCount in
  let '(threeP, notTwoAfterP) := tallyLoop pCount firstPDay horizon in
  let score := threeP * 10000 + notTwoAfterP * 100
               + Z.abs (starts !!! 1%nat) + Z.abs (starts !!! 2%nat) in
  Some {| firstPDay := firstPDay;
          threePDays := threeP;
          notTwoAfterPDays := notTwoAfterP;
          score := score;
          isPerfect := (threeP =? 0) && (notTwoAfterP =? 0) |}.

(** [for (let startS3 = 0; startS3 <= maxOffset; startS3++) { ... }] for one
    [startS2], on the values of [startS3] still to visit. *)
Fixpoint innerLoop (W R I horizon startS1 startS2 : Z) (offsetsS3 : list Z)
    (best : option Best) : option (Control Best (option Best)) :=
  match offsetsS3 with
  | [] => Some (Continue best)
  | startS3 :: rest =>
      diag ← scoreOffsets W R I horizon [startS1; startS2; startS3];
      let this := {| startS2 := startS2; startS3 := startS3;
                     bestDiagnostics := diag |} in
      if isPerfect diag then Some (Return this)
      else
        let best :=
          match best with
          | None => Some this
          | Some b =>
              if score diag <? score (bestDiagnostics b) then Some this
              else Some b
          end in
        innerLoop W R I horizon startS1 startS2 rest best
  end.

(** [for (let startS2 = 0; startS2 <= maxOffset; startS2++) { ... }]. *)
Fixpoint outerLoop (W R I horizon startS1 : Z) (offsetsS2 offsetsS3 : list Z)
    (best : option Best) : option (Control Best (option Best)) :=
  match offsetsS2 with
  | [] => Some (Continue best)
  | startS2 :: rest =>
      r ← innerLoop W R I horizon startS1 startS2 offsetsS3 best;
      match r with
      | Return found => Some (Return found)
      | Continue best => outerLoop W R I horizon startS1 rest offsetsS3 best
      end
  end.

Definition maxOffsetOf (W R horizon : Z) : Z :=
  let cycleLen := W + R in
  Z.min (horizon - 1) (cycleLen * 2 + 20).

Definition searchOffsets (W R I horizon startS1 : Z)
    : option (Control Best (option Best)) :=
  let maxOffset := maxOffsetOf W R horizon in
  outerLoop W R I horizon startS1
    (seqZ 0 (maxOffset + 1)) (seqZ 0 (maxOffset + 1)) None.

Definition findBestOffsets (W R I horizon startS1 : Z) : option Best :=
  let cycleLen := W + R in
  r ← searchOffsets W R I horizon startS1;
  match r with
  | Return found => Some found
  | Continue (Some best) => Some best
  | Continue None =>
      diag ← scoreOffsets W R I horizon [startS1; 0; cycleLen];
      Some {| startS2 := 0; startS3 := cycleLen; bestDiagnostics := diag |}
  end.

(** The loop nest of [buildSchedule] that fills [states] and [pCount]. *)
Definition fillLoop (W R I : Z) (starts : list Z) (horizon : Z)
    (init : list (list DayState) * list Z) : list (list DayState) * list Z :=
  foldl (fun acc d =>
    foldl (fun '(states, pCount) s =>
      let st :=
        Alternative.getSupervisorStateAtDay (Z.of_nat d) (starts !!! s) W R I in
      let states := <[s := <[d := st]> (states !!! s)]> states in
      let pCount :=
        if decide (st = PRODUCING) then increment d pCount else pCount in
      (states, pCount))
      acc (seq 0 3))
    init (upto horizon).

Definition horizonOf (W R totalPerforationDays : Z) : Z :=
  totalPerforationDays + (W + R) * 8 + 40.

(** [buildSchedule]: other ranges for [W] and [R], another horizon; the
    trimming loop is that of the first copy. *)
Definition buildSchedule (p : Raw.t) : option Schedule :=
  let W := clampInt (Raw.W p) 2 60 in
  let R := clampInt (Raw.R p) 0 60 in
  let I := clampInt (Raw.I p) 1 5 in
  let totalPerforationDays := clampInt (Raw.totalPerforationDays p) 1 5000 in
  let horizon := horizonOf W R totalPerforationDays in
  let startS1 := 0 in
  best ← findBestOffsets W R I horizon startS1;
  let starts := [startS1; startS2 best; startS3 best] in
  let names := ["S1"; "S2"; "S3"]%string in
  states ← mapM (fun _ => Array_fill horizon EMPTY) names;
  pCount ← Array_fill horizon 0;
  let '(states, pCount) := fillLoop W R I starts horizon (states, pCount) in
  let endDay :=
    trimLoop pCount totalPerforationDays (upto horizon) 0 (horizon - 1) in
  let days := endDay + 1 in
  Some {| params := {| W := W; R := R; I := I;
                       totalPerforationDays := totalPerforationDays |};
          starts := starts;
          days := days;
          names := names;
          states := (fun row => slice0 row days) <$> states;
          pCount := slice0 pCount days;
          diagnostics := bestDiagnostics best |}.

(** The vocabulary of the proofs, as for the first copy. *)
Definition producingCount (W R I : Z) (starts : list Z) (t : Z) : Z :=
  Z.of_nat (length (filter
    (fun s => Alternative.getSupervisorStateAtDay t s W R I = PRODUCING) starts)).

Definition fullStates (W R I : Z) (starts : list Z) (horizon : Z)
    : list (list DayState) :=
  (fun s => (fun d => Alternative.getSupervisorStateAtDay (Z.of_nat d) s W R I)
              <$> upto horizon) <$> starts.

Definition fullPCount (W R I : Z) (starts : list Z) (horizon : Z) : list Z :=
  (fun d => producingCount W R I starts (Z.of_nat d)) <$> upto horizon.

Definition statesLoop (W R I : Z) (starts : list Z) (horizon : Z)
    (states : list (list DayState)) : list (list DayState) :=
  foldl (fun states d =>
    foldl (fun states s =>
      let st :=
        Alternative.getSupervisorStateAtDay (Z.of_nat d) (starts !!! s) W R I in
      <[s := <[d := st]> (states !!! s)]> states)
      states (seq 0 3))
    states (upto horizon).

Definition specDiagnostics (W R I horizon offset2 offset3 : Z) : Diagnostics :=
  let counts := fullPCount W R I [0; offset2; offset3] horizon in
  let firstProducingDay := findIndex (fun x => 0 <? x) counts in
  let threeProducingDays :=
    Z.of_nat (length (filter (fun d : nat => counts !!! d = 3) (upto horizon))) in
  let notTwoAfterStartDays :=
    Z.of_nat (length (filter
      (fun d : nat => firstProducingDay <> -1
                      /\ firstProducingDay <= Z.of_nat d
                      /\ counts !!! d <> 2) (upto horizon))) in
  {| firstPDay := firstProducingDay;
     threePDays := threeProducingDays;
     notTwoAfterPDays := notTwoAfterStartDays;
     score := threeProducingDays * 10000 + notTwoAfterStartDays * 100
              + Z.abs offset2 + Z.abs offset3;
     isPerfect := (threeProducingDays =? 0) && (notTwoAfterStartDays =? 0) |}.

Definition candidateAt (W R I horizon : Z) (c : Z * Z) : Best :=
  {| startS2 := c.1; startS3 := c.2;
     bestDiagnostics := specDiagnostics W R I horizon c.1 c.2 |}.

Fixpoint scan (W R I horizon : Z) (l : list (Z * Z)) (best : option Best)
    : Control Best (option Best) :=
  match l with
  | [] => Continue best
  | c :: rest =>
      let this := candidateAt W R I horizon c in
      if isPerfect (bestDiagnostics this) then Return this
      else scan W R I horizon rest (better this best)
  end.

Definition clamped (p : Raw.t) : Params :=
  {| W := clampInt (Raw.W p) 2 60;
     R := clampInt (Raw.R p) 0 60;
     I := clampInt (Raw.I p) 1 5;
     totalPerforationDays := clampInt (Raw.totalPerforationDays p) 1 5000 |}.

Definition horizonFor (q : Params) : Z :=
  horizonOf (W q) (R q) (totalPerforationDays q).

Definition assemble (q : Params) (best : Best) : Schedule :=
  let horizon := horizonFor q in
  let starts := [0; startS2 best; startS3 best] in
  let counts := fullPCount (W q) (R q) (I q) starts horizon in
  let endDay :=
    trimLoop counts (totalPerforationDays q) (upto horizon) 0 (horizon - 1) in
  let days := endDay + 1 in
  {| params := q;
     starts := starts;
     days := days;
     names := ["S1"; "S2"; "S3"]%string;
     states := (fun row => slice0 row days)
                 <$> fullStates (W q) (R q) (I q) starts horizon;
     pCount := slice0 counts days;
     diagnostics := bestDiagnostics best |}.

(** For a unit started on day 0 with a block of at least three days: its
    first producing day, and the [B] day that ends the block of that day. *)
Definition firstProducingDayOf (W R I : Z) : Z :=
  if I <? W - 2 then 1 + I else W + R + 1.

Definition firstWinddownAfter (W R I : Z) : Z :=
  if I <? W - 2 then W - 1 else W + R + W - 1.

End Alt.

(** * Properties *)

(** ** Arithmetic of the state generator *)

Ltac zcases :=
  repeat match goal with
  | |- context [?a <? ?b] => destruct (Z.ltb_spec a b); simpl; try lia
  | |- context [?a <=? ?b] => destruct (Z.leb_spec a b); simpl; try lia
  | |- context [?a =? ?b] => destruct (Z.eqb_spec a b); simpl; try lia
  end;
  try reflexivity; try lia.

(** The double remainder of the source is the non-negative residue. *)
Lemma rem_wrap k c : 0 <= k -> 0 < c -> Z.rem (Z.rem k c + c) c = k mod c.
Proof.
  intros Hk Hc.
  rewrite (Z.rem_mod_nonneg k c) by lia.
  pose proof (Z.mod_pos_bound k c Hc).
  rewrite Z.rem_mod_nonneg by lia.
  rewrite <- (Z.mul_1_l c) at 2.
  rewrite Z.mod_add by lia. apply Z.mod_mod. lia.
Qed.

Section Generator.
Variables W R I startDay : Z.
Hypothesis HW : 1 <= W.
Hypothesis HR : 2 <= R.
Hypothesis HI : 1 <= I.

Let firstP := Z.max 0 (W - I).
(** The day of the second [S], the last day of the first cycle. *)
Let secondS := startDay + 1 + I + firstP + 1 + (R - 2).

Local Abbreviation stateAt t := (getSupervisorStateAtDay t startDay W R I).

Lemma state_before t : t < startDay -> stateAt t = EMPTY.
Proof using All. intros. unfold getSupervisorStateAtDay. zcases. Qed.



Lemma state_first_P t :
  startDay + 1 + I <= t < startDay + 1 + I + firstP -> stateAt t = PRODUCING.
Proof using All. intros. unfold getSupervisorStateAtDay. fold firstP. zcases. Qed.

Lemma state_first_B : stateAt (startDay + 1 + I + firstP) = WINDDOWN.
Proof using All.
  assert (0 <= firstP) by (unfold firstP; lia).
  unfold getSupervisorStateAtDay. fold firstP. zcases.
Qed.


Lemma state_second_S : stateAt secondS = STANDUP.
Proof using All.
  assert (0 <= firstP) by (unfold firstP; lia).
  unfold secondS, getSupervisorStateAtDay. fold firstP.
  rewrite (Z.max_r 0 (R - 2)) by lia. zcases.
Qed.

(** After the first cycle the state is a function of the position in a
    cycle of [W + R] days. *)
Lemma state_cyclic t :
  secondS < t ->
  stateAt t =
    let pos := (t - (secondS + 1)) mod (W + R) in
    if pos <? W then PRODUCING
    else if pos =? W then WINDDOWN
    else if pos <? W + R - 1 then REST
    else STANDUP.
Proof using All.
  unfold secondS. intros Ht. unfold getSupervisorStateAtDay. fold firstP.
  assert (0 <= firstP) by (unfold firstP; lia).
  rewrite (Z.max_r 0 (R - 2)) by lia.
  replace (W + 1 + (R - 2) + 1) with (W + R) by lia.
  rewrite rem_wrap by lia.
  cbv zeta.
  set (pos := (t - _) mod (W + R)).
  assert (0 <= pos < W + R) by (apply Z.mod_pos_bound; lia).
  zcases.
Qed.

(** No day of the first cycle past the first block is a producing day. *)
Lemma state_first_cycle_not_P t :
  t < startDay + 1 + I \/ startDay + 1 + I + firstP <= t <= secondS ->
  stateAt t <> PRODUCING.
Proof using All.
  assert (0 <= firstP) by (unfold firstP; lia).
  unfold secondS. intros Ht. unfold getSupervisorStateAtDay. fold firstP.
  rewrite (Z.max_r 0 (R - 2)) by lia.
  zcases; try discriminate.
Qed.

(** The first [W] days after the second [S] are producing days. *)
Lemma state_second_P t :
  secondS < t <= secondS + W -> stateAt t = PRODUCING.
Proof using All.
  intros Ht. rewrite state_cyclic by lia. cbv zeta.
  rewrite Z.mod_small by lia. zcases.
Qed.

Lemma state_second_B : stateAt (secondS + W + 1) = WINDDOWN.
Proof using All.
  rewrite state_cyclic by lia. cbv zeta.
  rewrite Z.mod_small by lia. zcases.
Qed.

End Generator.

(** ** Arrays and loops *)

Lemma Array_fill_Some {A : Type} (n : Z) (v : A) :
  0 <= n < 2 ^ 32 -> Array_fill n v = Some (replicate (Z.to_nat n) v).
Proof.
  intros Hn. unfold Array_fill.
  destruct (Z.leb_spec 0 n); [|lia]. destruct (Z.ltb_spec n (2 ^ 32)); [|lia].
  reflexivity.
Qed.

Lemma foldl_seq_invariant {S : Type} (Inv : nat -> S -> Prop)
    (step : S -> nat -> S) (n : nat) (s0 : S) :
  Inv 0%nat s0 ->
  (forall k s, (k < n)%nat -> Inv k s -> Inv (Datatypes.S k) (step s k)) ->
  Inv n (foldl step s0 (seq 0 n)).
Proof.
  intros H0 Hstep.
  assert (forall k, (k <= n)%nat -> Inv k (foldl step s0 (seq 0 k))) as Hk.
  { induction k as [|k IH]; intros Hle; [exact H0|].
    rewrite seq_S, foldl_app. simpl. apply Hstep; [lia|]. apply IH. lia. }
  apply Hk. lia.
Qed.

Lemma insert_fill {A : Type} (l : list A) (x v : A) (k m : nat) :
  length l = k ->
  <[k := v]> (l ++ replicate (S m) x) = (l ++ [v]) ++ replicate m x.
Proof.
  intros <-. replace (length l) with (length l + 0)%nat by lia.
  rewrite insert_app_r. simpl. by rewrite <- app_assoc.
Qed.

Lemma lookup_fill {A : Type} (l : list A) (x : A) (k m : nat) :
  length l = k -> (l ++ replicate (S m) x) !! k = Some x.
Proof.
  intros <-. rewrite lookup_app_r by lia. by rewrite Nat.sub_diag.
Qed.

Lemma increment_at (d : nat) (pc : list Z) (x : Z) :
  pc !! d = Some x -> increment d pc = <[d := x + 1]> pc.
Proof.
  intros H. unfold increment. by rewrite (list_lookup_total_correct _ _ _ H).
Qed.

Lemma increment_insert (d : nat) (pc : list Z) (x : Z) :
  (d < length pc)%nat -> increment d (<[d := x]> pc) = <[d := x + 1]> pc.
Proof.
  intros Hd. unfold increment.
  rewrite list_lookup_total_insert_eq by lia.
  apply list_insert_insert_eq.
Qed.

Lemma countDay (W R I a b c : Z) (d : nat) (pc : list Z) :
  pc !! d = Some 0 ->
  foldl (fun pCount s =>
      let st := getSupervisorStateAtDay (Z.of_nat d) ([a; b; c] !!! s) W R I in
      if decide (st = PRODUCING) then increment d pCount else pCount)
    pc (seq 0 3)
  = <[d := producingCount W R I [a; b; c] (Z.of_nat d)]> pc.
Proof.
  intros Hd. pose proof (lookup_lt_Some _ _ _ Hd) as Hlen.
  unfold producingCount. simpl foldl.
  change ([a; b; c] !!! 0%nat) with a.
  change ([a; b; c] !!! 1%nat) with b.
  change ([a; b; c] !!! 2%nat) with c.
  rewrite !filter_cons, filter_nil.
  destruct (decide (getSupervisorStateAtDay (Z.of_nat d) a W R I = PRODUCING));
  destruct (decide (getSupervisorStateAtDay (Z.of_nat d) b W R I = PRODUCING));
  destruct (decide (getSupervisorStateAtDay (Z.of_nat d) c W R I = PRODUCING));
  simpl length;
  rewrite ?(increment_at d pc 0 Hd), ?increment_insert by lia;
  try reflexivity.
  symmetry. apply list_insert_id. exact Hd.
Qed.

Lemma countLoop_full (W R I a b c horizon : Z) :
  countLoop W R I [a; b; c] horizon (replicate (Z.to_nat horizon) 0)
  = fullPCount W R I [a; b; c] horizon.
Proof.
  unfold countLoop, fullPCount, upto.
  set (n := Z.to_nat horizon).
  set (f := fun d : nat => producingCount W R I [a; b; c] (Z.of_nat d)).
  pose (Inv := fun (k : nat) (pc : list Z) =>
    pc = (f <$> seq 0 k) ++ replicate (n - k) 0).
  match goal with |- foldl ?step _ _ = _ =>
    assert (Inv n (foldl step (replicate n 0) (seq 0 n))) as HInv end.
  { apply foldl_seq_invariant.
    - unfold Inv. simpl. by rewrite Nat.sub_0_r.
    - intros k pc Hk ->. unfold Inv.
      replace (n - k)%nat with (S (n - S k)) by lia.
      rewrite countDay by (apply lookup_fill; by rewrite length_fmap, length_seq).
      rewrite insert_fill by (by rewrite length_fmap, length_seq).
      by rewrite seq_S, fmap_app. }
  unfold Inv in HInv. rewrite HInv, Nat.sub_diag. simpl. apply app_nil_r.
Qed.

Lemma foldl_ext_in {X B : Type} (F G : X -> B -> X) (l : list B) (x : X) :
  (forall x s, F x s = G x s) -> foldl F x l = foldl G x l.
Proof.
  intros H. revert x. induction l as [|s l IH]; intros x; [done|].
  simpl. rewrite H. apply IH.
Qed.

Lemma fillLoop_split (W R I : Z) (starts : list Z) (horizon : Z)
    (states : list (list DayState)) (pc : list Z) :
  fillLoop W R I starts horizon (states, pc)
  = (statesLoop W R I starts horizon states, countLoop W R I starts horizon pc).
Proof.
  unfold fillLoop, statesLoop, countLoop.
  generalize (upto horizon). intros l. revert states pc.
  induction l as [|d l IH]; intros states pc; [done|].
  cbn [foldl]. rewrite <- IH. f_equal.
Qed.

Lemma set_rows {A : Type} `{!Inhabited A} (d : nat) (g : nat -> A)
    (r0 r1 r2 : list A) :
  foldl (fun states s => <[s := <[d := g s]> (states !!! s)]> states)
    [r0; r1; r2] (seq 0 3)
  = [<[d := g 0%nat]> r0; <[d := g 1%nat]> r1; <[d := g 2%nat]> r2].
Proof. reflexivity. Qed.

Lemma statesLoop_full (W R I a b c horizon : Z) :
  statesLoop W R I [a; b; c] horizon
    (replicate 3 (replicate (Z.to_nat horizon) EMPTY))
  = fullStates W R I [a; b; c] horizon.
Proof.
  unfold statesLoop, fullStates, upto.
  set (n := Z.to_nat horizon).
  set (f := fun (s : Z) (d : nat) => getSupervisorStateAtDay (Z.of_nat d) s W R I).
  pose (row := fun (s : Z) (k : nat) =>
    (f s <$> seq 0 k) ++ replicate (n - k) EMPTY).
  pose (Inv := fun (k : nat) (states : list (list DayState)) =>
    states = [row a k; row b k; row c k]).
  match goal with |- foldl ?step ?init _ = _ =>
    assert (Inv n (foldl step init (seq 0 n))) as HInv end.
  { apply foldl_seq_invariant.
    - unfold Inv, row. simpl. by rewrite Nat.sub_0_r.
    - intros k states Hk ->. unfold Inv.
      rewrite (set_rows k (fun s =>
        getSupervisorStateAtDay (Z.of_nat k) ([a; b; c] !!! s) W R I)).
      change ([a; b; c] !!! 0%nat) with a.
      change ([a; b; c] !!! 1%nat) with b.
      change ([a; b; c] !!! 2%nat) with c.
      fold (f a k) (f b k) (f c k).
      unfold row.
      replace (n - k)%nat with (S (n - S k)) by lia.
      rewrite !insert_fill by (by rewrite length_fmap, length_seq).
      by rewrite seq_S, !fmap_app. }
  unfold Inv, row in HInv. rewrite HInv, Nat.sub_diag. simpl.
  by rewrite !app_nil_r.
Qed.

Lemma findIndex_from_bounds {A : Type} (p : A -> bool) (l : list A) (i : Z)
    (d : nat) (x : A) :
  l !! d = Some x -> p x = true ->
  i <= findIndex_from p l i <= i + Z.of_nat d.
Proof.
  revert i d. induction l as [|y l IH]; intros i d Hd Hp; [done|].
  simpl. destruct (p y) eqn:Hy; [lia|].
  destruct d as [|d]; simpl in Hd.
  - congruence.
  - specialize (IH (i + 1) d Hd Hp). lia.
Qed.

(** What the second loop of [scoreOffsets] counts. *)
Lemma tallyLoop_counts (pc : list Z) (fp horizon : Z) :
  tallyLoop pc fp horizon
  = (Z.of_nat (length (filter (fun d : nat => pc !!! d = 3) (upto horizon))),
     Z.of_nat (length (filter
       (fun d : nat => fp <> -1 /\ fp <= Z.of_nat d /\ pc !!! d <> 2)
       (upto horizon)))).
Proof.
  unfold tallyLoop, upto. set (n := Z.to_nat horizon).
  pose (Inv := fun (k : nat) (acc : Z * Z) =>
    acc = (Z.of_nat (length (filter (fun d : nat => pc !!! d = 3) (seq 0 k))),
           Z.of_nat (length (filter
             (fun d : nat => fp <> -1 /\ fp <= Z.of_nat d /\ pc !!! d <> 2)
             (seq 0 k))))).
  apply (foldl_seq_invariant Inv).
  - reflexivity.
  - intros k acc Hk ->. unfold Inv.
    rewrite seq_S, !filter_app, !length_app. simpl.
    rewrite !filter_cons, !filter_nil. f_equal.
    + destruct (Z.eqb_spec (pc !!! k) 3); destruct (decide (pc !!! k = 3));
        simpl; lia.
    + destruct (Z.eqb_spec fp (-1)); destruct (Z.leb_spec fp (Z.of_nat k));
        destruct (Z.eqb_spec (pc !!! k) 2); simpl;
        destruct (decide _) as [Hd|Hd]; simpl; try lia;
        try (exfalso; apply Hd; repeat split; done || lia).
Qed.

Lemma length_filter_zero {A : Type} (P : A -> Prop) `{forall x, Decision (P x)}
    (l : list A) (x : A) :
  Z.of_nat (length (filter P l)) = 0 -> x ∈ l -> ~ P x.
Proof.
  intros Hz Hx HP.
  assert (x ∈ filter P l) as Hin by (apply list_elem_of_filter; done).
  destruct (filter P l); [by apply elem_of_nil in Hin | simpl in Hz; lia].
Qed.

Lemma elem_of_upto (d : nat) (n : Z) : d ∈ upto n <-> Z.of_nat d < n.
Proof. unfold upto. rewrite elem_of_seq. lia. Qed.

(** ** The offset solver as a scan of the candidate list *)

Lemma scoreOffsets_spec (W R I horizon offset2 offset3 : Z) :
  0 <= horizon < 2 ^ 32 ->
  scoreOffsets W R I horizon [0; offset2; offset3]
  = Some (specDiagnostics W R I horizon offset2 offset3).
Proof.
  intros Hh. unfold scoreOffsets. rewrite Array_fill_Some by done. simpl.
  rewrite countLoop_full, tallyLoop_counts.
  change ([0; offset2; offset3] !!! 0%nat) with 0.
  change ([0; offset2; offset3] !!! 1%nat) with offset2.
  change ([0; offset2; offset3] !!! 2%nat) with offset3.
  rewrite !Z.sub_0_r. reflexivity.
Qed.

Section Solver.
Variables W R I horizon : Z.
Hypothesis Hhorizon : 0 <= horizon < 2 ^ 32.

Local Abbreviation perfect c :=
  (isPerfect (bestDiagnostics (candidateAt W R I horizon c))).
Local Abbreviation scoreAt c :=
  (score (bestDiagnostics (candidateAt W R I horizon c))).

Lemma innerLoop_scan (a : Z) (cs : list Z) (best : option Best) :
  innerLoop W R I horizon 0 a cs best
  = Some (scan W R I horizon ((fun b => (a, b)) <$> cs) best).
Proof using Hhorizon.
  revert best. induction cs as [|b cs IH]; intros best; [done|].
  cbn [innerLoop fmap list_fmap scan].
  rewrite scoreOffsets_spec by done.
  unfold candidateAt. cbn [fst snd].
  generalize (specDiagnostics W R I horizon a b). intros diag. simpl.
  destruct (isPerfect diag); [done|].
  rewrite IH. unfold candidateAt. done.
Qed.

Lemma scan_app (l1 l2 : list (Z * Z)) (best : option Best) :
  scan W R I horizon (l1 ++ l2) best
  = match scan W R I horizon l1 best with
    | Return found => Return found
    | Continue best' => scan W R I horizon l2 best'
    end.
Proof.
  revert best. induction l1 as [|c l1 IH]; intros best; [done|].
  cbn [scan app]. destruct (perfect c); [done|]. apply IH.
Qed.

Lemma outerLoop_scan (cs2 cs3 : list Z) (best : option Best) :
  outerLoop W R I horizon 0 cs2 cs3 best
  = Some (scan W R I horizon
            (a ← cs2; (fun b => (a, b)) <$> cs3) best).
Proof using Hhorizon.
  revert best. induction cs2 as [|a cs2 IH]; intros best; [done|].
  cbn [outerLoop]. rewrite innerLoop_scan. simpl.
  rewrite scan_app.
  destruct (scan W R I horizon ((fun b => (a, b)) <$> cs3) best); [done|].
  apply IH.
Qed.

Lemma searchOffsets_scan :
  searchOffsets W R I horizon 0
  = Some (scan W R I horizon (candidates (maxOffsetOf W R I horizon)) None).
Proof using Hhorizon. unfold searchOffsets. apply outerLoop_scan. Qed.

(** An early return is the first perfect candidate of the list. *)
Lemma scan_Return (l : list (Z * Z)) (best : option Best) (found : Best) :
  scan W R I horizon l best = Return found ->
  exists l1 c l2,
    l = l1 ++ c :: l2 /\ found = candidateAt W R I horizon c
    /\ perfect c = true
    /\ forall y, y ∈ l1 -> perfect y = false.
Proof.
  revert best. induction l as [|c l IH]; intros best; [done|].
  cbn [scan]. destruct (perfect c) eqn:Hp.
  - intros [= <-]. exists [], c, l. repeat split; [done|].
    intros y Hy. by apply elem_of_nil in Hy.
  - intros (l1 & c' & l2 & -> & Hf & Hp' & Hl1)%IH.
    exists (c :: l1), c', l2. repeat split; [done|done|].
    intros y [->|Hy]%elem_of_cons; [done|]. by apply Hl1.
Qed.

(** Without an early return no candidate is perfect and [best] is the
    first candidate of lowest score, the incoming [best] counting as seen
    before the list. *)
Lemma scan_Continue (l : list (Z * Z)) (best out : option Best) :
  scan W R I horizon l best = Continue out ->
  (forall y, y ∈ l -> perfect y = false)
  /\ ((out = best
       /\ forall y b, best = Some b -> y ∈ l ->
            score (bestDiagnostics b) <= scoreAt y)
      \/ exists l1 c l2,
           l = l1 ++ c :: l2 /\ out = Some (candidateAt W R I horizon c)
           /\ (forall b, best = Some b -> scoreAt c < score (bestDiagnostics b))
           /\ (forall y, y ∈ l1 -> scoreAt c < scoreAt y)
           /\ (forall y, y ∈ l2 -> scoreAt c <= scoreAt y)).
Proof.
  revert best. induction l as [|c l IH]; intros best.
  - cbn [scan]. intros [= <-]. split; [intros y Hy; by apply elem_of_nil in Hy|].
    left. split; [done|]. intros y b _ Hy. by apply elem_of_nil in Hy.
  - cbn [scan]. destruct (perfect c) eqn:Hp; [done|].
    intros [Hnp Hout]%IH. split.
    { intros y [->|Hy]%elem_of_cons; [done|]. by apply Hnp. }
    destruct best as [b0|]; cbn [better] in Hout.
    + destruct (Z.ltb_spec (scoreAt c) (score (bestDiagnostics b0))) as [Hlt|Hge].
      * (* the head replaces the incoming best *)
        destruct Hout as [[-> Hall]|(l1 & c' & l2 & -> & -> & Hb & H1 & H2)].
        -- right. exists [], c, l. split_and!; [done|done|..].
           ++ intros b [= <-]. done.
           ++ intros y Hy. by apply elem_of_nil in Hy.
           ++ intros y Hy. by apply (Hall y _ eq_refl).
        -- right. exists (c :: l1), c', l2. split_and!; [done|done|..].
           ++ intros b [= <-]. specialize (Hb _ eq_refl). lia.
           ++ intros y [->|Hy]%elem_of_cons; [by apply (Hb _ eq_refl)|by apply H1].
           ++ done.
      * destruct Hout as [[-> Hall]|(l1 & c' & l2 & -> & -> & Hb & H1 & H2)].
        -- left. split; [done|]. intros y b [= <-] [->|Hy]%elem_of_cons; [done|].
           by apply (Hall y _ eq_refl).
        -- right. exists (c :: l1), c', l2. split_and!; [done|done|..].
           ++ intros b [= <-]. by apply Hb.
           ++ intros y [->|Hy]%elem_of_cons; [|by apply H1].
              specialize (Hb _ eq_refl). lia.
           ++ done.
    + destruct Hout as [[-> Hall]|(l1 & c' & l2 & -> & -> & Hb & H1 & H2)].
      * right. exists [], c, l. split_and!; [done|done|done|..].
        -- intros y Hy. by apply elem_of_nil in Hy.
        -- intros y Hy. by apply (Hall y _ eq_refl).
      * right. exists (c :: l1), c', l2. split_and!; [done|done|done|..].
        -- intros y [->|Hy]%elem_of_cons; [by apply (Hb _ eq_refl)|by apply H1].
        -- done.
Qed.
End Solver.

Lemma elem_of_candidates (m : Z) (c : Z * Z) :
  c ∈ candidates m <-> (0 <= c.1 <= m /\ 0 <= c.2 <= m).
Proof.
  unfold candidates. rewrite list_elem_of_bind. split.
  - intros (a & Hc & Ha). apply list_elem_of_fmap in Hc as (b & -> & Hb).
    apply elem_of_seqZ in Ha. apply elem_of_seqZ in Hb. simpl. lia.
  - intros [Ha Hb]. exists c.1. split.
    + apply list_elem_of_fmap. exists c.2. split; [by destruct c|].
      apply elem_of_seqZ. lia.
    + apply elem_of_seqZ. lia.
Qed.

Lemma seqZ_sorted (m n : Z) : StronglySorted Z.lt (seqZ m n).
Proof.
  destruct (Z.le_gt_cases n 0) as [Hn|Hn].
  { rewrite seqZ_nil by done. constructor. }
  rewrite <- (Z2Nat.id n) by lia. generalize (Z.to_nat n). clear. intros k.
  induction k as [|k IH]; [constructor|].
  rewrite seqZ_S. apply StronglySorted_app_2; [|done|repeat constructor].
  intros x y Hx Hy. apply list_elem_of_singleton in Hy as ->.
  apply elem_of_seqZ in Hx. lia.
Qed.

Lemma candidates_sorted (m : Z) : StronglySorted enumeratedBefore (candidates m).
Proof.
  unfold candidates.
  generalize (seqZ_sorted 0 (m + 1)).
  generalize (seqZ 0 (m + 1)) at 1 3. intros la Hla.
  induction Hla as [|a la Hla IH Hall]; [constructor|].
  cbn [mbind list_bind]. apply StronglySorted_app_2.
  - intros x y (b & -> & _)%list_elem_of_fmap Hy.
    apply list_elem_of_bind in Hy as (a' & (b' & -> & _)%list_elem_of_fmap & Ha').
    left. simpl. rewrite Forall_forall in Hall. by apply Hall.
  - apply (StronglySorted_fmap _ Z.lt); [|apply seqZ_sorted].
    intros x y Hxy. right. simpl. done.
  - exact IH.
Qed.

(** A candidate splits the enumeration into the candidates visited before
    it and those visited after it. *)
Lemma candidates_split (m : Z) (l1 l2 : list (Z * Z)) (c y : Z * Z) :
  candidates m = l1 ++ c :: l2 ->
  y ∈ candidates m ->
  (enumeratedBefore y c -> y ∈ l1)
  /\ (y ∈ l1 -> enumeratedBefore y c)
  /\ (y ∈ l2 \/ y = c \/ enumeratedBefore y c).
Proof.
  intros Hsplit Hy.
  pose proof (candidates_sorted m) as Hs. rewrite Hsplit in Hs.
  assert (forall x, x ∈ l1 -> enumeratedBefore x c) as H1.
  { intros x Hx. eapply StronglySorted_app_1_elem_of; [exact Hs|done|].
    apply elem_of_cons. by left. }
  assert (forall x, x ∈ l2 -> enumeratedBefore c x) as H2.
  { intros x Hx. apply StronglySorted_app_1_r in Hs.
    apply StronglySorted_cons in Hs as [Hall _].
    rewrite Forall_forall in Hall. by apply Hall. }
  rewrite Hsplit in Hy.
  apply elem_of_app in Hy as [Hy|[->|Hy]%elem_of_cons].
  - split_and!; auto.
  - split_and!; auto. intros [?|[? ?]]; lia.
  - split_and!; auto.
    intros Hb. specialize (H2 _ Hy). unfold enumeratedBefore in *. lia.
Qed.

Lemma scan_Continue_Some (W R I horizon : Z) (l : list (Z * Z))
    (best out : option Best) :
  scan W R I horizon l best = Continue out ->
  is_Some best \/ l <> [] -> is_Some out.
Proof.
  revert best. induction l as [|c l IH]; intros best.
  - cbn [scan]. intros [= <-] [?|?]; done.
  - cbn [scan]. destruct (isPerfect _); [done|]. intros Hs _.
    apply (IH _ Hs). left. destruct best as [b|]; cbn [better]; [|eauto].
    destruct (_ <? _); eauto.
Qed.

(** The outcome of the search over a non-empty range of offsets. *)
Lemma findBestOffsets_outcome (W R I horizon : Z) :
  1 <= horizon < 2 ^ 32 -> 0 <= maxOffsetOf W R I horizon ->
  let l := candidates (maxOffsetOf W R I horizon) in
  let perfect c := isPerfect (bestDiagnostics (candidateAt W R I horizon c)) in
  let scoreAt c := score (bestDiagnostics (candidateAt W R I horizon c)) in
  exists l1 c l2,
    l = l1 ++ c :: l2
    /\ findBestOffsets W R I horizon 0 = Some (candidateAt W R I horizon c)
    /\ ((searchOffsets W R I horizon 0
           = Some (Return (candidateAt W R I horizon c))
         /\ perfect c = true
         /\ forall y, y ∈ l1 -> perfect y = false)
        \/ (searchOffsets W R I horizon 0
              = Some (Continue (Some (candidateAt W R I horizon c)))
            /\ (forall y, y ∈ l -> perfect y = false)
            /\ (forall y, y ∈ l1 -> scoreAt c < scoreAt y)
            /\ (forall y, y ∈ l2 -> scoreAt c <= scoreAt y))).
Proof.
  intros Hh Hm. cbv zeta. unfold findBestOffsets.
  rewrite searchOffsets_scan by lia. cbn [mbind option_bind].
  destruct (scan _ _ _ _ _ None) as [found|out] eqn:Hscan.
  - destruct (scan_Return _ _ _ _ _ _ _ Hscan) as (l1 & c & l2 & Hl & -> & Hp & H1).
    exists l1, c, l2. split_and!; [done|done|]. left. done.
  - assert (is_Some out) as [b ->].
    { apply (scan_Continue_Some _ _ _ _ _ _ _ Hscan). right.
      intros Hnil.
      assert ((0, 0) ∈ candidates (maxOffsetOf W R I horizon)) as Hin
        by (apply elem_of_candidates; simpl; lia).
      rewrite Hnil in Hin. by apply elem_of_nil in Hin. }
    destruct (scan_Continue _ _ _ _ _ _ _ Hscan)
      as (Hnp & [[? _]|(l1 & c & l2 & Hl & [= ->] & _ & H1 & H2)]); [done|].
    exists l1, c, l2. split_and!; [done|done|]. right. done.
Qed.

(** ** The builder: clamping, horizon and assembly *)

Lemma clampInt_range (v : JsValue) (lo hi : Z) :
  lo <= hi -> lo <= clampInt v lo hi <= hi.
Proof. intros. unfold clampInt. lia. Qed.

Lemma clampInt_not_finite (v : JsValue) (lo hi : Z) :
  Number_isFinite v = false -> clampInt v lo hi = lo.
Proof. intros Hv. unfold clampInt. destruct v; [done|lia..]. Qed.

Lemma clampInt_integer (n lo hi : Z) :
  lo <= n <= hi -> clampInt (JsFinite (inject_Z n)) lo hi = n.
Proof. intros. unfold clampInt. rewrite Qfloor_Z. lia. Qed.

Lemma clamped_range (p : Raw.t) :
  1 <= W (clamped p) <= 60 /\ 2 <= R (clamped p) <= 60
  /\ 1 <= I (clamped p) <= 5
  /\ 1 <= totalPerforationDays (clamped p) <= 5000.
Proof. unfold clamped; simpl. split_and!; apply clampInt_range; lia. Qed.

Lemma horizon_range (p : Raw.t) :
  45 <= horizonFor (clamped p) <= 5770.
Proof.
  pose proof (clamped_range p). unfold horizonFor, horizonOf. lia.
Qed.

Lemma maxOffset_range (p : Raw.t) :
  let q := clamped p in
  32 <= maxOffsetOf (W q) (R q) (I q) (horizonFor q) <= 395.
Proof.
  pose proof (clamped_range p). pose proof (horizon_range p).
  cbv zeta. unfold maxOffsetOf. unfold horizonFor, horizonOf in *. lia.
Qed.

Lemma buildSchedule_assemble (p : Raw.t) :
  let q := clamped p in
  exists best,
    findBestOffsets (W q) (R q) (I q) (horizonFor q) 0 = Some best
    /\ buildSchedule p = Some (assemble q best).
Proof.
  cbv zeta. pose proof (horizon_range p) as Hh.
  pose proof (maxOffset_range p) as Hm. cbv zeta in Hm.
  destruct (findBestOffsets_outcome (W (clamped p)) (R (clamped p))
              (I (clamped p)) (horizonFor (clamped p)))
    as (l1 & c & l2 & _ & Hbest & _); [lia|lia|].
  eexists. split; [exact Hbest|].
  unfold buildSchedule.
  change (clampInt (Raw.W p) 1 60) with (W (clamped p)).
  change (clampInt (Raw.R p) 2 60) with (R (clamped p)).
  change (clampInt (Raw.I p) 1 5) with (I (clamped p)).
  change (clampInt (Raw.totalPerforationDays p) 1 5000)
    with (totalPerforationDays (clamped p)).
  change (horizonOf _ _ _ _) with (horizonFor (clamped p)).
  cbv zeta. rewrite Hbest. cbn [mbind option_bind].
  cbn [mapM]. rewrite !Array_fill_Some by lia. cbn [mbind option_bind mret option_ret].
  rewrite (fillLoop_split _ _ _ _ _
             (replicate 3 (replicate (Z.to_nat (horizonFor (clamped p))) EMPTY))).
  rewrite statesLoop_full, countLoop_full.
  unfold assemble. destruct (clamped p); reflexivity.
Qed.

(** ** The state generator: periodicity, first block, the two readings *)





Lemma filter_replicate_none {A : Type} (P : A -> Prop)
    `{forall x, Decision (P x)} (n : nat) (x : A) :
  ~ P x -> filter P (replicate n x) = [].
Proof.
  intros Hx. induction n as [|n IH]; simpl; [done|].
  by rewrite filter_cons_False.
Qed.





(** C8.  The two readings of the regime disagree: on day 14 of a unit
    started on day 0 under 14 x 7 with 5 induction days, the generator of
    [schedule.js] is still producing while the other copy is already at
    rest. *)
Theorem regime_interpretations_differ :
  exists t startDay W R I : Z,
    1 <= W /\ 2 <= R /\ 1 <= I <= 5 /\
    Canonical.getSupervisorStateAtDay t startDay W R I
    <> Alternative.getSupervisorStateAtDay t startDay W R I.
Proof.
  exists 14, 0, 14, 7, 5.
  repeat split; try lia.
  vm_compute. discriminate.
Qed.

(** ** The builder: trimming *)

Lemma countTwo_snoc (l : list Z) (x : Z) :
  countTwo (l ++ [x]) = countTwo l + (if x =? 2 then 1 else 0).
Proof.
  unfold countTwo. rewrite filter_app, length_app, filter_cons, filter_nil.
  destruct (Z.eqb_spec x 2); destruct (decide (x = 2)); simpl; lia.
Qed.

Lemma countTwo_take_S (pc : list Z) (k : nat) :
  (k < length pc)%nat ->
  countTwo (take (S k) pc)
  = if pc !!! k =? 2 then countTwo (take k pc) + 1 else countTwo (take k pc).
Proof.
  intros Hk. destruct (lookup_lt_is_Some_2 pc k Hk) as [x Hx].
  rewrite (take_S_r _ _ _ Hx), countTwo_snoc.
  rewrite (list_lookup_total_correct _ _ _ Hx).
  destruct (x =? 2); lia.
Qed.

(** The trimming loop stops on the first day at which the running count has
    reached the target, and otherwise leaves [endDay] as it was. *)
Lemma trimLoop_spec (pc : list Z) (target : Z) (m k : nat) (e : Z) :
  (k + m <= length pc)%nat ->
  countTwo (take k pc) < target ->
  let r := trimLoop pc target (seq k m) (countTwo (take k pc)) e in
  (exists d : nat,
      (k <= d < k + m)%nat /\ r = Z.of_nat d /\ reached pc target d
      /\ forall d' : nat, (k <= d' < d)%nat -> ~ reached pc target d')
  \/ (r = e /\ forall d : nat, (k <= d < k + m)%nat -> ~ reached pc target d).
Proof.
  revert k. induction m as [|m IH]; intros k Hlen Hacc; cbv zeta.
  - right. split; [done|]. intros d Hd. lia.
  - cbn [seq trimLoop].
    rewrite <- countTwo_take_S by lia.
    destruct (Z.leb_spec target (countTwo (take (S k) pc))) as [Hreach|Hnot].
    + left. exists k. split_and!; [lia|lia|done|done|]. intros d' Hd'. lia.
    + destruct (IH (S k) ltac:(lia) Hnot) as
        [(d & Hd & Hr & Hreach & Hmin)|[Hr Hnone]].
      * left. exists d. split_and!; [lia|lia|done|done|].
        intros d' Hd'. destruct (decide (d' = k)) as [->|Hne].
        -- unfold reached. lia.
        -- apply Hmin. lia.
      * right. split; [done|]. intros d Hd.
        destruct (decide (d = k)) as [->|Hne].
        -- unfold reached. lia.
        -- apply Hnone. lia.
Qed.

Lemma length_fullPCount (W R I : Z) (starts : list Z) (horizon : Z) :
  length (fullPCount W R I starts horizon) = Z.to_nat horizon.
Proof. unfold fullPCount, upto. by rewrite length_fmap, length_seq. Qed.

Lemma lookup_fullPCount (W R I : Z) (starts : list Z) (horizon : Z) (d : nat) :
  Z.of_nat d < horizon ->
  fullPCount W R I starts horizon !! d
  = Some (producingCount W R I starts (Z.of_nat d)).
Proof.
  intros Hd. unfold fullPCount, upto. rewrite list_lookup_fmap.
  rewrite lookup_seq_lt by lia. done.
Qed.

Lemma lookup_fullStates (W R I : Z) (starts : list Z) (horizon : Z)
    (i : nat) (row : list DayState) :
  fullStates W R I starts horizon !! i = Some row ->
  exists s, starts !! i = Some s
    /\ row = (fun d => getSupervisorStateAtDay (Z.of_nat d) s W R I)
              <$> upto horizon.
Proof.
  unfold fullStates. intros (s & -> & Hs)%list_lookup_fmap_Some. eauto.
Qed.

Lemma length_fullStates_row (W R I : Z) (starts : list Z) (horizon : Z)
    (i : nat) (row : list DayState) :
  fullStates W R I starts horizon !! i = Some row ->
  length row = Z.to_nat horizon.
Proof.
  intros (s & _ & ->)%lookup_fullStates.
  unfold upto. by rewrite length_fmap, length_seq.
Qed.

Lemma slice0_nonneg {A : Type} (l : list A) (n : Z) :
  0 <= n -> slice0 l n = take (Z.to_nat n) l.
Proof. intros Hn. unfold slice0. destruct (Z.leb_spec 0 n); [done|lia]. Qed.

Lemma countTwo_app (l1 l2 : list Z) :
  countTwo (l1 ++ l2) = countTwo l1 + countTwo l2.
Proof. unfold countTwo. rewrite filter_app, length_app. lia. Qed.

Lemma countTwo_nonneg (l : list Z) : 0 <= countTwo l.
Proof. unfold countTwo. lia. Qed.

(** The running count only grows. *)
Lemma reached_mono (pc : list Z) (target : Z) (d d' : nat) :
  (d <= d')%nat -> reached pc target d -> reached pc target d'.
Proof.
  unfold reached. intros Hd Hr.
  rewrite <- (take_drop (S d) (take (S d') pc)), countTwo_app.
  rewrite take_take, Nat.min_l by lia.
  pose proof (countTwo_nonneg (drop (S d) (take (S d') pc))). lia.
Qed.

(** C4.  Horizon and trimming: on the clamped parameters the builder works
    over [horizon = totalPerforationDays + (W + R + I) * 6 + 20] days; the
    result ends with the first day on which the running number of days with
    exactly two units producing reaches the target, that day included; when
    no day of the horizon reaches it, the result is the whole horizon. *)
Theorem build_horizon_and_trimming (p : Raw.t) :
  let q := clamped p in
  let horizon := totalPerforationDays q + (W q + R q + I q) * 6 + 20 in
  exists r,
    buildSchedule p = Some r /\ params r = q /\
    let counts := fullPCount (W q) (R q) (I q) (starts r) horizon in
    let matrix := fullStates (W q) (R q) (I q) (starts r) horizon in
    length counts = Z.to_nat horizon
    /\ (forall d : nat,
          Z.of_nat d < horizon ->
          reached counts (totalPerforationDays q) d ->
          (forall d' : nat, (d' < d)%nat ->
             ~ reached counts (totalPerforationDays q) d') ->
          days r = Z.of_nat d + 1
          /\ states r = take (S d) <$> matrix
          /\ pCount r = take (S d) counts)
    /\ ((forall d : nat, Z.of_nat d < horizon ->
           ~ reached counts (totalPerforationDays q) d) ->
        days r = horizon /\ states r = matrix /\ pCount r = counts).
Proof.
  cbv zeta.
  destruct (buildSchedule_assemble p) as (best & _ & Hbuild).
  pose proof (horizon_range p) as Hh. pose proof (clamped_range p) as Hq.
  set (q := clamped p) in *.
  change (totalPerforationDays q + (W q + R q + I q) * 6 + 20)
    with (horizonFor q).
  exists (assemble q best). split; [exact Hbuild|]. split; [reflexivity|].
  unfold assemble. cbn [starts days states pCount].
  set (sts := [0; startS2 best; startS3 best]).
  set (counts := fullPCount (W q) (R q) (I q) sts (horizonFor q)).
  pose proof (length_fullPCount (W q) (R q) (I q) sts (horizonFor q)) as Hlen.
  fold counts in Hlen.
  split; [exact Hlen|].
  pose proof (trimLoop_spec counts (totalPerforationDays q)
                (Z.to_nat (horizonFor q)) 0 (horizonFor q - 1)) as Htrim.
  cbv zeta in Htrim. rewrite take_0 in Htrim.
  change (countTwo []) with 0 in Htrim.
  change (seq 0 (Z.to_nat (horizonFor q))) with (upto (horizonFor q)) in Htrim.
  specialize (Htrim ltac:(lia) ltac:(lia)).
  split.
  - intros d Hd Hreach Hmin.
    destruct Htrim as [(d0 & Hd0 & Hr & Hreach0 & Hmin0)|[_ Hnone]].
    + assert (d0 = d) as ->.
      { destruct (Nat.lt_trichotomy d0 d) as [Hlt|[Heq|Hgt]]; [|done|].
        - exfalso. by apply (Hmin d0).
        - exfalso. apply (Hmin0 d); [lia|done]. }
      rewrite Hr. rewrite !slice0_nonneg by lia.
      replace (Z.to_nat (Z.of_nat d + 1)) with (S d) by lia.
      split_and!; [done| |done].
      apply list_fmap_ext. intros i row _. rewrite slice0_nonneg by lia.
      f_equal. lia.
    + exfalso. apply (Hnone d); [lia|done].
  - intros Hnever.
    destruct Htrim as [(d0 & Hd0 & Hr & Hreach0 & Hmin0)|[Hr _]].
    + exfalso. apply (Hnever d0); [lia|done].
    + rewrite Hr. replace (horizonFor q - 1 + 1) with (horizonFor q) by lia.
      split_and!; [done| |].
      * rewrite <- (list_fmap_id (fullStates _ _ _ _ _)) at 2.
        apply list_fmap_ext. intros i row Hrow.
        rewrite slice0_nonneg by lia. apply take_ge.
        apply length_fullStates_row in Hrow. unfold id. lia.
      * rewrite slice0_nonneg by lia. apply take_ge. lia.
Qed.

Lemma build_horizon_and_trimming_witness :
  (exists r, buildSchedule (integerParams 2 2 1 3) = Some r /\ days r = 7)
  /\ (exists r, buildSchedule (integerParams 1 2 1 30) = Some r
                /\ days r = 74 /\ length (pCount r) = 74%nat).
Proof.
  split.
  - destruct (build_horizon_and_trimming (integerParams 2 2 1 3))
      as (r & Hr & _ & _ & Hreach & _).
    exists r. split; [exact Hr|].
    assert (starts <$> buildSchedule (integerParams 2 2 1 3) = Some [0; 0; 2])
      as Hs by (vm_compute; reflexivity).
    rewrite Hr in Hs. injection Hs as Hs.
    refine (proj1 (Hreach 6%nat _ _ _)).
    + vm_compute. reflexivity.
    + rewrite Hs. apply Z.leb_le. vm_compute. reflexivity.
    + intros d' Hd' Hreached.
      apply (reached_mono _ _ d' 5) in Hreached; [|lia].
      revert Hreached. rewrite Hs. apply Z.lt_nge, Z.ltb_lt.
      vm_compute. reflexivity.
  - destruct (build_horizon_and_trimming (integerParams 1 2 1 30))
      as (r & Hr & _ & Hlen & _ & Hnever).
    exists r. split; [exact Hr|].
    assert (starts <$> buildSchedule (integerParams 1 2 1 30) = Some [0; 0; 1])
      as Hs by (vm_compute; reflexivity).
    rewrite Hr in Hs. injection Hs as Hs.
    destruct Hnever as (Hdays & _ & Hpc).
    + intros d Hd Hreached.
      assert (d <= 73)%nat as Hle.
      { revert Hd. clear.
        change (totalPerforationDays _ + _ * 6 + 20) with 74. lia. }
      apply (reached_mono _ _ d 73 Hle) in Hreached.
      revert Hreached. rewrite Hs. apply Z.lt_nge, Z.ltb_lt.
      vm_compute. reflexivity.
    + split; [exact Hdays|]. rewrite Hpc. exact Hlen.
Defined.

(** ** The builder: consistency and clamping *)

Lemma producingCount_range (W R I : Z) (starts : list Z) (t : Z) :
  0 <= producingCount W R I starts t <= Z.of_nat (length starts).
Proof.
  unfold producingCount. pose proof (length_filter
    (fun s => getSupervisorStateAtDay t s W R I = PRODUCING) starts). lia.
Qed.

Lemma length_filter_Forall2 {A B : Type} (P : A -> Prop) (Q : B -> Prop)
    `{forall x, Decision (P x)} `{forall y, Decision (Q y)}
    (la : list A) (lb : list B) :
  Forall2 (fun a b => P a <-> Q b) la lb ->
  length (filter P la) = length (filter Q lb).
Proof.
  induction 1 as [|a b la lb Hab _ IH]; [done|].
  rewrite !filter_cons.
  destruct (decide (P a)), (decide (Q b)); simpl; try rewrite IH; try done;
    exfalso; tauto.
Qed.

(** The trimmed length lies within the horizon. *)
Lemma assemble_days (p : Raw.t) (best : Best) :
  1 <= days (assemble (clamped p) best) <= horizonFor (clamped p).
Proof.
  pose proof (horizon_range p) as Hh. pose proof (clamped_range p) as Hq.
  set (q := clamped p) in *. unfold assemble. cbn [days].
  set (counts := fullPCount _ _ _ _ _).
  pose proof (trimLoop_spec counts (totalPerforationDays q)
                (Z.to_nat (horizonFor q)) 0 (horizonFor q - 1)) as Htrim.
  cbv zeta in Htrim. rewrite take_0 in Htrim.
  change (countTwo []) with 0 in Htrim.
  change (seq 0 (Z.to_nat (horizonFor q))) with (upto (horizonFor q)) in Htrim.
  unfold counts in Htrim at 1. rewrite length_fullPCount in Htrim.
  destruct (Htrim ltac:(lia) ltac:(lia)) as [(d & Hd & -> & _)|[-> _]]; lia.
Qed.

(** C9.  Consistency of the result: the returned matrix has three rows, every
    cell of it is the generator's state for that unit and day on the clamped
    parameters, and every entry of the count vector is the number of rows
    that are producing on that day, a number between 0 and 3. *)
Theorem build_result_consistent (p : Raw.t) (r : Schedule) (s d : nat) :
  buildSchedule p = Some r ->
  (s < 3)%nat -> Z.of_nat d < days r ->
  params r = clamped p
  /\ length (states r) = 3%nat
  /\ exists (row : list DayState) (n : Z),
       states r !! s = Some row
       /\ row !! d = Some (getSupervisorStateAtDay (Z.of_nat d) (starts r !!! s)
                             (W (params r)) (R (params r)) (I (params r)))
       /\ pCount r !! d = Some n
       /\ n = Z.of_nat (length (filter
                (fun row' : list DayState => row' !! d = Some PRODUCING)
                (states r)))
       /\ 0 <= n <= 3.
Proof.
  intros Hbuild Hs Hd.
  destruct (buildSchedule_assemble p) as (best & _ & Hbuild').
  rewrite Hbuild' in Hbuild. injection Hbuild as <-.
  pose proof (assemble_days p best) as Hdays.
  set (q := clamped p) in *.
  split; [reflexivity|]. split; [reflexivity|].
  unfold assemble in *. cbn [days states pCount starts params] in *.
  set (sts := [0; startS2 best; startS3 best]) in *.
  set (counts := fullPCount (W q) (R q) (I q) sts (horizonFor q)) in *.
  set (dd := trimLoop _ _ _ _ _ + 1) in *.
  assert (forall row : list DayState,
            slice0 row dd !! d = row !! d) as Hslice.
  { intros row. rewrite slice0_nonneg by lia. apply lookup_take_lt. lia. }
  assert (forall o : Z,
    ((fun d0 => getSupervisorStateAtDay (Z.of_nat d0) o (W q) (R q) (I q))
       <$> upto (horizonFor q)) !! d
    = Some (getSupervisorStateAtDay (Z.of_nat d) o (W q) (R q) (I q))) as Hcell.
  { intros o. rewrite list_lookup_fmap. unfold upto.
    rewrite lookup_seq_lt by lia. done. }
  exists (slice0 ((fun d0 => getSupervisorStateAtDay (Z.of_nat d0) (sts !!! s)
                     (W q) (R q) (I q)) <$> upto (horizonFor q)) dd),
         (producingCount (W q) (R q) (I q) sts (Z.of_nat d)).
  split_and!.
  - destruct s as [|[|[|s]]]; [done..|lia].
  - rewrite Hslice. apply Hcell.
  - unfold counts. rewrite slice0_nonneg by lia.
    rewrite lookup_take_lt by lia. apply lookup_fullPCount. lia.
  - unfold producingCount, fullStates, sts.
    cbn [fmap list_fmap].
    f_equal. apply length_filter_Forall2.
    constructor; [|constructor; [|constructor; [|constructor]]];
      rewrite Hslice, Hcell; split; congruence.
  - apply producingCount_range.
  - pose proof (producingCount_range (W q) (R q) (I q) sts (Z.of_nat d)).
    simpl in *. lia.
Qed.

Lemma build_result_consistent_witness :
  exists (r : Schedule) (row : list DayState),
    buildSchedule (integerParams 2 2 1 3) = Some r
    /\ states r !! 2%nat = Some row
    /\ row !! 4%nat = Some PRODUCING.
Proof.
  assert (exists r, buildSchedule (integerParams 2 2 1 3) = Some r
                    /\ days r = 7 /\ starts r = [0; 0; 2]
                    /\ params r = {| W := 2; R := 2; I := 1;
                                     totalPerforationDays := 3 |})
    as (r & Hr & Hd & Hs & Hq).
  { vm_compute. eexists. split_and!; reflexivity. }
  destruct (build_result_consistent (integerParams 2 2 1 3) r 2 4 Hr)
    as (_ & _ & row & n & Hrow & Hcell & _); [lia|rewrite Hd; lia|].
  exists r, row. split_and!; [exact Hr|exact Hrow|].
  rewrite Hcell, Hs, Hq. vm_compute. reflexivity.
Defined.



(** ** The solver: selection rule and fallback *)

(** C3.  Selection rule of the solver.  Over the candidates
    [(offset2, offset3)] of [[0, maxOffset]²], visited with [offset2]
    ascending in the outer loop and [offset3] ascending in the inner loop,
    [findBestOffsets] returns a candidate of the range together with its
    diagnostics, whose [score] and [isPerfect] are the stated functions of
    the two counters and the offsets.  If some candidate is perfect, the
    search returns at once with the first perfect candidate in visiting
    order, that is the lexicographically smallest; if none is, the search
    runs to its end and the result has the lowest score, every candidate
    visited before it having a strictly higher score. *)
Theorem findBestOffsets_selection (W R I horizon : Z) :
  1 <= W -> 2 <= R -> 1 <= I <= 5 -> 1 <= horizon < 2 ^ 32 ->
  let maxOffset := Z.min (horizon - 1) ((W + R + I) * 3 + 20) in
  let inRange (c : Z * Z) := 0 <= c.1 <= maxOffset /\ 0 <= c.2 <= maxOffset in
  let diagOf (c : Z * Z) := specDiagnostics W R I horizon c.1 c.2 in
  exists best,
    findBestOffsets W R I horizon 0 = Some best
    /\ inRange (startS2 best, startS3 best)
    /\ bestDiagnostics best = diagOf (startS2 best, startS3 best)
    /\ (forall c, inRange c ->
          scoreOffsets W R I horizon [0; c.1; c.2] = Some (diagOf c)
          /\ score (diagOf c)
             = threePDays (diagOf c) * 1000 + notTwoAfterPDays (diagOf c) * 10
               + Z.abs c.1 + Z.abs c.2
          /\ isPerfect (diagOf c)
             = (threePDays (diagOf c) =? 0) && (notTwoAfterPDays (diagOf c) =? 0))
    /\ ((exists c, inRange c /\ isPerfect (diagOf c) = true) ->
        searchOffsets W R I horizon 0 = Some (Return best)
        /\ isPerfect (bestDiagnostics best) = true
        /\ forall c, inRange c -> isPerfect (diagOf c) = true ->
             c = (startS2 best, startS3 best)
             \/ enumeratedBefore (startS2 best, startS3 best) c)
    /\ ((forall c, inRange c -> isPerfect (diagOf c) = false) ->
        searchOffsets W R I horizon 0 = Some (Continue (Some best))
        /\ forall c, inRange c ->
             score (bestDiagnostics best) <= score (diagOf c)
             /\ (enumeratedBefore c (startS2 best, startS3 best) ->
                 score (bestDiagnostics best) < score (diagOf c))).
Proof.
  intros HW HR HI Hh. cbv zeta.
  change (Z.min (horizon - 1) ((W + R + I) * 3 + 20))
    with (maxOffsetOf W R I horizon).
  assert (0 <= maxOffsetOf W R I horizon) as Hm by (unfold maxOffsetOf; lia).
  destruct (findBestOffsets_outcome W R I horizon Hh Hm)
    as (l1 & c0 & l2 & Hl & Hbest & Hcases).
  set (m := maxOffsetOf W R I horizon) in *.
  assert (c0 ∈ candidates m) as Hc0.
  { rewrite Hl. apply elem_of_app. right. apply elem_of_cons. by left. }
  exists (candidateAt W R I horizon c0). cbn [candidateAt startS2 startS3 bestDiagnostics].
  replace (c0.1, c0.2) with c0 by (by destruct c0).
  split; [exact Hbest|]. split; [by apply elem_of_candidates|].
  split; [reflexivity|]. split.
  { intros c Hc. split; [apply scoreOffsets_spec; lia|]. done. }
  split.
  - intros (c & Hc & Hp).
    assert (c ∈ candidates m) as Hin by (by apply elem_of_candidates).
    destruct Hcases as [(Hret & Hp0 & Hbefore)|(_ & Hnone & _)].
    + split; [exact Hret|]. split; [exact Hp0|]. intros c' Hc' Hp'.
      assert (c' ∈ candidates m) as Hin' by (by apply elem_of_candidates).
      destruct (candidates_split m l1 l2 c0 c' Hl Hin') as (Hb1 & _ & Hor).
      rewrite Hl in Hin'.
      apply elem_of_app in Hin' as [Hin'|[->|Hin']%elem_of_cons].
      * specialize (Hbefore _ Hin'). unfold candidateAt in Hbefore. cbn [bestDiagnostics] in Hbefore. congruence.
      * by left.
      * right. pose proof (candidates_sorted m) as Hs. rewrite Hl in Hs.
        apply StronglySorted_app_1_r, StronglySorted_cons in Hs as [Hall _].
        rewrite Forall_forall in Hall. by apply Hall.
    + specialize (Hnone _ Hin). unfold candidateAt in Hnone. cbn [bestDiagnostics] in Hnone.
      congruence.
  - intros Hnone.
    destruct Hcases as [(_ & Hp0 & _)|(Hcont & _ & H1 & H2)].
    { apply elem_of_candidates in Hc0. specialize (Hnone _ Hc0).
      unfold candidateAt in Hp0. cbn [bestDiagnostics] in Hp0. congruence. }
    split; [exact Hcont|]. intros c Hc.
    assert (c ∈ candidates m) as Hin by (by apply elem_of_candidates).
    + destruct (candidates_split m l1 l2 c0 c Hl Hin) as (Hb1 & _ & _).
      split.
      * rewrite Hl in Hin.
        apply elem_of_app in Hin as [Hin|[->|Hin]%elem_of_cons].
        -- specialize (H1 _ Hin). unfold candidateAt in H1. cbn [bestDiagnostics] in H1. lia.
        -- lia.
        -- specialize (H2 _ Hin). unfold candidateAt in H2. cbn [bestDiagnostics] in H2. lia.
      * intros Hb. specialize (H1 _ (Hb1 Hb)).
        unfold candidateAt in H1. cbn [bestDiagnostics] in H1. lia.
Qed.

Lemma findBestOffsets_selection_witness :
  (exists best,
     findBestOffsets 2 2 1 3 0 = Some best
     /\ searchOffsets 2 2 1 3 0 = Some (Return best)
     /\ isPerfect (bestDiagnostics best) = true
     /\ forall c, (0 <= c.1 <= 2 /\ 0 <= c.2 <= 2) ->
          isPerfect (specDiagnostics 2 2 1 3 c.1 c.2) = true ->
          c = (startS2 best, startS3 best)
          \/ enumeratedBefore (startS2 best, startS3 best) c)
  /\ (exists best,
        findBestOffsets 2 2 1 4 0 = Some best
        /\ searchOffsets 2 2 1 4 0 = Some (Continue (Some best))
        /\ forall c, (0 <= c.1 <= 3 /\ 0 <= c.2 <= 3) ->
             score (bestDiagnostics best)
             <= score (specDiagnostics 2 2 1 4 c.1 c.2)).
Proof.
  split.
  - destruct (findBestOffsets_selection 2 2 1 3)
      as (best & Hbest & _ & _ & _ & Hperfect & _); [lia..|].
    exists best. split; [exact Hbest|].
    apply Hperfect. exists (0, 1). split; [simpl; lia|].
    vm_compute. reflexivity.
  - destruct (findBestOffsets_selection 2 2 1 4)
      as (best & Hbest & _ & _ & _ & _ & Hnone); [lia..|].
    exists best. split; [exact Hbest|].
    assert (forall c : Z * Z, 0 <= c.1 <= 3 /\ 0 <= c.2 <= 3 ->
              isPerfect (specDiagnostics 2 2 1 4 c.1 c.2) = false) as Hall.
    { clear. intros [a b] [Ha Hb]. simpl in Ha, Hb.
      assert (a = 0 \/ a = 1 \/ a = 2 \/ a = 3) as Ha' by lia.
      assert (b = 0 \/ b = 1 \/ b = 2 \/ b = 3) as Hb' by lia.
      destruct Ha' as [->|[->|[->| ->]]]; destruct Hb' as [->|[->|[->| ->]]];
        vm_compute; reflexivity. }
    destruct (Hnone Hall) as [Hcont Hmin].
    split; [exact Hcont|]. intros c Hc. exact (proj1 (Hmin c Hc)).
Defined.

(** C10.  The fallback of the solver is dead code under the builder: the
    clamped horizon is positive, the range of offsets is not empty, the
    search ends with a candidate it has examined, and the offsets of the
    result lie in [[0, maxOffset]]. *)
Theorem solver_fallback_unreachable (p : Raw.t) :
  let q := clamped p in
  let horizon := totalPerforationDays q + (W q + R q + I q) * 6 + 20 in
  let maxOffset := Z.min (horizon - 1) ((W q + R q + I q) * 3 + 20) in
  let search := searchOffsets (W q) (R q) (I q) horizon 0 in
  1 <= horizon /\ 0 <= maxOffset /\ candidates maxOffset <> []
  /\ search <> Some (Continue None)
  /\ exists best,
       (search = Some (Return best) \/ search = Some (Continue (Some best)))
       /\ findBestOffsets (W q) (R q) (I q) horizon 0 = Some best
       /\ 0 <= startS2 best <= maxOffset /\ 0 <= startS3 best <= maxOffset
       /\ exists r, buildSchedule p = Some r
                    /\ starts r = [0; startS2 best; startS3 best].
Proof.
  cbv zeta.
  pose proof (horizon_range p) as Hh. pose proof (maxOffset_range p) as Hm.
  cbv zeta in Hm. set (q := clamped p) in *.
  change (totalPerforationDays q + (W q + R q + I q) * 6 + 20)
    with (horizonFor q).
  change (Z.min (horizonFor q - 1) ((W q + R q + I q) * 3 + 20))
    with (maxOffsetOf (W q) (R q) (I q) (horizonFor q)).
  set (m := maxOffsetOf (W q) (R q) (I q) (horizonFor q)) in *.
  destruct (findBestOffsets_outcome (W q) (R q) (I q) (horizonFor q))
    as (l1 & c & l2 & Hl & Hbest & Hcases); [lia|fold m; lia|].
  fold m in Hl.
  assert (c ∈ candidates m) as Hc.
  { rewrite Hl. apply elem_of_app. right. apply elem_of_cons. by left. }
  apply elem_of_candidates in Hc.
  assert (exists r, buildSchedule p = Some r
            /\ starts r = [0; c.1; c.2]) as Hbuild.
  { destruct (buildSchedule_assemble p) as (best & Hbest' & Hb).
    fold q in Hbest', Hb. rewrite Hbest in Hbest'. injection Hbest' as <-.
    eexists. split; [exact Hb|]. reflexivity. }
  split; [lia|]. split; [lia|]. split; [rewrite Hl; by destruct l1|].
  split.
  - destruct Hcases as [(-> & _)|(-> & _)]; discriminate.
  - exists (candidateAt (W q) (R q) (I q) (horizonFor q) c).
    cbn [candidateAt startS2 startS3].
    split; [destruct Hcases as [(-> & _)|(-> & _)]; auto|].
    split; [exact Hbest|]. split; [lia|]. split; [lia|]. exact Hbuild.
Qed.

(** ** The validator *)

Lemma pairKey_forbidden (a b : DayState) :
  pairKey a b ∈ invalidPairs <-> (a, b) ∈ forbiddenTransitions.
Proof.
  rewrite <- (bool_decide_spec (pairKey a b ∈ invalidPairs)).
  rewrite <- (bool_decide_spec ((a, b) ∈ forbiddenTransitions)).
  destruct a, b; vm_compute; tauto.
Qed.

Lemma elem_of_foldl_push {A B : Type} (g : B -> list A) (l : list B)
    (init : list A) (x : A) :
  x ∈ foldl (fun acc d => acc ++ g d) init l
  <-> x ∈ init \/ exists d, d ∈ l /\ x ∈ g d.
Proof.
  revert init. induction l as [|d l IH]; intros init; cbn [foldl].
  - split; [auto|]. intros [?|(d & Hd & _)]; [done|]. by apply elem_of_nil in Hd.
  - rewrite IH, elem_of_app. split.
    + intros [[?|?]|(d' & Hd' & Hx)]; [by left|right..].
      * exists d. split; [apply elem_of_cons; by left|done].
      * exists d'. split; [apply elem_of_cons; by right|done].
    + intros [?|(d' & [->|Hd']%elem_of_cons & Hx)]; [by left; left|..].
      * left. by right.
      * right. eauto.
Qed.

Lemma checkThree_elem (pc : list Z) (init : list Alert) (x : Alert) :
  x ∈ checkThree pc init -> isPattern x -> x ∈ init.
Proof.
  unfold checkThree. intros Hx Hp.
  rewrite (foldl_ext_in _ (fun acc d => acc ++
             (if pc !!! d =? 3 then [ThreeProducing d] else []))) in Hx.
  - apply elem_of_foldl_push in Hx as [?|(d & _ & Hd)]; [done|].
    destruct (_ =? _); [|by apply elem_of_nil in Hd].
    apply list_elem_of_singleton in Hd as ->. done.
  - intros acc d. destruct (_ =? _); [done|by rewrite app_nil_r].
Qed.

Lemma checkCoverage_elem (pc : list Z) (init : list Alert) (x : Alert) :
  x ∈ checkCoverage pc init -> isPattern x -> x ∈ init.
Proof.
  unfold checkCoverage. intros Hx Hp.
  destruct (negb _); [|done].
  rewrite (foldl_ext_in _ (fun acc d => acc ++
             ((if pc !!! d =? 1 then [OneProducing d] else [])
              ++ (if pc !!! d =? 0 then [ZeroProducing d] else [])))) in Hx.
  - apply elem_of_foldl_push in Hx as [?|(d & _ & Hd)]; [done|].
    apply elem_of_app in Hd as [Hd|Hd];
      (destruct (_ =? _); [|by apply elem_of_nil in Hd]);
      apply list_elem_of_singleton in Hd as ->; done.
  - intros acc d. destruct (_ =? 1), (_ =? 0);
      rewrite ?app_nil_r, <- ?app_assoc; done.
Qed.

(** The alerts of one row. *)
Lemma checkRow_elem (s : nat) (row : list DayState) (init : list Alert)
    (x : Alert) :
  x ∈ checkRow s row init
  <-> x ∈ init
      \/ exists d : nat,
           (1 <= d < length row)%nat
           /\ row !!! (d - 1)%nat <> EMPTY /\ row !!! d <> EMPTY
           /\ pairKey (row !!! (d - 1)%nat) (row !!! d) ∈ invalidPairs
           /\ x = InvalidPattern s d (pairKey (row !!! (d - 1)%nat) (row !!! d)).
Proof.
  unfold checkRow.
  rewrite (foldl_ext_in _ (fun acc d => acc ++
    (if bool_decide (row !!! (d - 1)%nat = EMPTY) || bool_decide (row !!! d = EMPTY)
     then []
     else if bool_decide (pairKey (row !!! (d - 1)%nat) (row !!! d) ∈ invalidPairs)
          then [InvalidPattern s d (pairKey (row !!! (d - 1)%nat) (row !!! d))]
          else []))).
  2:{ intros acc d. destruct (_ || _); [by rewrite app_nil_r|].
      destruct (bool_decide _); [done|by rewrite app_nil_r]. }
  rewrite elem_of_foldl_push. apply or_iff_compat_l. split.
  - intros (d & Hd & Hx). exists d. apply elem_of_seq in Hd.
    destruct (bool_decide (row !!! (d - 1)%nat = EMPTY)) eqn:Ha;
      [by apply elem_of_nil in Hx|].
    destruct (bool_decide (row !!! d = EMPTY)) eqn:Hb;
      [by apply elem_of_nil in Hx|].
    cbn [orb] in Hx.
    destruct (bool_decide (pairKey _ _ ∈ invalidPairs)) eqn:Hk;
      [|by apply elem_of_nil in Hx].
    apply list_elem_of_singleton in Hx.
    apply bool_decide_eq_false in Ha, Hb. apply bool_decide_eq_true in Hk.
    split_and!; [lia|lia|done..].
  - intros (d & Hd & Ha & Hb & Hk & ->). exists d. split.
    + apply elem_of_seq. lia.
    + rewrite (bool_decide_eq_false_2 _ Ha), (bool_decide_eq_false_2 _ Hb).
      cbn [orb]. rewrite (bool_decide_eq_true_2 _ Hk).
      by apply list_elem_of_singleton.
Qed.

Lemma foldl_push_bind {A B : Type} (g : B -> list A) (l : list B)
    (init : list A) :
  foldl (fun acc d => acc ++ g d) init l = init ++ (l ≫= g).
Proof.
  revert init. induction l as [|d l IH]; intros init; cbn [foldl].
  - by rewrite app_nil_r.
  - rewrite IH. cbn [mbind list_bind]. by rewrite app_assoc.
Qed.

Lemma checkRow_push (s : nat) (row : list DayState) (acc : list Alert) :
  checkRow s row acc = acc ++ checkRow s row [].
Proof.
  unfold checkRow.
  set (g := fun d : nat =>
    if bool_decide (row !!! (d - 1)%nat = EMPTY) || bool_decide (row !!! d = EMPTY)
    then []
    else if bool_decide (pairKey (row !!! (d - 1)%nat) (row !!! d) ∈ invalidPairs)
         then [InvalidPattern s d (pairKey (row !!! (d - 1)%nat) (row !!! d))]
         else []).
  assert (forall init l,
    foldl (fun alerts d =>
      let a := row !!! (d - 1)%nat in
      let b := row !!! d in
      if bool_decide (a = EMPTY) || bool_decide (b = EMPTY) then alerts
      else
        let key := pairKey a b in
        if bool_decide (key ∈ invalidPairs)
        then alerts ++ [InvalidPattern s d key] else alerts) init l
    = init ++ (l ≫= g)) as Hg.
  { intros init l. rewrite <- foldl_push_bind. apply foldl_ext_in.
    intros acc' d. unfold g. destruct (_ || _); [by rewrite app_nil_r|].
    cbv zeta. destruct (bool_decide _); [done|by rewrite app_nil_r]. }
  rewrite !Hg. done.
Qed.

Lemma checkPatterns_elem (states : list (list DayState)) (init : list Alert)
    (x : Alert) :
  x ∈ checkPatterns states init
  <-> x ∈ init
      \/ exists (s : nat) (row : list DayState),
           states !! s = Some row /\ x ∈ checkRow s row [].
Proof.
  unfold checkPatterns.
  rewrite (foldl_ext_in _
    (fun acc s => acc ++ checkRow s (states !!! s) []))
    by (intros; apply checkRow_push).
  rewrite elem_of_foldl_push. apply or_iff_compat_l. split.
  - intros (s & Hs & Hx). apply elem_of_seq in Hs.
    destruct (lookup_lt_is_Some_2 states s ltac:(lia)) as [row Hrow].
    exists s, row. split; [done|].
    by rewrite (list_lookup_total_correct _ _ _ Hrow) in Hx.
  - intros (s & row & Hrow & Hx). exists s. split.
    + apply elem_of_seq. apply lookup_lt_Some in Hrow. lia.
    + by rewrite (list_lookup_total_correct _ _ _ Hrow).
Qed.

(** The transition alerts of the validator. *)
Lemma validateAlerts_pattern (states : list (list DayState)) (pc : list Z)
    (s d : nat) (key : string) :
  InvalidPattern s d key ∈ validateAlerts states pc
  <-> exists row : list DayState,
        states !! s = Some row
        /\ (1 <= d < length row)%nat
        /\ row !!! (d - 1)%nat <> EMPTY /\ row !!! d <> EMPTY
        /\ pairKey (row !!! (d - 1)%nat) (row !!! d) ∈ invalidPairs
        /\ key = pairKey (row !!! (d - 1)%nat) (row !!! d).
Proof.
  unfold validateAlerts. rewrite checkPatterns_elem. split.
  - intros [Hx|(s' & row & Hrow & Hx)].
    + apply checkCoverage_elem in Hx; [|done].
      apply checkThree_elem in Hx; [|done]. by apply elem_of_nil in Hx.
    + apply checkRow_elem in Hx as [Hx|(d' & Hd & Ha & Hb & Hk & [= -> -> ->])];
        [by apply elem_of_nil in Hx|].
      exists row. done.
  - intros (row & Hrow & Hd & Ha & Hb & Hk & ->). right.
    exists s, row. split; [done|]. apply checkRow_elem. right.
    exists d. done.
Qed.

(** C6.  Transition check of the validator: for a unit [s] and adjacent days
    [d - 1] and [d] of its row, with states [a] and [b], an alert for [s]
    and [d - 1 -> d] is emitted exactly when neither state is [EMPTY] and
    [(a, b)] is one of the five forbidden transitions; a pair with an
    [EMPTY] state never produces one.  The alert carries the key [a-b] and
    is printed with the name of the unit and the two days. *)
Theorem validate_transition_alerts (names : list string)
    (states : list (list DayState)) (pCount : list Z)
    (s d : nat) (row : list DayState) (a b : DayState) :
  states !! s = Some row ->
  (1 <= d)%nat -> row !! (d - 1)%nat = Some a -> row !! d = Some b ->
  let emitted := exists key, InvalidPattern s d key ∈ validateAlerts states pCount in
  (a <> EMPTY -> b <> EMPTY -> (emitted <-> (a, b) ∈ forbiddenTransitions))
  /\ (a = EMPTY \/ b = EMPTY -> ~ emitted)
  /\ (emitted ->
      InvalidPattern s d (pairKey a b) ∈ validateAlerts states pCount
      /\ render names (InvalidPattern s d (pairKey a b))
           ∈ validateSchedule names states pCount).
Proof.
  intros Hrow Hd Ha Hb. cbv zeta.
  pose proof (list_lookup_total_correct _ _ _ Ha) as Ha'.
  pose proof (list_lookup_total_correct _ _ _ Hb) as Hb'.
  pose proof (lookup_lt_Some _ _ _ Hb) as Hlen.
  assert ((exists key, InvalidPattern s d key ∈ validateAlerts states pCount)
          <-> a <> EMPTY /\ b <> EMPTY /\ (a, b) ∈ forbiddenTransitions) as Hiff.
  { split.
    - intros (key & (row' & Hrow' & _ & Hna & Hnb & Hk & _)%validateAlerts_pattern).
      rewrite Hrow in Hrow'. injection Hrow' as <-.
      rewrite Ha' in Hna, Hk. rewrite Hb' in Hnb, Hk.
      split_and!; [done|done|by apply pairKey_forbidden].
    - intros (Hna & Hnb & Hf). exists (pairKey a b).
      apply validateAlerts_pattern. exists row. rewrite Ha', Hb'.
      split_and!; try done; try lia. by apply pairKey_forbidden. }
  split_and!.
  - intros Hna Hnb. rewrite Hiff. tauto.
  - intros Hempty Hem. apply Hiff in Hem. tauto.
  - intros Hem. apply Hiff in Hem as (Hna & Hnb & Hf).
    assert (InvalidPattern s d (pairKey a b) ∈ validateAlerts states pCount) as Hin.
    { apply validateAlerts_pattern. exists row. rewrite Ha', Hb'.
      split_and!; try done; try lia. by apply pairKey_forbidden. }
    split; [exact Hin|]. unfold validateSchedule.
    by apply list_elem_of_fmap_2.
Qed.

Lemma validate_transition_alerts_witness :
  (exists key, InvalidPattern 0 2 key
     ∈ validateAlerts [[STANDUP; INDUCTION; STANDUP; PRODUCING]] [0; 0; 0; 1])
  /\ "Patrón inválido en S1 día 1->2: I-S"%string
       ∈ validateSchedule ["S1"%string]
           [[STANDUP; INDUCTION; STANDUP; PRODUCING]] [0; 0; 0; 1].
Proof.
  destruct (validate_transition_alerts ["S1"%string]
              [[STANDUP; INDUCTION; STANDUP; PRODUCING]] [0; 0; 0; 1]
              0 2 [STANDUP; INDUCTION; STANDUP; PRODUCING] INDUCTION STANDUP)
    as (Hiff & _ & Hprint); [reflexivity|lia|reflexivity|reflexivity|].
  assert (exists key, InvalidPattern 0 2 key
     ∈ validateAlerts [[STANDUP; INDUCTION; STANDUP; PRODUCING]] [0; 0; 0; 1])
    as Hem.
  { apply Hiff; [done|done|].
    apply (bool_decide_unpack _). vm_compute. constructor. }
  split; [exact Hem|]. exact (proj2 (Hprint Hem)).
Defined.

(** ** The solver under the builder's horizon *)

Section NeverPerfect.
Variables W R I : Z.
Hypothesis HW : 1 <= W.
Hypothesis HR : 2 <= R.
Hypothesis HI : 1 <= I.

Local Abbreviation stateOf o t := (getSupervisorStateAtDay t o W R I).

Lemma first_unit_producing :
  stateOf 0 (firstProducingDayOf W R I) = PRODUCING.
Proof using All.
  unfold firstProducingDayOf. destruct (Z.ltb_spec I W).
  - apply state_first_P; lia.
  - apply state_second_P; lia.
Qed.

Lemma first_unit_winddown :
  stateOf 0 (firstWinddownAfter W R I) = WINDDOWN.
Proof using All.
  unfold firstWinddownAfter. destruct (Z.ltb_spec I W).
  - pose proof (state_first_B W R I 0 HW HR HI) as HB.
    rewrite <- HB. f_equal. lia.
  - pose proof (state_second_B W R I 0 HW HR HI) as HB.
    rewrite <- HB. f_equal. lia.
Qed.

(** A unit that starts later is not yet producing on that day. *)
Lemma later_unit_not_producing (o : Z) :
  0 < o -> stateOf o (firstProducingDayOf W R I) <> PRODUCING.
Proof using All.
  intros Ho. apply state_first_cycle_not_P; try lia.
  unfold firstProducingDayOf. destruct (Z.ltb_spec I W); lia.
Qed.

Lemma producingCount_three (a b c t : Z) :
  producingCount W R I [a; b; c] t
  = (if decide (stateOf a t = PRODUCING) then 1 else 0)
    + (if decide (stateOf b t = PRODUCING) then 1 else 0)
    + (if decide (stateOf c t = PRODUCING) then 1 else 0).
Proof.
  unfold producingCount. rewrite !filter_cons, filter_nil.
  repeat destruct (decide _); simpl; lia.
Qed.

(** No candidate of the solver is perfect once the horizon covers the
    first [B] day after the first producing day of unit 1. *)
Lemma specDiagnostics_not_perfect (horizon o2 o3 : Z) :
  firstWinddownAfter W R I < horizon -> 0 <= o2 -> 0 <= o3 ->
  isPerfect (specDiagnostics W R I horizon o2 o3) = false.
Proof using All.
  intros Hh Ho2 Ho3.
  destruct (isPerfect _) eqn:Hp; [exfalso|done].
  unfold specDiagnostics in Hp. cbn [isPerfect] in Hp.
  apply andb_true_iff in Hp as [_ Hnot]. apply Z.eqb_eq in Hnot.
  set (pc := fullPCount W R I [0; o2; o3] horizon) in *.
  set (fp := findIndex (fun x => 0 <? x) pc) in *.
  set (d0 := firstProducingDayOf W R I).
  set (dB := firstWinddownAfter W R I) in *.
  assert (0 <= d0 < dB) as Hd0.
  { unfold d0, dB, firstProducingDayOf, firstWinddownAfter.
    destruct (Z.ltb_spec I W); lia. }
  assert (forall d, 0 <= d < horizon ->
            pc !!! Z.to_nat d = producingCount W R I [0; o2; o3] d) as Hpc.
  { intros d Hd. apply list_lookup_total_correct. unfold pc.
    rewrite lookup_fullPCount by lia. by rewrite Z2Nat.id by lia. }
  assert (forall d, 0 <= d < horizon -> fp <> -1 -> fp <= d ->
            producingCount W R I [0; o2; o3] d = 2) as Htwo.
  { intros d Hd Hfp Hle. rewrite <- Hpc by done.
    destruct (decide (pc !!! Z.to_nat d = 2)) as [|Hne]; [done|exfalso].
    apply (length_filter_zero _ _ (Z.to_nat d) Hnot).
    - apply elem_of_upto. lia.
    - rewrite Z2Nat.id by lia. done. }
  pose proof first_unit_producing as HP. fold d0 in HP.
  pose proof first_unit_winddown as HB. fold dB in HB.
  assert (0 <= fp <= d0) as Hfp.
  { pose proof (findIndex_from_bounds (fun x => 0 <? x) pc 0 (Z.to_nat d0)
                  (producingCount W R I [0; o2; o3] d0)) as Hb.
    rewrite Z2Nat.id in Hb by lia. apply Hb.
    - unfold pc. rewrite lookup_fullPCount by lia. by rewrite Z2Nat.id by lia.
    - apply Z.ltb_lt. rewrite producingCount_three.
      rewrite decide_True by done. repeat destruct (decide _); lia. }
  pose proof (Htwo d0 ltac:(lia) ltac:(lia) ltac:(lia)) as H0.
  pose proof (Htwo dB ltac:(lia) ltac:(lia) ltac:(lia)) as H1.
  rewrite producingCount_three in H0, H1.
  rewrite decide_True in H0 by done.
  rewrite (decide_False (P := stateOf 0 dB = PRODUCING)) in H1 by congruence.
  destruct (decide (o2 = 0)) as [->|Hn2].
  { rewrite (decide_False (P := stateOf 0 dB = PRODUCING)) in H1 by congruence.
    destruct (decide _); lia. }
  destruct (decide (o3 = 0)) as [->|Hn3].
  { rewrite (decide_False (P := stateOf 0 dB = PRODUCING)) in H1 by congruence.
    destruct (decide _); lia. }
  rewrite (decide_False (P := stateOf o2 d0 = PRODUCING)) in H0
    by (apply later_unit_not_producing; lia).
  rewrite (decide_False (P := stateOf o3 d0 = PRODUCING)) in H0
    by (apply later_unit_not_producing; lia).
  lia.
Qed.
End NeverPerfect.

(** The solver never reports a perfect schedule to the builder: on its first
    producing day unit 1 is alone unless another unit starts with it on day
    0, and then both wind down together. *)
Lemma buildSchedule_never_perfect (p : Raw.t) (r : Schedule) :
  buildSchedule p = Some r -> isPerfect (diagnostics r) = false.
Proof.
  intros Hbuild.
  destruct (buildSchedule_assemble p) as (best & Hbest & Hb).
  rewrite Hb in Hbuild. injection Hbuild as <-.
  pose proof (clamped_range p) as (HW & HR & HI & HT).
  pose proof (horizon_range p) as Hh. pose proof (maxOffset_range p) as Hm.
  cbv zeta in Hm. set (q := clamped p) in *.
  destruct (findBestOffsets_outcome (W q) (R q) (I q) (horizonFor q))
    as (l1 & c & l2 & Hl & Hbest' & _); [lia|lia|].
  rewrite Hbest' in Hbest. injection Hbest as <-.
  assert (c ∈ candidates (maxOffsetOf (W q) (R q) (I q) (horizonFor q))) as Hc.
  { rewrite Hl. apply elem_of_app. right. apply elem_of_cons. by left. }
  apply elem_of_candidates in Hc.
  cbn [assemble diagnostics candidateAt bestDiagnostics].
  apply (specDiagnostics_not_perfect (W q) (R q) (I q)); try lia.
  unfold firstWinddownAfter, horizonFor, horizonOf in *.
  destruct (Z.ltb_spec (I q) (W q)); lia.
Qed.

(** * Further properties of the code *)

(** ** The timeline of a unit *)

Lemma forbiddenb_spec (a b : DayState) :
  (a, b) ∈ forbiddenTransitions <-> forbiddenb a b = true.
Proof.
  rewrite <- (bool_decide_spec ((a, b) ∈ forbiddenTransitions)).
  destruct a, b; vm_compute; intuition discriminate.
Qed.

Lemma mod_succ (x c : Z) :
  0 < c -> (x + 1) mod c = if x mod c =? c - 1 then 0 else x mod c + 1.
Proof.
  intros Hc. pose proof (Z.mod_pos_bound x c Hc) as Hb.
  rewrite Z.add_mod by lia.
  destruct (Z.eqb_spec (x mod c) (c - 1)) as [He|Hne].
  - destruct (Z.eq_dec c 1) as [->|Hc1].
    + rewrite !Z.mod_1_r. reflexivity.
    + rewrite (Z.mod_small 1) by lia. rewrite He.
      replace (c - 1 + 1) with c by lia. apply Z.mod_same. lia.
  - destruct (Z.eq_dec c 1) as [->|Hc1]; [lia|].
    rewrite (Z.mod_small 1) by lia. apply Z.mod_small. lia.
Qed.

Section Timeline.
Variables W R I startDay : Z.
Hypothesis HW : 1 <= W.
Hypothesis HR : 2 <= R.
Hypothesis HI : 1 <= I.

Let firstP := Z.max 0 (W - I).
Let secondS := startDay + 1 + I + firstP + 1 + (R - 2).
Local Abbreviation stateAt t := (getSupervisorStateAtDay t startDay W R I).

(** The first cycle as a chain of comparisons. *)
Lemma state_first_cycle t :
  t <= secondS ->
  stateAt t =
    if t <? startDay then EMPTY
    else if t =? startDay then STANDUP
    else if t <? startDay + 1 + I then INDUCTION
    else if t <? startDay + 1 + I + firstP then PRODUCING
    else if t =? startDay + 1 + I + firstP then WINDDOWN
    else if t <? secondS then REST
    else STANDUP.
Proof using All.
  assert (0 <= firstP) by (unfold firstP; lia).
  unfold secondS. intros Ht. unfold getSupervisorStateAtDay. fold firstP.
  rewrite (Z.max_r 0 (R - 2)) by lia.
  zcases.
Qed.

Lemma state_not_empty t : startDay <= t -> stateAt t <> EMPTY.
Proof using All.
  intros Ht. destruct (Z.le_gt_cases t secondS) as [Hle|Hgt].
  - rewrite state_first_cycle by done. zcases; discriminate.
  - unfold secondS, firstP in Hgt. rewrite state_cyclic by lia. cbv zeta.
    zcases; discriminate.
Qed.

(** A forbidden transition between consecutive days happens exactly on a
    [B] day under [R = 2], where no rest day separates [B] from [S]. *)
Lemma state_transition t :
  forbiddenb (stateAt t) (stateAt (t + 1)) = true
  <-> R = 2 /\ stateAt t = WINDDOWN.
Proof using All.
  assert (0 <= firstP) by (unfold firstP; lia).
  destruct (Z.lt_trichotomy t secondS) as [Hlt|[->|Hgt]].
  - rewrite (state_first_cycle t), (state_first_cycle (t + 1)) by lia.
    unfold secondS in *.
    zcases; simpl; split; try discriminate; try (intros [? ?]; first [discriminate|lia]);
      intros _; split; first [reflexivity|lia].
  - unfold secondS, firstP. rewrite state_second_S by done.
    rewrite (state_second_P W R I startDay HW HR HI) by lia.
    simpl. split; [discriminate|]. intros [_ ?]. discriminate.
  - unfold secondS, firstP in Hgt.
    rewrite (state_cyclic W R I startDay HW HR HI t) by lia.
    rewrite (state_cyclic W R I startDay HW HR HI (t + 1)) by lia.
    cbv zeta. fold firstP secondS.
    replace (t + 1 - (secondS + 1)) with (t - (secondS + 1) + 1) by lia.
    rewrite mod_succ by lia.
    set (pos := (t - (secondS + 1)) mod (W + R)).
    assert (0 <= pos < W + R) by (apply Z.mod_pos_bound; lia).
    destruct (Z.eqb_spec pos (W + R - 1));
    zcases; simpl; split; try discriminate; try (intros [? ?]; first [discriminate|lia]);
      intros _; split; first [reflexivity|lia].
Qed.



End Timeline.

(** X1.  A unit has no state before its start day and always has one from
    it on: the generator returns [EMPTY] exactly for the days before
    [startDay], so the guard on [cycleLen] never fires on clamped
    parameters. *)
Theorem generator_empty_iff_before_start (W R I startDay t : Z) :
  1 <= W -> 2 <= R -> 1 <= I ->
  getSupervisorStateAtDay t startDay W R I = EMPTY <-> t < startDay.
Proof.
  intros HW HR HI. split.
  - intros He. destruct (Z.lt_ge_cases t startDay) as [|Hge]; [done|].
    exfalso. revert He. by apply state_not_empty.
  - by apply state_before.
Qed.

Lemma generator_empty_iff_before_start_witness :
  getSupervisorStateAtDay 4 5 14 7 5 = EMPTY
  /\ getSupervisorStateAtDay 5 5 14 7 5 <> EMPTY.
Proof.
  split.
  - apply generator_empty_iff_before_start; lia.
  - intros He. apply generator_empty_iff_before_start in He; lia.
Defined.





(** ** The shape of the result *)

Lemma lookup_assemble_row (q : Params) (best : Best) (s d : nat)
    (row : list DayState) (x : DayState) :
  states (assemble q best) !! s = Some row -> row !! d = Some x ->
  exists o, [0; startS2 best; startS3 best] !! s = Some o
    /\ x = getSupervisorStateAtDay (Z.of_nat d) o (W q) (R q) (I q)
    /\ Z.of_nat d < horizonFor q.
Proof.
  unfold assemble. cbn [states]. intros Hrow Hx.
  apply list_lookup_fmap_Some in Hrow as (full & -> & Hfull).
  apply lookup_fullStates in Hfull as (o & Ho & ->).
  exists o. split; [done|].
  assert (((fun d0 => getSupervisorStateAtDay (Z.of_nat d0) o (W q) (R q) (I q))
             <$> upto (horizonFor q)) !! d = Some x) as Hd.
  { unfold slice0 in Hx. destruct (0 <=? _);
      apply lookup_take_Some in Hx as [Hx _]; exact Hx. }
  apply list_lookup_fmap_Some in Hd as (d' & -> & Hd').
  unfold upto in Hd'. apply lookup_seq in Hd' as [-> Hlt]. split; [done|lia].
Qed.

Lemma lookup_assemble_pCount (q : Params) (best : Best) (d : nat) (n : Z) :
  pCount (assemble q best) !! d = Some n ->
  n = producingCount (W q) (R q) (I q) [0; startS2 best; startS3 best]
        (Z.of_nat d)
  /\ Z.of_nat d < horizonFor q.
Proof.
  unfold assemble. cbn [pCount]. intros Hn.
  assert (fullPCount (W q) (R q) (I q) [0; startS2 best; startS3 best]
            (horizonFor q) !! d = Some n) as Hd.
  { unfold slice0 in Hn. destruct (0 <=? _);
      apply lookup_take_Some in Hn as [Hn _]; exact Hn. }
  unfold fullPCount in Hd.
  apply list_lookup_fmap_Some in Hd as (d' & -> & Hd').
  unfold upto in Hd'. apply lookup_seq in Hd' as [-> Hlt]. split; [done|lia].
Qed.

Lemma assemble_lengths (p : Raw.t) (best : Best) :
  let r := assemble (clamped p) best in
  length (pCount r) = Z.to_nat (days r)
  /\ Forall (fun row => length row = Z.to_nat (days r)) (states r)
  /\ length (states r) = 3%nat.
Proof.
  cbv zeta. pose proof (assemble_days p best) as Hdays.
  set (q := clamped p) in *. unfold assemble in *.
  cbn [days pCount states] in *.
  set (dd := trimLoop _ _ _ _ _ + 1) in *.
  split_and!.
  - rewrite slice0_nonneg by lia. rewrite length_take, length_fullPCount. lia.
  - apply Forall_forall. intros row Hrow.
    apply list_elem_of_fmap in Hrow as (full & -> & Hfull).
    apply list_elem_of_lookup in Hfull as [i Hfull].
    apply length_fullStates_row in Hfull.
    rewrite slice0_nonneg by lia. rewrite length_take. lia.
  - reflexivity.
Qed.

(** ** The solver's offsets are ordered *)

Lemma producingCount_swap (W R I a b t : Z) :
  producingCount W R I [0; a; b] t = producingCount W R I [0; b; a] t.
Proof. rewrite !producingCount_three. lia. Qed.

(** Exchanging units 2 and 3 does not change the diagnostics. *)
Lemma specDiagnostics_swap (W R I horizon a b : Z) :
  specDiagnostics W R I horizon a b = specDiagnostics W R I horizon b a.
Proof.
  unfold specDiagnostics.
  assert (fullPCount W R I [0; a; b] horizon
          = fullPCount W R I [0; b; a] horizon) as ->.
  { unfold fullPCount. apply list_fmap_ext. intros _ d _.
    apply producingCount_swap. }
  cbv zeta. f_equal. lia.
Qed.

Lemma findBestOffsets_ordered (W R I horizon : Z) :
  1 <= horizon < 2 ^ 32 -> 0 <= maxOffsetOf W R I horizon ->
  exists best,
    findBestOffsets W R I horizon 0 = Some best
    /\ bestDiagnostics best
       = specDiagnostics W R I horizon (startS2 best) (startS3 best)
    /\ 0 <= startS2 best /\ startS2 best <= startS3 best
    /\ startS3 best <= maxOffsetOf W R I horizon.
Proof.
  intros Hh Hm.
  destruct (findBestOffsets_outcome W R I horizon Hh Hm)
    as (l1 & [a b] & l2 & Hl & Hbest & Hcases).
  set (m := maxOffsetOf W R I horizon) in *.
  assert ((a, b) ∈ candidates m) as Hc.
  { rewrite Hl. apply elem_of_app. right. apply elem_of_cons. by left. }
  apply elem_of_candidates in Hc. cbn [fst snd] in Hc.
  exists (candidateAt W R I horizon (a, b)).
  cbn [candidateAt startS2 startS3 bestDiagnostics fst snd].
  split_and!; [done|done|lia| |lia].
  destruct (Z.le_gt_cases a b) as [|Hgt]; [done|exfalso].
  assert ((b, a) ∈ candidates m) as Hin
    by (apply elem_of_candidates; cbn [fst snd]; lia).
  destruct (candidates_split m l1 l2 (a, b) (b, a) Hl Hin) as (Hb1 & _ & _).
  assert ((b, a) ∈ l1) as Hl1.
  { apply Hb1. left. cbn [fst]. lia. }
  destruct Hcases as [(_ & Hp & Hnp)|(_ & _ & H1 & _)].
  - specialize (Hnp _ Hl1). unfold candidateAt in Hp, Hnp.
    cbn [bestDiagnostics fst snd] in Hp, Hnp.
    rewrite specDiagnostics_swap in Hnp. congruence.
  - specialize (H1 _ Hl1). unfold candidateAt in H1.
    cbn [bestDiagnostics fst snd] in H1.
    rewrite (specDiagnostics_swap W R I horizon b a) in H1. lia.
Qed.

(** X4.  The solver never starts unit 2 after unit 3: a pair and its mirror
    image have the same diagnostics and the same score, and the pair with
    the smaller first offset is visited first. *)
Theorem solver_offsets_ordered (W R I horizon : Z) :
  1 <= W -> 2 <= R -> 1 <= I <= 5 -> 1 <= horizon < 2 ^ 32 ->
  (forall a b, specDiagnostics W R I horizon a b
               = specDiagnostics W R I horizon b a)
  /\ exists best,
       findBestOffsets W R I horizon 0 = Some best
       /\ 0 <= startS2 best /\ startS2 best <= startS3 best.
Proof.
  intros HW HR HI Hh. split; [intros; apply specDiagnostics_swap|].
  destruct (findBestOffsets_ordered W R I horizon) as (best & Hb & _ & H0 & H1 & _);
    [done|unfold maxOffsetOf; lia|].
  exists best. done.
Qed.

Lemma solver_offsets_ordered_witness :
  exists best, findBestOffsets 2 2 1 4 0 = Some best
               /\ startS2 best <= startS3 best.
Proof.
  destruct (solver_offsets_ordered 2 2 1 4) as (_ & best & Hb & _ & Hle);
    [lia..|].
  exists best. split; [exact Hb | exact Hle].
Defined.

Lemma buildSchedule_ordered (p : Raw.t) :
  let q := clamped p in
  exists best,
    buildSchedule p = Some (assemble q best)
    /\ bestDiagnostics best
       = specDiagnostics (W q) (R q) (I q) (horizonFor q)
           (startS2 best) (startS3 best)
    /\ 0 <= startS2 best /\ startS2 best <= startS3 best
    /\ startS3 best <= maxOffsetOf (W q) (R q) (I q) (horizonFor q).
Proof.
  cbv zeta. destruct (buildSchedule_assemble p) as (best & Hbest & Hb).
  pose proof (horizon_range p) as Hh. pose proof (maxOffset_range p) as Hm.
  cbv zeta in Hm.
  destruct (findBestOffsets_ordered (W (clamped p)) (R (clamped p))
              (I (clamped p)) (horizonFor (clamped p)))
    as (best' & Hbest' & Hrest); [lia|lia|].
  rewrite Hbest' in Hbest. injection Hbest as ->.
  exists best. done.
Qed.

(** X5.  The shape of the result: three named rows of [days] cells each, a
    count vector of [days] entries, [1 <= days <= horizon], and start days
    [0 <= starts[1] <= starts[2] <= maxOffset] after unit 1 on day 0. *)
Theorem build_result_shape (p : Raw.t) :
  let q := clamped p in
  let horizon := totalPerforationDays q + (W q + R q + I q) * 6 + 20 in
  let maxOffset := Z.min (horizon - 1) ((W q + R q + I q) * 3 + 20) in
  exists r offset2 offset3,
    buildSchedule p = Some r
    /\ names r = ["S1"; "S2"; "S3"]%string
    /\ starts r = [0; offset2; offset3]
    /\ 0 <= offset2 /\ offset2 <= offset3 /\ offset3 <= maxOffset
    /\ 1 <= days r <= horizon
    /\ length (states r) = 3%nat
    /\ Forall (fun row => length row = Z.to_nat (days r)) (states r)
    /\ length (pCount r) = Z.to_nat (days r).
Proof.
  cbv zeta.
  destruct (buildSchedule_ordered p) as (best & Hb & _ & H0 & H1 & H2).
  pose proof (assemble_days p best) as Hdays.
  pose proof (assemble_lengths p best) as (Hpc & Hrows & Hlen).
  exists (assemble (clamped p) best), (startS2 best), (startS3 best).
  unfold maxOffsetOf, horizonFor, horizonOf in *.
  split_and!; try done; try lia.
Qed.

(** ** The days with two units producing in the result *)

Lemma countTwo_take_le (pc : list Z) (n : nat) :
  countTwo (take n pc) <= countTwo pc.
Proof.
  rewrite <- (take_drop n pc) at 2. rewrite countTwo_app.
  pose proof (countTwo_nonneg (drop n pc)). lia.
Qed.

(** The trimmed count vector of the builder, by cases on the target. *)
Lemma assemble_countTwo (p : Raw.t) (best : Best) :
  let q := clamped p in
  let r := assemble q best in
  let counts := fullPCount (W q) (R q) (I q) [0; startS2 best; startS3 best]
                  (horizonFor q) in
  (totalPerforationDays q <= countTwo counts
   /\ countTwo (pCount r) = totalPerforationDays q
   /\ pCount r !! Z.to_nat (days r - 1) = Some 2)
  \/ (countTwo counts < totalPerforationDays q
      /\ pCount r = counts /\ days r = horizonFor q).
Proof.
  cbv zeta. pose proof (horizon_range p) as Hh.
  pose proof (clamped_range p) as (_ & _ & _ & HT).
  set (q := clamped p) in *. unfold assemble. cbn [pCount days].
  set (counts := fullPCount _ _ _ _ _).
  pose proof (length_fullPCount (W q) (R q) (I q)
                [0; startS2 best; startS3 best] (horizonFor q)) as Hlen.
  fold counts in Hlen.
  pose proof (trimLoop_spec counts (totalPerforationDays q)
                (Z.to_nat (horizonFor q)) 0 (horizonFor q - 1)) as Htrim.
  cbv zeta in Htrim. rewrite take_0 in Htrim.
  change (countTwo []) with 0 in Htrim.
  change (seq 0 (Z.to_nat (horizonFor q))) with (upto (horizonFor q)) in Htrim.
  destruct (Htrim ltac:(lia) ltac:(lia))
    as [(d & Hd & -> & Hreach & Hmin)|[-> Hnone]].
  - left. unfold reached in Hreach.
    pose proof (countTwo_take_S counts d ltac:(lia)) as HS.
    assert (countTwo (take d counts) < totalPerforationDays q) as Hbefore.
    { destruct d as [|d']; [rewrite take_0; change (countTwo []) with 0; lia|].
      specialize (Hmin d' ltac:(lia)). unfold reached in Hmin. lia. }
    rewrite slice0_nonneg by lia.
    replace (Z.to_nat (Z.of_nat d + 1)) with (S d) by lia.
    replace (Z.to_nat (Z.of_nat d + 1 - 1)) with d by lia.
    pose proof (countTwo_take_le counts (S d)).
    destruct (Z.eqb_spec (counts !!! d) 2) as [He|Hne]; [|lia].
    split_and!; [lia|lia|].
    rewrite lookup_take_lt by lia.
    destruct (lookup_lt_is_Some_2 counts d ltac:(lia)) as [x Hx].
    rewrite (list_lookup_total_correct _ _ _ Hx) in He. by rewrite Hx, He.
  - right.
    assert (countTwo counts < totalPerforationDays q) as Hlt.
    { specialize (Hnone (Z.to_nat (horizonFor q) - 1)%nat ltac:(lia)).
      unfold reached in Hnone. rewrite take_ge in Hnone by lia. lia. }
    split; [done|]. split; [|lia].
    rewrite slice0_nonneg by lia. apply take_ge. lia.
Qed.

(** X6.  The result never holds more than the target number of days with
    exactly two units producing.  It holds exactly that many, and ends on
    such a day, when the horizon contains enough of them; otherwise it is
    the whole horizon and holds fewer. *)
Theorem build_two_producing_days (p : Raw.t) :
  let q := clamped p in
  let horizon := totalPerforationDays q + (W q + R q + I q) * 6 + 20 in
  exists r,
    buildSchedule p = Some r /\
    let counts := fullPCount (W q) (R q) (I q) (starts r) horizon in
    countTwo (pCount r) <= totalPerforationDays q
    /\ (countTwo (pCount r) = totalPerforationDays q
        <-> totalPerforationDays q <= countTwo counts)
    /\ (totalPerforationDays q <= countTwo counts ->
        pCount r !! Z.to_nat (days r - 1) = Some 2)
    /\ (countTwo counts < totalPerforationDays q ->
        days r = horizon /\ pCount r = counts).
Proof.
  cbv zeta. destruct (buildSchedule_assemble p) as (best & _ & Hb).
  exists (assemble (clamped p) best). split; [exact Hb|].
  change (totalPerforationDays (clamped p)
          + (W (clamped p) + R (clamped p) + I (clamped p)) * 6 + 20)
    with (horizonFor (clamped p)).
  change (starts (assemble (clamped p) best))
    with [0; startS2 best; startS3 best].
  destruct (assemble_countTwo p best) as [(H1 & H2 & H3)|(H1 & H2 & H3)].
  - split_and!; [lia|tauto|done|lia].
  - split_and!; [rewrite H2; lia|rewrite H2; lia|lia|done].
Qed.

Lemma build_two_producing_days_witness :
  (exists r, buildSchedule (integerParams 2 2 1 3) = Some r
             /\ countTwo (pCount r) = 3)
  /\ (exists r, buildSchedule (integerParams 1 2 1 30) = Some r
                /\ countTwo (pCount r) <= 30 /\ days r = 74).
Proof.
  split.
  - destruct (build_two_producing_days (integerParams 2 2 1 3))
      as (r & Hr & _ & Hiff & _).
    exists r. split; [exact Hr|].
    assert (starts <$> buildSchedule (integerParams 2 2 1 3) = Some [0; 0; 2])
      as Hs by (vm_compute; reflexivity).
    rewrite Hr in Hs. injection Hs as Hs.
    apply Hiff. rewrite Hs. apply Z.leb_le. vm_compute. reflexivity.
  - destruct (build_two_producing_days (integerParams 1 2 1 30))
      as (r & Hr & Hle & _ & _ & Hunder).
    exists r. split; [exact Hr|]. split; [exact Hle|].
    assert (starts <$> buildSchedule (integerParams 1 2 1 30) = Some [0; 0; 1])
      as Hs by (vm_compute; reflexivity).
    rewrite Hr in Hs. injection Hs as Hs.
    apply Hunder. rewrite Hs. apply Z.ltb_lt. vm_compute. reflexivity.
Defined.

(** ** The diagnostics attached to the result *)

Lemma findIndex_from_first {A : Type} (p : A -> bool) (l : list A) (i : Z)
    (d : nat) (x : A) :
  l !! d = Some x -> p x = true ->
  (forall d' y, (d' < d)%nat -> l !! d' = Some y -> p y = false) ->
  findIndex_from p l i = i + Z.of_nat d.
Proof.
  revert i d. induction l as [|y l IH]; intros i d Hd Hp Hmin; [done|].
  destruct d as [|d]; simpl in Hd.
  - injection Hd as ->. simpl. rewrite Hp. lia.
  - simpl. rewrite (Hmin 0%nat y ltac:(lia) eq_refl).
    rewrite (IH (i + 1) d Hd Hp); [lia|].
    intros d' z Hlt Hz. apply (Hmin (S d') z); [lia|done].
Qed.

Section FirstProducingDay.
Variables W R I : Z.
Hypothesis HW : 1 <= W.
Hypothesis HR : 2 <= R.
Hypothesis HI : 1 <= I.

(** No unit started on day 0 or later produces before the first producing
    day of unit 1. *)
Lemma no_unit_producing_before (o t : Z) :
  0 <= o -> t < firstProducingDayOf W R I ->
  getSupervisorStateAtDay t o W R I <> PRODUCING.
Proof using All.
  intros Ho Ht. apply state_first_cycle_not_P; try lia.
  unfold firstProducingDayOf in Ht. destruct (Z.ltb_spec I W); lia.
Qed.

Lemma producingCount_before (a b t : Z) :
  0 <= a -> 0 <= b -> t < firstProducingDayOf W R I ->
  producingCount W R I [0; a; b] t = 0.
Proof using All.
  intros Ha Hb Ht. rewrite producingCount_three.
  rewrite !decide_False by (apply no_unit_producing_before; lia). lia.
Qed.

Lemma producingCount_first (a b : Z) :
  1 <= producingCount W R I [0; a; b] (firstProducingDayOf W R I).
Proof using All.
  rewrite producingCount_three.
  rewrite decide_True by (by apply first_unit_producing).
  repeat destruct (decide _); lia.
Qed.

Lemma firstProducingDayOf_range :
  0 <= firstProducingDayOf W R I < firstWinddownAfter W R I.
Proof using All.
  unfold firstProducingDayOf, firstWinddownAfter.
  destruct (Z.ltb_spec I W); lia.
Qed.

(** The first producing day seen by the solver is that of unit 1. *)
Lemma specDiagnostics_firstPDay (horizon a b : Z) :
  firstProducingDayOf W R I < horizon -> 0 <= a -> 0 <= b ->
  firstPDay (specDiagnostics W R I horizon a b) = firstProducingDayOf W R I.
Proof using All.
  intros Hh Ha Hb. unfold specDiagnostics. cbn [firstPDay].
  pose proof firstProducingDayOf_range as Hr.
  set (d0 := firstProducingDayOf W R I) in *.
  unfold findIndex.
  rewrite (findIndex_from_first _ _ 0 (Z.to_nat d0)
             (producingCount W R I [0; a; b] d0)).
  - lia.
  - rewrite lookup_fullPCount by lia. by rewrite Z2Nat.id by lia.
  - apply Z.ltb_lt. pose proof (producingCount_first a b). fold d0 in H. lia.
  - intros d' y Hd' Hy. rewrite lookup_fullPCount in Hy by lia.
    injection Hy as <-. apply Z.ltb_ge.
    rewrite producingCount_before by (fold d0; lia). lia.
Qed.

(** Some day from the first producing day on does not have exactly two
    units producing. *)
Lemma specDiagnostics_notTwo (horizon a b : Z) :
  firstWinddownAfter W R I < horizon -> 0 <= a -> 0 <= b ->
  1 <= notTwoAfterPDays (specDiagnostics W R I horizon a b).
Proof using All.
  intros Hh Ha Hb.
  pose proof firstProducingDayOf_range as Hr.
  pose proof (specDiagnostics_firstPDay horizon a b ltac:(lia) Ha Hb) as Hfp.
  unfold specDiagnostics in *. cbn [isPerfect notTwoAfterPDays firstPDay] in *.
  set (pc := fullPCount W R I [0; a; b] horizon) in *.
  rewrite Hfp in *.
  set (d0 := firstProducingDayOf W R I) in *.
  set (dB := firstWinddownAfter W R I) in *.
  match goal with |- 1 <= Z.of_nat (length ?l) =>
    destruct l as [|x l'] eqn:Hl; [exfalso|simpl; lia] end.
  assert (forall d, d0 <= d < horizon ->
            producingCount W R I [0; a; b] d = 2) as Htwo.
  { intros d Hd.
    destruct (decide (producingCount W R I [0; a; b] d = 2)) as [|Hne]; [done|].
    exfalso.
    assert (Z.to_nat d ∈ filter
      (fun d1 : nat => d0 <> -1 /\ d0 <= Z.of_nat d1 /\ pc !!! d1 <> 2)
      (upto horizon)) as Hin.
    { apply list_elem_of_filter. split.
      - split_and!; [lia|lia|].
        unfold pc. erewrite list_lookup_total_correct
          by (apply lookup_fullPCount; lia).
        by rewrite Z2Nat.id by lia.
      - apply elem_of_upto. lia. }
    rewrite Hl in Hin. by apply elem_of_nil in Hin. }
  pose proof (Htwo d0 ltac:(lia)) as H0.
  pose proof (Htwo dB ltac:(lia)) as H1.
  pose proof first_unit_producing W R I HW HR HI as HP. fold d0 in HP.
  pose proof first_unit_winddown W R I HW HR HI as HB. fold dB in HB.
  rewrite producingCount_three in H0, H1.
  rewrite decide_True in H0 by done.
  rewrite (decide_False (P := getSupervisorStateAtDay dB 0 W R I = PRODUCING))
    in H1 by congruence.
  destruct (decide (a = 0)) as [->|Hn2].
  { rewrite (decide_False (P := getSupervisorStateAtDay dB 0 W R I = PRODUCING))
      in H1 by congruence.
    destruct (decide _); lia. }
  destruct (decide (b = 0)) as [->|Hn3].
  { rewrite (decide_False (P := getSupervisorStateAtDay dB 0 W R I = PRODUCING))
      in H1 by congruence.
    destruct (decide _); lia. }
  rewrite (decide_False (P := getSupervisorStateAtDay d0 a W R I = PRODUCING))
    in H0 by (apply later_unit_not_producing; lia).
  rewrite (decide_False (P := getSupervisorStateAtDay d0 b W R I = PRODUCING))
    in H0 by (apply later_unit_not_producing; lia).
  lia.
Qed.
End FirstProducingDay.

(** ** The count alerts of the validator *)

Lemma findIndex_from_eq {A : Type} (p : A -> bool) (l : list A) (i : Z) :
  0 <= i ->
  (findIndex_from p l i = -1 /\ forall x, x ∈ l -> p x = false)
  \/ exists (d : nat) (x : A),
       findIndex_from p l i = i + Z.of_nat d /\ l !! d = Some x /\ p x = true
       /\ forall d' y, (d' < d)%nat -> l !! d' = Some y -> p y = false.
Proof.
  revert i. induction l as [|y l IH]; intros i Hi.
  - left. split; [done|]. intros x Hx. by apply elem_of_nil in Hx.
  - simpl. destruct (p y) eqn:Hy.
    + right. exists 0%nat, y. split_and!; [lia|done|done|]. intros; lia.
    + destruct (IH (i + 1) ltac:(lia)) as [[Hr Hall]|(d & x & Hr & Hd & Hp & Hmin)].
      * left. split; [done|]. intros x [->|Hx]%elem_of_cons; [done|by apply Hall].
      * right. exists (S d), x. split_and!; [lia|done|done|].
        intros [|d'] z Hlt Hz; simpl in Hz; [congruence|].
        apply (Hmin d' z); [lia|done].
Qed.

Lemma findIndex_nonneg {A : Type} (p : A -> bool) (l : list A) :
  findIndex p l <> -1 -> 0 <= findIndex p l.
Proof.
  unfold findIndex.
  destruct (findIndex_from_eq p l 0 ltac:(lia))
    as [[-> _]|(d1 & y & -> & _)]; [done|lia].
Qed.

(** A day is at or after the first day with two units producing exactly
    when some day up to it has two units producing. *)
Lemma after_first_two (pc : list Z) (d : nat) :
  (d < length pc)%nat ->
  let f := findIndex (fun x => x =? 2) pc in
  (f <> -1 /\ f <= Z.of_nat d)
  <-> exists d0 : nat, (d0 <= d)%nat /\ pc !! d0 = Some 2.
Proof.
  intros Hd. cbv zeta. unfold findIndex.
  destruct (findIndex_from_eq (fun x => x =? 2) pc 0 ltac:(lia))
    as [[-> Hall]|(d1 & x & -> & Hd1 & Hp & Hmin)].
  - split; [intros [? _]; done|]. intros (d0 & _ & Hd0).
    apply list_elem_of_lookup_2 in Hd0. apply Hall in Hd0. done.
  - apply Z.eqb_eq in Hp as ->. split.
    + intros [_ Hle]. exists d1. split; [lia|done].
    + intros (d0 & Hle & Hd0). split; [lia|].
      destruct (decide (d1 <= d0)%nat) as [|Hgt]; [lia|].
      specialize (Hmin d0 2 ltac:(lia) Hd0). done.
Qed.

Lemma checkThree_three (pc : list Z) (d : nat) :
  ThreeProducing d ∈ checkThree pc [] <-> pc !! d = Some 3.
Proof.
  unfold checkThree.
  rewrite (foldl_ext_in _ (fun acc d => acc ++
             (if pc !!! d =? 3 then [ThreeProducing d] else [])))
    by (intros acc d'; destruct (_ =? _); [done|by rewrite app_nil_r]).
  rewrite elem_of_foldl_push. split.
  - intros [Hx|(d' & Hd' & Hx)]; [by apply elem_of_nil in Hx|].
    apply elem_of_seq in Hd'.
    destruct (Z.eqb_spec (pc !!! d') 3) as [He|]; [|by apply elem_of_nil in Hx].
    apply list_elem_of_singleton in Hx. injection Hx as ->.
    destruct (lookup_lt_is_Some_2 pc d' ltac:(lia)) as [x Hx].
    by rewrite (list_lookup_total_correct _ _ _ Hx) in He; subst.
  - intros Hd. right. exists d. split.
    + apply elem_of_seq. apply lookup_lt_Some in Hd. lia.
    + rewrite (list_lookup_total_correct _ _ _ Hd). simpl.
      by apply list_elem_of_singleton.
Qed.

Lemma checkThree_other (pc : list Z) (init : list Alert) (x : Alert) :
  (forall d, x <> ThreeProducing d) ->
  x ∈ checkThree pc init <-> x ∈ init.
Proof.
  intros Hx. unfold checkThree.
  rewrite (foldl_ext_in _ (fun acc d => acc ++
             (if pc !!! d =? 3 then [ThreeProducing d] else [])))
    by (intros acc d'; destruct (_ =? _); [done|by rewrite app_nil_r]).
  rewrite elem_of_foldl_push. split; [|auto].
  intros [?|(d' & _ & Hin)]; [done|].
  destruct (_ =? _); [|by apply elem_of_nil in Hin].
  apply list_elem_of_singleton in Hin. by apply Hx in Hin.
Qed.

Lemma checkCoverage_push (pc : list Z) (init : list Alert) :
  checkCoverage pc init
  = init ++
    (if negb (findIndex (fun x => x =? 2) pc =? -1) then
       seq (Z.to_nat (findIndex (fun x => x =? 2) pc))
           (length pc - Z.to_nat (findIndex (fun x => x =? 2) pc)) ≫=
         (fun d => (if pc !!! d =? 1 then [OneProducing d] else [])
                   ++ (if pc !!! d =? 0 then [ZeroProducing d] else []))
     else []).
Proof.
  unfold checkCoverage. cbv zeta.
  destruct (negb _); [|by rewrite app_nil_r].
  rewrite <- foldl_push_bind. apply foldl_ext_in.
  intros acc d. destruct (_ =? 1), (_ =? 0);
    rewrite ?app_nil_r, <- ?app_assoc; done.
Qed.

Lemma checkCoverage_count (pc : list Z) (init : list Alert) (x : Alert) :
  x ∈ checkCoverage pc init
  <-> x ∈ init
      \/ exists (d : nat) (n : Z),
           pc !! d = Some n
           /\ (exists d0 : nat, (d0 <= d)%nat /\ pc !! d0 = Some 2)
           /\ ((n = 1 /\ x = OneProducing d) \/ (n = 0 /\ x = ZeroProducing d)).
Proof.
  rewrite checkCoverage_push, elem_of_app. apply or_iff_compat_l.
  set (f := findIndex (fun x => x =? 2) pc).
  split.
  - destruct (Z.eqb_spec f (-1)) as [|Hne]; simpl;
      [intros Hx; inversion Hx|].
    intros (d & Hx & Hd)%list_elem_of_bind. apply elem_of_seq in Hd.
    assert (0 <= f) by (by apply findIndex_nonneg).
    assert (d < length pc)%nat as Hlen by lia.
    destruct (lookup_lt_is_Some_2 pc d Hlen) as [n Hn].
    rewrite (list_lookup_total_correct _ _ _ Hn) in Hx.
    exists d, n. split; [done|]. split.
    { apply (after_first_two pc d Hlen). fold f. lia. }
    apply elem_of_app in Hx as [Hx|Hx].
    + destruct (Z.eqb_spec n 1); [|by apply elem_of_nil in Hx].
      apply list_elem_of_singleton in Hx. by left.
    + destruct (Z.eqb_spec n 0); [|by apply elem_of_nil in Hx].
      apply list_elem_of_singleton in Hx. by right.
  - intros (d & n & Hn & Hafter & Hx).
    pose proof (lookup_lt_Some _ _ _ Hn) as Hlen.
    apply (after_first_two pc d Hlen) in Hafter. fold f in Hafter.
    destruct Hafter as [Hne Hle].
    destruct (Z.eqb_spec f (-1)) as [|_]; [done|]. simpl.
    assert (0 <= f) by (by apply findIndex_nonneg).
    apply list_elem_of_bind. exists d. split.
    + rewrite (list_lookup_total_correct _ _ _ Hn).
      destruct Hx as [[-> ->]|[-> ->]]; simpl.
      * apply elem_of_cons. by left.
      * by apply list_elem_of_singleton.
    + apply elem_of_seq. lia.
Qed.

Lemma checkPatterns_other (states : list (list DayState)) (init : list Alert)
    (x : Alert) :
  ~ isPattern x -> x ∈ checkPatterns states init <-> x ∈ init.
Proof.
  intros Hx. rewrite checkPatterns_elem. split; [|auto].
  intros [?|(s & row & _ & Hin)]; [done|].
  apply checkRow_elem in Hin as [Hin|(d & _ & _ & _ & _ & ->)];
    [by apply elem_of_nil in Hin|]. by exfalso; apply Hx.
Qed.

(** Membership of the count alerts. *)
Lemma validateAlerts_three (states : list (list DayState)) (pc : list Z)
    (d : nat) :
  ThreeProducing d ∈ validateAlerts states pc <-> pc !! d = Some 3.
Proof.
  unfold validateAlerts. rewrite checkPatterns_other by (by intros []).
  rewrite checkCoverage_count, checkThree_three. split; [|auto].
  intros [?|(d' & n & _ & _ & [[_ ?]|[_ ?]])]; done.
Qed.

Lemma validateAlerts_one (states : list (list DayState)) (pc : list Z)
    (d : nat) :
  OneProducing d ∈ validateAlerts states pc
  <-> pc !! d = Some 1
      /\ exists d0 : nat, (d0 <= d)%nat /\ pc !! d0 = Some 2.
Proof.
  unfold validateAlerts. rewrite checkPatterns_other by (by intros []).
  rewrite checkCoverage_count, checkThree_other by done. split.
  - intros [Hx|(d' & n & Hn & Hafter & [[-> [= ->]]|[_ ?]])];
      [by apply elem_of_nil in Hx|done|done].
  - intros [Hn Hafter]. right. exists d, 1. split_and!; [done|done|by left].
Qed.

Lemma validateAlerts_zero (states : list (list DayState)) (pc : list Z)
    (d : nat) :
  ZeroProducing d ∈ validateAlerts states pc
  <-> pc !! d = Some 0
      /\ exists d0 : nat, (d0 <= d)%nat /\ pc !! d0 = Some 2.
Proof.
  unfold validateAlerts. rewrite checkPatterns_other by (by intros []).
  rewrite checkCoverage_count, checkThree_other by done. split.
  - intros [Hx|(d' & n & Hn & Hafter & [[_ ?]|[-> [= ->]]])];
      [by apply elem_of_nil in Hx|done|done].
  - intros [Hn Hafter]. right. exists d, 0. split_and!; [done|done|by right].
Qed.

(** X7.  The count alerts of the validator: day [d] gets a "3 producing"
    alert exactly when its count is 3, and a "1 producing" or "0 producing"
    alert exactly when its count is 1 or 0 and some day up to [d] has a
    count of 2; days before the first day with count 2 raise neither. *)
Theorem validate_count_alerts (names : list string)
    (states : list (list DayState)) (pCount : list Z) (d : nat) :
  let alerts := validateAlerts states pCount in
  let started := exists d0 : nat, (d0 <= d)%nat /\ pCount !! d0 = Some 2 in
  (ThreeProducing d ∈ alerts <-> pCount !! d = Some 3)
  /\ (OneProducing d ∈ alerts <-> pCount !! d = Some 1 /\ started)
  /\ (ZeroProducing d ∈ alerts <-> pCount !! d = Some 0 /\ started)
  /\ (forall a, a ∈ alerts ->
        render names a ∈ validateSchedule names states pCount).
Proof.
  cbv zeta. split_and!.
  - apply validateAlerts_three.
  - apply validateAlerts_one.
  - apply validateAlerts_zero.
  - intros a Ha. unfold validateSchedule. by apply list_elem_of_fmap_2.
Qed.

(** X8.  The validator returns no alert exactly when no day has a count of
    3, no day at or after a day with count 2 has a count of 1 or 0, and no
    row has a forbidden transition between two adjacent non-empty cells. *)
Theorem validate_empty_iff (names : list string)
    (states : list (list DayState)) (pCount : list Z) :
  validateSchedule names states pCount = []
  <-> (forall d : nat, pCount !! d <> Some 3)
      /\ (forall d0 d : nat, (d0 <= d)%nat -> pCount !! d0 = Some 2 ->
            pCount !! d <> Some 1 /\ pCount !! d <> Some 0)
      /\ (forall (s d : nat) (row : list DayState) (a b : DayState),
            states !! s = Some row ->
            row !! d = Some a -> row !! S d = Some b ->
            a <> EMPTY -> b <> EMPTY -> (a, b) ∉ forbiddenTransitions).
Proof.
  unfold validateSchedule.
  assert (render names <$> validateAlerts states pCount = []
          <-> validateAlerts states pCount = []) as ->
    by (split; [apply fmap_nil_inv|by intros ->]).
  split.
  - intros Hnil. split_and!.
    + intros d Hd. apply validateAlerts_three with (states := states) in Hd.
      rewrite Hnil in Hd. by apply elem_of_nil in Hd.
    + intros d0 d Hle H2. split; intros Hd.
      * assert (OneProducing d ∈ validateAlerts states pCount) as Hin
          by (apply validateAlerts_one; eauto).
        rewrite Hnil in Hin. by apply elem_of_nil in Hin.
      * assert (ZeroProducing d ∈ validateAlerts states pCount) as Hin
          by (apply validateAlerts_zero; eauto).
        rewrite Hnil in Hin. by apply elem_of_nil in Hin.
    + intros s d row a b Hrow Ha Hb Hna Hnb Hf.
      assert (InvalidPattern s (S d) (pairKey a b)
                ∈ validateAlerts states pCount) as Hin.
      { apply validateAlerts_pattern. exists row.
        replace (S d - 1)%nat with d by lia.
        rewrite (list_lookup_total_correct _ _ _ Ha),
                (list_lookup_total_correct _ _ _ Hb).
        apply lookup_lt_Some in Hb.
        split_and!; try done; try lia. by apply pairKey_forbidden. }
      rewrite Hnil in Hin. by apply elem_of_nil in Hin.
  - intros (H3 & H10 & Hpat).
    destruct (validateAlerts states pCount) as [|x l] eqn:Hl; [done|exfalso].
    assert (x ∈ validateAlerts states pCount) as Hx
      by (rewrite Hl; apply elem_of_cons; by left).
    destruct x as [d|d|d|s d key].
    + apply validateAlerts_three in Hx. by apply (H3 d).
    + apply validateAlerts_one in Hx as [Hd (d0 & Hle & H2)].
      by destruct (H10 d0 d Hle H2).
    + apply validateAlerts_zero in Hx as [Hd (d0 & Hle & H2)].
      by destruct (H10 d0 d Hle H2).
    + apply validateAlerts_pattern in Hx
        as (row & Hrow & Hd & Hna & Hnb & Hk & _).
      destruct (lookup_lt_is_Some_2 row (d - 1) ltac:(lia)) as [a Ha].
      destruct (lookup_lt_is_Some_2 row d ltac:(lia)) as [b Hb].
      rewrite (list_lookup_total_correct _ _ _ Ha) in Hna, Hk.
      rewrite (list_lookup_total_correct _ _ _ Hb) in Hnb, Hk.
      apply pairKey_forbidden in Hk.
      apply (Hpat s (d - 1)%nat row a b); try done.
      by replace (S (d - 1)) with d by lia.
Qed.

(** ** Two schedules worked out *)

Lemma example_minimal :
  buildSchedule (integerParams 1 2 1 1)
  = Some {| params := {| W := 1; R := 2; I := 1; totalPerforationDays := 1 |};
            starts := [0; 0; 1];
            days := 5;
            names := ["S1"; "S2"; "S3"]%string;
            states :=
              [[STANDUP; INDUCTION; WINDDOWN; STANDUP; PRODUCING];
               [STANDUP; INDUCTION; WINDDOWN; STANDUP; PRODUCING];
               [EMPTY; STANDUP; INDUCTION; WINDDOWN; STANDUP]];
            pCount := [0; 0; 0; 0; 2];
            diagnostics :=
              {| firstPDay := 4; threePDays := 0; notTwoAfterPDays := 27;
                 score := 271; isPerfect := false |} |}.
Proof. vm_compute. reflexivity. Qed.

Lemma example_short_rest :
  buildSchedule (integerParams 2 2 1 3)
  = Some {| params := {| W := 2; R := 2; I := 1; totalPerforationDays := 3 |};
            starts := [0; 0; 2];
            days := 7;
            names := ["S1"; "S2"; "S3"]%string;
            states :=
              [[STANDUP; INDUCTION; PRODUCING; WINDDOWN; STANDUP; PRODUCING;
                PRODUCING];
               [STANDUP; INDUCTION; PRODUCING; WINDDOWN; STANDUP; PRODUCING;
                PRODUCING];
               [EMPTY; EMPTY; STANDUP; INDUCTION; PRODUCING; WINDDOWN;
                STANDUP]];
            pCount := [0; 0; 2; 0; 1; 2; 2];
            diagnostics :=
              {| firstPDay := 2; threePDays := 0; notTwoAfterPDays := 26;
                 score := 262; isPerfect := false |} |}.
Proof. vm_compute. reflexivity. Qed.

(** ** The diagnostics of the result *)

(** The result reaches past the first producing day. *)
Lemma assemble_days_first (p : Raw.t) (best : Best) :
  let q := clamped p in
  0 <= startS2 best -> 0 <= startS3 best ->
  firstProducingDayOf (W q) (R q) (I q) < days (assemble q best).
Proof.
  cbv zeta. intros Ha Hb.
  pose proof (clamped_range p) as (HW & HR & HI & HT).
  pose proof (horizon_range p) as Hh.
  pose proof (assemble_days p best) as Hdays.
  set (q := clamped p) in *.
  pose proof (firstProducingDayOf_range (W q) (R q) (I q)
                ltac:(lia) ltac:(lia) ltac:(lia)) as Hr.
  assert (firstWinddownAfter (W q) (R q) (I q) < horizonFor q) as HB.
  { unfold firstWinddownAfter, horizonFor, horizonOf in *.
    destruct (Z.ltb_spec (I q) (W q)); lia. }
  destruct (assemble_countTwo p best) as [(_ & _ & Hlast)|(_ & _ & Hall)];
    [fold q in Hlast|fold q in Hall; lia].
  apply lookup_assemble_pCount in Hlast as [Hlast _].
  destruct (Z.lt_ge_cases (firstProducingDayOf (W q) (R q) (I q))
              (days (assemble q best))) as [|Hge]; [done|exfalso].
  rewrite producingCount_before in Hlast; lia.
Qed.

(** X9.  The first producing day reported by the solver is the first
    producing day of unit 1, [I + 1] when [W > I] and [I + R + 1] otherwise:
    it is never [-1], it lies inside the result, and no unit produces
    before it. *)
Theorem build_first_producing_day (p : Raw.t) :
  let q := clamped p in
  exists r,
    buildSchedule p = Some r
    /\ firstPDay (diagnostics r)
       = (if I q <? W q then 1 + I q else I q + R q + 1)
    /\ 0 <= firstPDay (diagnostics r) < days r
    /\ (forall d : nat, Z.of_nat d < firstPDay (diagnostics r) ->
          pCount r !! d = Some 0)
    /\ exists n, pCount r !! Z.to_nat (firstPDay (diagnostics r)) = Some n
                 /\ 1 <= n.
Proof.
  cbv zeta.
  destruct (buildSchedule_ordered p) as (best & Hb & Hdiag & H0 & H1 & H2).
  pose proof (clamped_range p) as (HW & HR & HI & HT).
  pose proof (horizon_range p) as Hh.
  pose proof (assemble_days p best) as Hdays.
  pose proof (assemble_days_first p best ltac:(lia) ltac:(lia)) as Hfirst.
  cbv zeta in Hfirst.
  set (q := clamped p) in *.
  pose proof (firstProducingDayOf_range (W q) (R q) (I q)
                ltac:(lia) ltac:(lia) ltac:(lia)) as Hr.
  exists (assemble q best). split; [exact Hb|].
  change (diagnostics (assemble q best)) with (bestDiagnostics best).
  rewrite Hdiag.
  rewrite specDiagnostics_firstPDay by lia.
  change (if I q <? W q then 1 + I q else I q + R q + 1)
    with (firstProducingDayOf (W q) (R q) (I q)).
  set (d0 := firstProducingDayOf (W q) (R q) (I q)) in *.
  assert (forall d : nat, Z.of_nat d < days (assemble q best) ->
            pCount (assemble q best) !! d
            = Some (producingCount (W q) (R q) (I q)
                      [0; startS2 best; startS3 best] (Z.of_nat d))) as Hpc.
  { intros d Hd. unfold assemble in *. cbn [pCount days] in *.
    rewrite slice0_nonneg by lia. rewrite lookup_take_lt by lia.
    apply lookup_fullPCount. lia. }
  split_and!; [reflexivity|lia|lia| |].
  - intros d Hd. rewrite Hpc by lia. f_equal.
    apply producingCount_before; fold d0; lia.
  - eexists. split.
    + rewrite Hpc by lia. reflexivity.
    + rewrite Z2Nat.id by lia. apply producingCount_first; lia.
Qed.

(** X10.  The builder never obtains a perfect schedule from the solver: for
    every parameter object [isPerfect] is false, because at least one day
    from the first producing day on does not have exactly two units
    producing; the score is therefore at least 10. *)
Theorem build_never_perfect (p : Raw.t) :
  exists r,
    buildSchedule p = Some r
    /\ isPerfect (diagnostics r) = false
    /\ 1 <= notTwoAfterPDays (diagnostics r)
    /\ 0 <= threePDays (diagnostics r)
    /\ 10 <= score (diagnostics r).
Proof.
  destruct (buildSchedule_ordered p) as (best & Hb & Hdiag & H0 & H1 & H2).
  pose proof (clamped_range p) as (HW & HR & HI & HT).
  pose proof (horizon_range p) as Hh.
  set (q := clamped p) in *.
  assert (firstWinddownAfter (W q) (R q) (I q) < horizonFor q) as HB.
  { unfold firstWinddownAfter, horizonFor, horizonOf in *.
    destruct (Z.ltb_spec (I q) (W q)); lia. }
  exists (assemble q best). split; [exact Hb|].
  change (diagnostics (assemble q best)) with (bestDiagnostics best).
  rewrite Hdiag.
  pose proof (specDiagnostics_notTwo (W q) (R q) (I q)
                ltac:(lia) ltac:(lia) ltac:(lia)
                (horizonFor q) (startS2 best) (startS3 best)
                HB ltac:(lia) ltac:(lia)) as Hnt.
  split; [apply specDiagnostics_not_perfect; lia|].
  split; [exact Hnt|].
  unfold specDiagnostics in *. cbn [threePDays notTwoAfterPDays score] in *.
  split; lia.
Qed.

(** ** The validator on the result of the builder *)

(** X11.  The only transition alert the validator can raise on a built
    schedule is [B-S], and only under [R = 2]: the alerted cells are a [B]
    day directly followed by [S].  With [R >= 3] a built schedule raises no
    transition alert. *)
Theorem build_transition_alerts (p : Raw.t) (r : Schedule) (s d : nat)
    (key : string) :
  buildSchedule p = Some r ->
  InvalidPattern s d key ∈ validateAlerts (states r) (pCount r) ->
  R (params r) = 2 /\ key = "B-S"%string
  /\ exists row, states r !! s = Some row
       /\ row !! (d - 1)%nat = Some WINDDOWN /\ row !! d = Some STANDUP.
Proof.
  intros Hbuild Hin.
  destruct (buildSchedule_ordered p) as (best & Hb & _ & H0 & H1 & _).
  rewrite Hb in Hbuild. injection Hbuild as <-.
  pose proof (clamped_range p) as (HW & HR & HI & HT).
  set (q := clamped p) in *.
  apply validateAlerts_pattern in Hin as (row & Hrow & Hd & Hna & Hnb & Hk & ->).
  destruct (lookup_lt_is_Some_2 row (d - 1) ltac:(lia)) as [a Ha].
  destruct (lookup_lt_is_Some_2 row d ltac:(lia)) as [b Hb'].
  rewrite (list_lookup_total_correct _ _ _ Ha) in *.
  rewrite (list_lookup_total_correct _ _ _ Hb') in *.
  destruct (lookup_assemble_row q best s (d - 1) row a Hrow Ha) as (o & Ho & -> & _).
  destruct (lookup_assemble_row q best s d row b Hrow Hb') as (o' & Ho' & -> & _).
  rewrite Ho in Ho'. injection Ho' as <-.
  apply pairKey_forbidden, forbiddenb_spec in Hk.
  replace (Z.of_nat d) with (Z.of_nat (d - 1) + 1) in Hk, Hb' |- * by lia.
  pose proof (proj1 (state_transition (W q) (R q) (I q) o
                       ltac:(lia) ltac:(lia) ltac:(lia) _) Hk) as [HR2 HB].
  rewrite HB in Hk, Ha |- *.
  destruct (getSupervisorStateAtDay (Z.of_nat (d - 1) + 1) o (W q) (R q) (I q))
    eqn:Hnext; try discriminate.
  split; [exact HR2|]. split; [reflexivity|].
  exists row. done.
Qed.

Lemma build_transition_alerts_witness :
  exists r, buildSchedule (integerParams 1 2 1 1) = Some r
            /\ R (params r) = 2
            /\ InvalidPattern 0 3 "B-S" ∈ validateAlerts (states r) (pCount r).
Proof.
  eexists. split; [exact example_minimal|].
  assert (InvalidPattern 0 3 "B-S"
          ∈ validateAlerts
              [[STANDUP; INDUCTION; WINDDOWN; STANDUP; PRODUCING];
               [STANDUP; INDUCTION; WINDDOWN; STANDUP; PRODUCING];
               [EMPTY; STANDUP; INDUCTION; WINDDOWN; STANDUP]]
              [0; 0; 0; 0; 2]) as Hin.
  { apply list_elem_of_In. vm_compute.
    repeat (first [left; reflexivity | right]). }
  split; [|exact Hin].
  exact (proj1 (build_transition_alerts _ _ 0 3 "B-S" example_minimal Hin)).
Defined.

(** X12.  When the solver reports no day with three units producing, the
    result holds no such day and the validator raises no "3 producing"
    alert on it. *)
Theorem build_no_three_producing (p : Raw.t) (r : Schedule) :
  buildSchedule p = Some r ->
  threePDays (diagnostics r) = 0 ->
  (forall d : nat, pCount r !! d <> Some 3)
  /\ forall d : nat, ThreeProducing d ∉ validateAlerts (states r) (pCount r).
Proof.
  intros Hbuild H3.
  destruct (buildSchedule_ordered p) as (best & Hb & Hdiag & _).
  rewrite Hb in Hbuild. injection Hbuild as <-.
  set (q := clamped p) in *.
  change (diagnostics (assemble q best)) with (bestDiagnostics best) in H3.
  rewrite Hdiag in H3. unfold specDiagnostics in H3. cbn [threePDays] in H3.
  assert (forall d : nat, pCount (assemble q best) !! d <> Some 3) as Hno.
  { intros d Hd. apply lookup_assemble_pCount in Hd as [Hd Hlt].
    apply (length_filter_zero _ _ d H3).
    - apply elem_of_upto. lia.
    - erewrite list_lookup_total_correct by (apply lookup_fullPCount; lia).
      done. }
  split; [exact Hno|].
  intros d Hin. apply validateAlerts_three in Hin. by apply (Hno d).
Qed.

Lemma build_no_three_producing_witness :
  exists r, buildSchedule (integerParams 2 2 1 3) = Some r
            /\ forall d : nat, pCount r !! d <> Some 3.
Proof.
  eexists. split; [exact example_short_rest|].
  exact (proj1 (build_no_three_producing _ _ example_short_rest eq_refl)).
Defined.

(** ** Clamping *)

Lemma clampInt_below (q : Q) (lo hi : Z) :
  lo <= hi -> (q < inject_Z lo)%Q -> clampInt (JsFinite q) lo hi = lo.
Proof.
  intros Hle Hq. unfold clampInt.
  assert (Qfloor q < lo).
  { rewrite Zlt_Qlt. eapply Qle_lt_trans; [apply Qfloor_le|done]. }
  lia.
Qed.

Lemma clampInt_above (q : Q) (lo hi : Z) :
  lo <= hi -> (inject_Z hi <= q)%Q -> clampInt (JsFinite q) lo hi = hi.
Proof.
  intros Hle Hq. unfold clampInt.
  assert (hi <= Qfloor q).
  { rewrite <- (Qfloor_Z hi). by apply Qfloor_resp_le. }
  lia.
Qed.

Lemma clampInt_inside (q : Q) (lo hi : Z) :
  (inject_Z lo <= q)%Q -> (q < inject_Z (hi + 1))%Q ->
  clampInt (JsFinite q) lo hi = Qfloor q.
Proof.
  intros Hlo Hhi. unfold clampInt.
  assert (lo <= Qfloor q).
  { rewrite <- (Qfloor_Z lo). by apply Qfloor_resp_le. }
  assert (Qfloor q < hi + 1).
  { rewrite Zlt_Qlt. eapply Qle_lt_trans; [apply Qfloor_le|done]. }
  lia.
Qed.

(** X13.  [clampInt] on a non-empty range: the result lies in the range; a
    value that is not a finite number gives the minimum; a finite number
    below the range gives the minimum, one at or above the maximum gives the
    maximum, and one in between is rounded down to an integer; clamping the
    result again changes nothing. *)
Theorem clampInt_cases (v : JsValue) (lo hi : Z) :
  lo <= hi ->
  lo <= clampInt v lo hi <= hi
  /\ (Number_isFinite v = false -> clampInt v lo hi = lo)
  /\ (forall q, v = JsFinite q ->
        ((q < inject_Z lo)%Q -> clampInt v lo hi = lo)
        /\ ((inject_Z hi <= q)%Q -> clampInt v lo hi = hi)
        /\ ((inject_Z lo <= q)%Q -> (q < inject_Z (hi + 1))%Q ->
            clampInt v lo hi = Qfloor q
            /\ (inject_Z (Qfloor q) <= q)%Q
            /\ (q < inject_Z (Qfloor q + 1))%Q))
  /\ clampInt (JsFinite (inject_Z (clampInt v lo hi))) lo hi = clampInt v lo hi.
Proof.
  intros Hle. split; [by apply clampInt_range|].
  split; [apply clampInt_not_finite|]. split.
  - intros q ->. split_and!.
    + by apply clampInt_below.
    + by apply clampInt_above.
    + intros Hlo Hhi. split_and!.
      * by apply clampInt_inside.
      * apply Qfloor_le.
      * apply Qlt_floor.
  - apply clampInt_integer. by apply clampInt_range.
Qed.

Lemma clampInt_cases_witness :
  clampInt (JsFinite (29 # 10)) 1 5 = 2
  /\ clampInt (JsFinite (-7 # 2)) 1 5 = 1
  /\ clampInt (JsFinite (61 # 1)) 1 60 = 60
  /\ clampInt JsNaN 2 60 = 2.
Proof.
  destruct (clampInt_cases (JsFinite (29 # 10)) 1 5) as (_ & _ & H1 & _); [lia|].
  destruct (H1 _ eq_refl) as (_ & _ & Hin).
  destruct (clampInt_cases (JsFinite (-7 # 2)) 1 5) as (_ & _ & H2 & _); [lia|].
  destruct (H2 _ eq_refl) as (Hlow & _ & _).
  destruct (clampInt_cases (JsFinite (61 # 1)) 1 60) as (_ & _ & H3 & _); [lia|].
  destruct (H3 _ eq_refl) as (_ & Hhigh & _).
  destruct (clampInt_cases JsNaN 2 60) as (_ & Hnan & _); [lia|].
  split_and!.
  - apply Hin; unfold Qle, Qlt; simpl; lia.
  - apply Hlow; unfold Qlt; simpl; lia.
  - apply Hhigh; unfold Qle; simpl; lia.
  - apply Hnan. reflexivity.
Defined.

(** ** The solver at the edges of the horizon *)

Lemma scoreOffsets_None (W R I horizon : Z) (starts : list Z) :
  ~ 0 <= horizon < 2 ^ 32 -> scoreOffsets W R I horizon starts = None.
Proof.
  intros Hh. unfold scoreOffsets, Array_fill.
  destruct (Z.leb_spec 0 horizon); destruct (Z.ltb_spec horizon (2 ^ 32));
    simpl; try reflexivity; lia.
Qed.

Lemma findBestOffsets_throws (W R I horizon : Z) :
  ~ 0 <= horizon < 2 ^ 32 -> findBestOffsets W R I horizon 0 = None.
Proof.
  intros Hh. unfold findBestOffsets, searchOffsets. cbv zeta.
  destruct (Z.le_gt_cases (maxOffsetOf W R I horizon + 1) 0) as [Hm|Hm].
  - rewrite seqZ_nil by done. cbn [outerLoop mbind option_bind].
    by rewrite scoreOffsets_None.
  - rewrite seqZ_cons by done. cbn [outerLoop innerLoop].
    rewrite !scoreOffsets_None by done. reflexivity.
Qed.

Lemma findBestOffsets_returns (W R I horizon : Z) :
  0 <= horizon < 2 ^ 32 -> is_Some (findBestOffsets W R I horizon 0).
Proof.
  intros Hh. unfold findBestOffsets.
  rewrite searchOffsets_scan by done. cbn [mbind option_bind].
  destruct (scan _ _ _ _ _ _) as [found|[best|]]; [eauto..|].
  rewrite scoreOffsets_spec by done. cbn [mbind option_bind]. eauto.
Qed.

(** X14.  The solver throws exactly when the horizon is not a valid array
    length.  With an empty horizon it has no candidate, takes the fallback
    offsets [(0, W + 1)] and reports them as perfect, with no producing
    day. *)
Theorem findBestOffsets_horizon_edges (W R I horizon : Z) :
  (is_Some (findBestOffsets W R I horizon 0) <-> 0 <= horizon < 2 ^ 32)
  /\ searchOffsets W R I 0 0 = Some (Continue None)
  /\ findBestOffsets W R I 0 0
     = Some {| startS2 := 0; startS3 := W + 1;
               bestDiagnostics :=
                 {| firstPDay := -1; threePDays := 0; notTwoAfterPDays := 0;
                    score := Z.abs (W + 1); isPerfect := true |} |}.
Proof.
  split; [|split].
  - split.
    + intros Hs. destruct (decide (0 <= horizon < 2 ^ 32)) as [|Hn]; [done|].
      rewrite findBestOffsets_throws in Hs by done. by destruct Hs.
    + apply findBestOffsets_returns.
  - unfold searchOffsets. cbv zeta.
    rewrite seqZ_nil by (unfold maxOffsetOf; lia). reflexivity.
  - unfold findBestOffsets, searchOffsets. cbv zeta.
    rewrite seqZ_nil by (unfold maxOffsetOf; lia).
    cbn [outerLoop mbind option_bind]. unfold scoreOffsets. simpl.
    do 3 f_equal. lia.
Qed.

(** ** The other copy of the generator *)

Section AlternativeGenerator.
Variables W R I startDay : Z.

Let W' := Z.max 2 W.
Let R' := Z.max 0 R.
Let I' := Z.max 1 (Z.min 5 I).
Let cycle := W' + R'.

Local Abbreviation altAt t :=
  (Alternative.getSupervisorStateAtDay t startDay W R I).

Lemma alt_first_cycle t :
  startDay <= t < startDay + cycle ->
  altAt t =
    let x := t - startDay in
    if x =? 0 then STANDUP
    else if x =? W' - 1 then WINDDOWN
    else if W' <=? x then REST
    else if x <=? I' then INDUCTION
    else PRODUCING.
Proof.
  intros Ht. unfold Alternative.getSupervisorStateAtDay, clampInt.
  rewrite Qfloor_Z. fold W' R' I'. unfold cycle in Ht. cbv zeta.
  zcases.
Qed.

Lemma alt_later_cycles t :
  startDay + cycle <= t ->
  altAt t =
    let pos := (t - startDay - cycle) mod cycle in
    if pos =? 0 then STANDUP
    else if pos =? W' - 1 then WINDDOWN
    else if W' <=? pos then REST
    else PRODUCING.
Proof.
  intros Ht. unfold Alternative.getSupervisorStateAtDay, clampInt.
  rewrite Qfloor_Z. fold W' R' I'. fold cycle. cbv zeta.
  assert (0 < cycle) by (unfold cycle, W', R'; lia).
  rewrite Z.rem_mod_nonneg by lia.
  destruct (Z.ltb_spec t startDay); [lia|].
  destruct (Z.ltb_spec (t - startDay) cycle); [lia|]. reflexivity.
Qed.

Lemma alt_before t : t < startDay -> altAt t = EMPTY.
Proof.
  intros Ht. unfold Alternative.getSupervisorStateAtDay.
  destruct (Z.ltb_spec t startDay); [done|lia].
Qed.






(** A forbidden transition happens on an [S] day when the block has only
    two days, and on the last day of a cycle that has no rest day. *)
Lemma alt_transition t :
  forbiddenb (altAt t) (altAt (t + 1)) = true
  <-> (W' = 2 /\ altAt t = STANDUP) \/ (R' = 0 /\ altAt t = WINDDOWN).
Proof.
  assert (2 <= W') by (unfold W'; lia). assert (0 <= R') by (unfold R'; lia).
  assert (1 <= I') by (unfold I'; lia).
  assert (0 < cycle) by (unfold cycle; lia).
  destruct (Z.lt_ge_cases t (startDay - 1)) as [Hlt|Hge].
  { rewrite !alt_before by lia. simpl. split; [discriminate|].
    intros [[_ ?]|[_ ?]]; discriminate. }
  destruct (Z.eq_dec t (startDay - 1)) as [->|Hne].
  { rewrite alt_before by lia. simpl. split; [discriminate|].
    intros [[_ ?]|[_ ?]]; discriminate. }
  destruct (Z.lt_ge_cases (t + 1) (startDay + cycle)) as [Hin|Hout].
  - rewrite (alt_first_cycle t), (alt_first_cycle (t + 1)) by lia. cbv zeta.
    unfold cycle in *.
    zcases; simpl; split; try discriminate;
      try (intros [[? ?]|[? ?]]; first [discriminate|lia]);
      intros _; first [left; split; first [reflexivity|lia]
                      |right; split; first [reflexivity|lia]].
  - destruct (Z.eq_dec (t + 1) (startDay + cycle)) as [Heq|Hneq].
    + rewrite (alt_first_cycle t) by lia.
      rewrite (alt_later_cycles (t + 1)) by lia. cbv zeta.
      replace (t + 1 - startDay - cycle) with 0 by lia.
      rewrite Z.mod_0_l by lia. unfold cycle in *.
      zcases; simpl; split; try discriminate;
        try (intros [[? ?]|[? ?]]; first [discriminate|lia]);
        intros _; first [left; split; first [reflexivity|lia]
                        |right; split; first [reflexivity|lia]].
    + rewrite (alt_later_cycles t), (alt_later_cycles (t + 1)) by lia.
      cbv zeta.
      replace (t + 1 - startDay - cycle) with (t - startDay - cycle + 1) by lia.
      rewrite mod_succ by lia.
      set (pos := (t - startDay - cycle) mod cycle).
      assert (0 <= pos < cycle) by (apply Z.mod_pos_bound; lia).
      unfold cycle in *.
      destruct (Z.eqb_spec pos (W' + R' - 1));
      zcases; simpl; split; try discriminate;
        try (intros [[? ?]|[? ?]]; first [discriminate|lia]);
        intros _; first [left; split; first [reflexivity|lia]
                        |right; split; first [reflexivity|lia]].
Qed.
(** An [S] day is never followed by another [S] day. *)
Lemma alt_standup_next t : altAt t = STANDUP -> altAt (t + 1) <> STANDUP.
Proof.
  assert (2 <= W') by (unfold W'; lia). assert (0 <= R') by (unfold R'; lia).
  assert (1 <= I') by (unfold I'; lia).
  assert (2 <= cycle) by (unfold cycle; lia).
  destruct (Z.lt_ge_cases t startDay) as [Hlt|Hge].
  { by rewrite alt_before by lia. }
  destruct (Z.lt_ge_cases (t + 1) (startDay + cycle)) as [Hin|Hout].
  - rewrite (alt_first_cycle t), (alt_first_cycle (t + 1)) by lia. cbv zeta.
    unfold cycle in *. zcases; discriminate.
  - destruct (Z.eq_dec (t + 1) (startDay + cycle)) as [Heq|Hneq].
    + rewrite (alt_first_cycle t) by lia. cbv zeta.
      unfold cycle in *. zcases; discriminate.
    + rewrite (alt_later_cycles t), (alt_later_cycles (t + 1)) by lia.
      cbv zeta.
      replace (t + 1 - startDay - cycle) with (t - startDay - cycle + 1) by lia.
      rewrite mod_succ by lia.
      set (pos := (t - startDay - cycle) mod cycle).
      assert (0 <= pos < cycle) by (apply Z.mod_pos_bound; lia).
      unfold cycle in *.
      destruct (Z.eqb_spec pos (W' + R' - 1)); zcases; discriminate.
Qed.
End AlternativeGenerator.






(** ** The other copy of the solver and the builder *)

Lemma alt_countDay (W R I a b c : Z) (d : nat) (pc : list Z) :
  pc !! d = Some 0 ->
  foldl (fun pCount s =>
      let st := Alternative.getSupervisorStateAtDay (Z.of_nat d) ([a; b; c] !!! s) W R I in
      if decide (st = PRODUCING) then increment d pCount else pCount)
    pc (seq 0 3)
  = <[d := Alt.producingCount W R I [a; b; c] (Z.of_nat d)]> pc.
Proof.
  intros Hd. pose proof (lookup_lt_Some _ _ _ Hd) as Hlen.
  unfold Alt.producingCount. simpl foldl.
  change ([a; b; c] !!! 0%nat) with a.
  change ([a; b; c] !!! 1%nat) with b.
  change ([a; b; c] !!! 2%nat) with c.
  rewrite !filter_cons, filter_nil.
  destruct (decide (Alternative.getSupervisorStateAtDay (Z.of_nat d) a W R I = PRODUCING));
  destruct (decide (Alternative.getSupervisorStateAtDay (Z.of_nat d) b W R I = PRODUCING));
  destruct (decide (Alternative.getSupervisorStateAtDay (Z.of_nat d) c W R I = PRODUCING));
  simpl length;
  rewrite ?(increment_at d pc 0 Hd), ?increment_insert by lia;
  try reflexivity.
  symmetry. apply list_insert_id. exact Hd.
Qed.

Lemma alt_countLoop_full (W R I a b c horizon : Z) :
  Alt.countLoop W R I [a; b; c] horizon (replicate (Z.to_nat horizon) 0)
  = Alt.fullPCount W R I [a; b; c] horizon.
Proof.
  unfold Alt.countLoop, Alt.fullPCount, upto.
  set (n := Z.to_nat horizon).
  set (f := fun d : nat => Alt.producingCount W R I [a; b; c] (Z.of_nat d)).
  pose (Inv := fun (k : nat) (pc : list Z) =>
    pc = (f <$> seq 0 k) ++ replicate (n - k) 0).
  match goal with |- foldl ?step _ _ = _ =>
    assert (Inv n (foldl step (replicate n 0) (seq 0 n))) as HInv end.
  { apply foldl_seq_invariant.
    - unfold Inv. simpl. by rewrite Nat.sub_0_r.
    - intros k pc Hk ->. unfold Inv.
      replace (n - k)%nat with (S (n - S k)) by lia.
      rewrite alt_countDay by (apply lookup_fill; by rewrite length_fmap, length_seq).
      rewrite insert_fill by (by rewrite length_fmap, length_seq).
      by rewrite seq_S, fmap_app. }
  unfold Inv in HInv. rewrite HInv, Nat.sub_diag. simpl. apply app_nil_r.
Qed.

Lemma alt_fillLoop_split (W R I : Z) (starts : list Z) (horizon : Z)
    (states : list (list DayState)) (pc : list Z) :
  Alt.fillLoop W R I starts horizon (states, pc)
  = (Alt.statesLoop W R I starts horizon states, Alt.countLoop W R I starts horizon pc).
Proof.
  unfold Alt.fillLoop, Alt.statesLoop, Alt.countLoop.
  generalize (upto horizon). intros l. revert states pc.
  induction l as [|d l IH]; intros states pc; [done|].
  cbn [foldl]. rewrite <- IH. f_equal.
Qed.

Lemma alt_statesLoop_full (W R I a b c horizon : Z) :
  Alt.statesLoop W R I [a; b; c] horizon
    (replicate 3 (replicate (Z.to_nat horizon) EMPTY))
  = Alt.fullStates W R I [a; b; c] horizon.
Proof.
  unfold Alt.statesLoop, Alt.fullStates, upto.
  set (n := Z.to_nat horizon).
  set (f := fun (s : Z) (d : nat) => Alternative.getSupervisorStateAtDay (Z.of_nat d) s W R I).
  pose (row := fun (s : Z) (k : nat) =>
    (f s <$> seq 0 k) ++ replicate (n - k) EMPTY).
  pose (Inv := fun (k : nat) (states : list (list DayState)) =>
    states = [row a k; row b k; row c k]).
  match goal with |- foldl ?step ?init _ = _ =>
    assert (Inv n (foldl step init (seq 0 n))) as HInv end.
  { apply foldl_seq_invariant.
    - unfold Inv, row. simpl. by rewrite Nat.sub_0_r.
    - intros k states Hk ->. unfold Inv.
      rewrite (set_rows k (fun s =>
        Alternative.getSupervisorStateAtDay (Z.of_nat k) ([a; b; c] !!! s) W R I)).
      change ([a; b; c] !!! 0%nat) with a.
      change ([a; b; c] !!! 1%nat) with b.
      change ([a; b; c] !!! 2%nat) with c.
      fold (f a k) (f b k) (f c k).
      unfold row.
      replace (n - k)%nat with (S (n - S k)) by lia.
      rewrite !insert_fill by (by rewrite length_fmap, length_seq).
      by rewrite seq_S, !fmap_app. }
  unfold Inv, row in HInv. rewrite HInv, Nat.sub_diag. simpl.
  by rewrite !app_nil_r.
Qed.

Lemma alt_scoreOffsets_spec (W R I horizon offset2 offset3 : Z) :
  0 <= horizon < 2 ^ 32 ->
  Alt.scoreOffsets W R I horizon [0; offset2; offset3]
  = Some (Alt.specDiagnostics W R I horizon offset2 offset3).
Proof.
  intros Hh. unfold Alt.scoreOffsets. rewrite Array_fill_Some by done. simpl.
  rewrite alt_countLoop_full, tallyLoop_counts.
  reflexivity.
Qed.

Section AlternativeSolver.
Variables W R I horizon : Z.
Hypothesis Hhorizon : 0 <= horizon < 2 ^ 32.

Local Abbreviation perfect c :=
  (isPerfect (bestDiagnostics (Alt.candidateAt W R I horizon c))).
Local Abbreviation scoreAt c :=
  (score (bestDiagnostics (Alt.candidateAt W R I horizon c))).

Lemma alt_innerLoop_scan (a : Z) (cs : list Z) (best : option Best) :
  Alt.innerLoop W R I horizon 0 a cs best
  = Some (Alt.scan W R I horizon ((fun b => (a, b)) <$> cs) best).
Proof using Hhorizon.
  revert best. induction cs as [|b cs IH]; intros best; [done|].
  cbn [Alt.innerLoop fmap list_fmap Alt.scan].
  rewrite alt_scoreOffsets_spec by done.
  unfold Alt.candidateAt. cbn [fst snd].
  generalize (Alt.specDiagnostics W R I horizon a b). intros diag. simpl.
  destruct (isPerfect diag); [done|].
  rewrite IH. unfold Alt.candidateAt. done.
Qed.

Lemma alt_scan_app (l1 l2 : list (Z * Z)) (best : option Best) :
  Alt.scan W R I horizon (l1 ++ l2) best
  = match Alt.scan W R I horizon l1 best with
    | Return found => Return found
    | Continue best' => Alt.scan W R I horizon l2 best'
    end.
Proof.
  revert best. induction l1 as [|c l1 IH]; intros best; [done|].
  cbn [Alt.scan app]. destruct (perfect c); [done|]. apply IH.
Qed.

Lemma alt_outerLoop_scan (cs2 cs3 : list Z) (best : option Best) :
  Alt.outerLoop W R I horizon 0 cs2 cs3 best
  = Some (Alt.scan W R I horizon
            (a ← cs2; (fun b => (a, b)) <$> cs3) best).
Proof using Hhorizon.
  revert best. induction cs2 as [|a cs2 IH]; intros best; [done|].
  cbn [Alt.outerLoop]. rewrite alt_innerLoop_scan. simpl.
  rewrite alt_scan_app.
  destruct (Alt.scan W R I horizon ((fun b => (a, b)) <$> cs3) best); [done|].
  apply IH.
Qed.

Lemma alt_searchOffsets_scan :
  Alt.searchOffsets W R I horizon 0
  = Some (Alt.scan W R I horizon (candidates (Alt.maxOffsetOf W R horizon)) None).
Proof using Hhorizon. unfold Alt.searchOffsets. apply alt_outerLoop_scan. Qed.

(** An early return is the first perfect candidate of the list. *)
Lemma alt_scan_Return (l : list (Z * Z)) (best : option Best) (found : Best) :
  Alt.scan W R I horizon l best = Return found ->
  exists l1 c l2,
    l = l1 ++ c :: l2 /\ found = Alt.candidateAt W R I horizon c
    /\ perfect c = true
    /\ forall y, y ∈ l1 -> perfect y = false.
Proof.
  revert best. induction l as [|c l IH]; intros best; [done|].
  cbn [Alt.scan]. destruct (perfect c) eqn:Hp.
  - intros [= <-]. exists [], c, l. repeat split; [done|].
    intros y Hy. by apply elem_of_nil in Hy.
  - intros (l1 & c' & l2 & -> & Hf & Hp' & Hl1)%IH.
    exists (c :: l1), c', l2. repeat split; [done|done|].
    intros y [->|Hy]%elem_of_cons; [done|]. by apply Hl1.
Qed.

(** Without an early return no candidate is perfect and [best] is the
    first candidate of lowest score, the incoming [best] counting as seen
    before the list. *)
Lemma alt_scan_Continue (l : list (Z * Z)) (best out : option Best) :
  Alt.scan W R I horizon l best = Continue out ->
  (forall y, y ∈ l -> perfect y = false)
  /\ ((out = best
       /\ forall y b, best = Some b -> y ∈ l ->
            score (bestDiagnostics b) <= scoreAt y)
      \/ exists l1 c l2,
           l = l1 ++ c :: l2 /\ out = Some (Alt.candidateAt W R I horizon c)
           /\ (forall b, best = Some b -> scoreAt c < score (bestDiagnostics b))
           /\ (forall y, y ∈ l1 -> scoreAt c < scoreAt y)
           /\ (forall y, y ∈ l2 -> scoreAt c <= scoreAt y)).
Proof.
  revert best. induction l as [|c l IH]; intros best.
  - cbn [Alt.scan]. intros [= <-]. split; [intros y Hy; by apply elem_of_nil in Hy|].
    left. split; [done|]. intros y b _ Hy. by apply elem_of_nil in Hy.
  - cbn [Alt.scan]. destruct (perfect c) eqn:Hp; [done|].
    intros [Hnp Hout]%IH. split.
    { intros y [->|Hy]%elem_of_cons; [done|]. by apply Hnp. }
    destruct best as [b0|]; cbn [better] in Hout.
    + destruct (Z.ltb_spec (scoreAt c) (score (bestDiagnostics b0))) as [Hlt|Hge].
      * (* the head replaces the incoming best *)
        destruct Hout as [[-> Hall]|(l1 & c' & l2 & -> & -> & Hb & H1 & H2)].
        -- right. exists [], c, l. split_and!; [done|done|..].
           ++ intros b [= <-]. done.
           ++ intros y Hy. by apply elem_of_nil in Hy.
           ++ intros y Hy. by apply (Hall y _ eq_refl).
        -- right. exists (c :: l1), c', l2. split_and!; [done|done|..].
           ++ intros b [= <-]. specialize (Hb _ eq_refl). lia.
           ++ intros y [->|Hy]%elem_of_cons; [by apply (Hb _ eq_refl)|by apply H1].
           ++ done.
      * destruct Hout as [[-> Hall]|(l1 & c' & l2 & -> & -> & Hb & H1 & H2)].
        -- left. split; [done|]. intros y b [= <-] [->|Hy]%elem_of_cons; [done|].
           by apply (Hall y _ eq_refl).
        -- right. exists (c :: l1), c', l2. split_and!; [done|done|..].
           ++ intros b [= <-]. by apply Hb.
           ++ intros y [->|Hy]%elem_of_cons; [|by apply H1].
              specialize (Hb _ eq_refl). lia.
           ++ done.
    + destruct Hout as [[-> Hall]|(l1 & c' & l2 & -> & -> & Hb & H1 & H2)].
      * right. exists [], c, l. split_and!; [done|done|done|..].
        -- intros y Hy. by apply elem_of_nil in Hy.
        -- intros y Hy. by apply (Hall y _ eq_refl).
      * right. exists (c :: l1), c', l2. split_and!; [done|done|done|..].
        -- intros y [->|Hy]%elem_of_cons; [by apply (Hb _ eq_refl)|by apply H1].
        -- done.
Qed.
End AlternativeSolver.

Lemma alt_scan_Continue_Some (W R I horizon : Z) (l : list (Z * Z))
    (best out : option Best) :
  Alt.scan W R I horizon l best = Continue out ->
  is_Some best \/ l <> [] -> is_Some out.
Proof.
  revert best. induction l as [|c l IH]; intros best.
  - cbn [Alt.scan]. intros [= <-] [?|?]; done.
  - cbn [Alt.scan]. destruct (isPerfect _); [done|]. intros Hs _.
    apply (IH _ Hs). left. destruct best as [b|]; cbn [better]; [|eauto].
    destruct (_ <? _); eauto.
Qed.

(** The outcome of the search over a non-empty range of offsets. *)
Lemma alt_findBestOffsets_outcome (W R I horizon : Z) :
  1 <= horizon < 2 ^ 32 -> 0 <= Alt.maxOffsetOf W R horizon ->
  let l := candidates (Alt.maxOffsetOf W R horizon) in
  let perfect c := isPerfect (bestDiagnostics (Alt.candidateAt W R I horizon c)) in
  let scoreAt c := score (bestDiagnostics (Alt.candidateAt W R I horizon c)) in
  exists l1 c l2,
    l = l1 ++ c :: l2
    /\ Alt.findBestOffsets W R I horizon 0 = Some (Alt.candidateAt W R I horizon c)
    /\ ((Alt.searchOffsets W R I horizon 0
           = Some (Return (Alt.candidateAt W R I horizon c))
         /\ perfect c = true
         /\ forall y, y ∈ l1 -> perfect y = false)
        \/ (Alt.searchOffsets W R I horizon 0
              = Some (Continue (Some (Alt.candidateAt W R I horizon c)))
            /\ (forall y, y ∈ l -> perfect y = false)
            /\ (forall y, y ∈ l1 -> scoreAt c < scoreAt y)
            /\ (forall y, y ∈ l2 -> scoreAt c <= scoreAt y))).
Proof.
  intros Hh Hm. cbv zeta. unfold Alt.findBestOffsets.
  rewrite alt_searchOffsets_scan by lia. cbn [mbind option_bind].
  destruct (Alt.scan _ _ _ _ _ None) as [found|out] eqn:Hscan.
  - destruct (alt_scan_Return _ _ _ _ _ _ _ Hscan) as (l1 & c & l2 & Hl & -> & Hp & H1).
    exists l1, c, l2. split_and!; [done|done|]. left. done.
  - assert (is_Some out) as [b ->].
    { apply (alt_scan_Continue_Some _ _ _ _ _ _ _ Hscan). right.
      intros Hnil.
      assert ((0, 0) ∈ candidates (Alt.maxOffsetOf W R horizon)) as Hin
        by (apply elem_of_candidates; simpl; lia).
      rewrite Hnil in Hin. by apply elem_of_nil in Hin. }
    destruct (alt_scan_Continue _ _ _ _ _ _ _ Hscan)
      as (Hnp & [[? _]|(l1 & c & l2 & Hl & [= ->] & _ & H1 & H2)]); [done|].
    exists l1, c, l2. split_and!; [done|done|]. right. done.
Qed.

Lemma alt_clamped_range (p : Raw.t) :
  2 <= W (Alt.clamped p) <= 60 /\ 0 <= R (Alt.clamped p) <= 60
  /\ 1 <= I (Alt.clamped p) <= 5
  /\ 1 <= totalPerforationDays (Alt.clamped p) <= 5000.
Proof. unfold Alt.clamped; simpl. split_and!; apply clampInt_range; lia. Qed.

Lemma alt_horizon_range (p : Raw.t) :
  57 <= Alt.horizonFor (Alt.clamped p) <= 6000.
Proof.
  pose proof (alt_clamped_range p). unfold Alt.horizonFor, Alt.horizonOf. lia.
Qed.

Lemma alt_maxOffset_range (p : Raw.t) :
  let q := Alt.clamped p in
  24 <= Alt.maxOffsetOf (W q) (R q) (Alt.horizonFor q) <= 260.
Proof.
  pose proof (alt_clamped_range p). pose proof (alt_horizon_range p).
  cbv zeta. unfold Alt.maxOffsetOf. unfold Alt.horizonFor, Alt.horizonOf in *. lia.
Qed.

Lemma alt_buildSchedule_assemble (p : Raw.t) :
  let q := Alt.clamped p in
  exists best,
    Alt.findBestOffsets (W q) (R q) (I q) (Alt.horizonFor q) 0 = Some best
    /\ Alt.buildSchedule p = Some (Alt.assemble q best).
Proof.
  cbv zeta. pose proof (alt_horizon_range p) as Hh.
  pose proof (alt_maxOffset_range p) as Hm. cbv zeta in Hm.
  destruct (alt_findBestOffsets_outcome (W (Alt.clamped p)) (R (Alt.clamped p))
              (I (Alt.clamped p)) (Alt.horizonFor (Alt.clamped p)))
    as (l1 & c & l2 & _ & Hbest & _); [lia|lia|].
  eexists. split; [exact Hbest|].
  unfold Alt.buildSchedule.
  change (clampInt (Raw.W p) 2 60) with (W (Alt.clamped p)).
  change (clampInt (Raw.R p) 0 60) with (R (Alt.clamped p)).
  change (clampInt (Raw.I p) 1 5) with (I (Alt.clamped p)).
  change (clampInt (Raw.totalPerforationDays p) 1 5000)
    with (totalPerforationDays (Alt.clamped p)).
  change (Alt.horizonOf _ _ _) with (Alt.horizonFor (Alt.clamped p)).
  cbv zeta. rewrite Hbest. cbn [mbind option_bind].
  cbn [mapM]. rewrite !Array_fill_Some by lia. cbn [mbind option_bind mret option_ret].
  rewrite (alt_fillLoop_split _ _ _ _ _
             (replicate 3 (replicate (Z.to_nat (Alt.horizonFor (Alt.clamped p))) EMPTY))).
  rewrite alt_statesLoop_full, alt_countLoop_full.
  unfold Alt.assemble. destruct (Alt.clamped p); reflexivity.
Qed.

Lemma alt_length_fullPCount (W R I : Z) (starts : list Z) (horizon : Z) :
  length (Alt.fullPCount W R I starts horizon) = Z.to_nat horizon.
Proof. unfold Alt.fullPCount, upto. by rewrite length_fmap, length_seq. Qed.

Lemma alt_lookup_fullPCount (W R I : Z) (starts : list Z) (horizon : Z) (d : nat) :
  Z.of_nat d < horizon ->
  Alt.fullPCount W R I starts horizon !! d
  = Some (Alt.producingCount W R I starts (Z.of_nat d)).
Proof.
  intros Hd. unfold Alt.fullPCount, upto. rewrite list_lookup_fmap.
  rewrite lookup_seq_lt by lia. done.
Qed.

Lemma alt_lookup_fullStates (W R I : Z) (starts : list Z) (horizon : Z)
    (i : nat) (row : list DayState) :
  Alt.fullStates W R I starts horizon !! i = Some row ->
  exists s, starts !! i = Some s
    /\ row = (fun d => Alternative.getSupervisorStateAtDay (Z.of_nat d) s W R I)
              <$> upto horizon.
Proof.
  unfold Alt.fullStates. intros (s & -> & Hs)%list_lookup_fmap_Some. eauto.
Qed.

Lemma alt_length_fullStates_row (W R I : Z) (starts : list Z) (horizon : Z)
    (i : nat) (row : list DayState) :
  Alt.fullStates W R I starts horizon !! i = Some row ->
  length row = Z.to_nat horizon.
Proof.
  intros (s & _ & ->)%alt_lookup_fullStates.
  unfold upto. by rewrite length_fmap, length_seq.
Qed.

Lemma alt_producingCount_range (W R I : Z) (starts : list Z) (t : Z) :
  0 <= Alt.producingCount W R I starts t <= Z.of_nat (length starts).
Proof.
  unfold Alt.producingCount. pose proof (length_filter
    (fun s => Alternative.getSupervisorStateAtDay t s W R I = PRODUCING) starts). lia.
Qed.

(** The trimmed length lies within the horizon. *)
Lemma alt_assemble_days (p : Raw.t) (best : Best) :
  1 <= days (Alt.assemble (Alt.clamped p) best) <= Alt.horizonFor (Alt.clamped p).
Proof.
  pose proof (alt_horizon_range p) as Hh. pose proof (alt_clamped_range p) as Hq.
  set (q := Alt.clamped p) in *. unfold Alt.assemble. cbn [days].
  set (counts := Alt.fullPCount _ _ _ _ _).
  pose proof (trimLoop_spec counts (totalPerforationDays q)
                (Z.to_nat (Alt.horizonFor q)) 0 (Alt.horizonFor q - 1)) as Htrim.
  cbv zeta in Htrim. rewrite take_0 in Htrim.
  change (countTwo []) with 0 in Htrim.
  change (seq 0 (Z.to_nat (Alt.horizonFor q))) with (upto (Alt.horizonFor q)) in Htrim.
  unfold counts in Htrim at 1. rewrite alt_length_fullPCount in Htrim.
  destruct (Htrim ltac:(lia) ltac:(lia)) as [(d & Hd & -> & _)|[-> _]]; lia.
Qed.

(** ** The other copy on normalised parameters *)

Lemma filter_empty {A : Type} (P : A -> Prop) `{forall x, Decision (P x)}
    (l : list A) :
  (forall x, x ∈ l -> ~ P x) -> filter P l = [].
Proof.
  induction l as [|x l IH]; intros Hl; [done|].
  rewrite filter_cons_False by (apply Hl; by left).
  apply IH. intros y Hy. apply Hl. by right.
Qed.

Lemma findIndex_from_replicate {A : Type} (p : A -> bool) (x : A) (n : nat)
    (i : Z) :
  p x = false -> findIndex_from p (replicate n x) i = -1.
Proof.
  intros Hx. revert i. induction n as [|n IH]; intros i; [done|].
  simpl. rewrite Hx. apply IH.
Qed.

Lemma candidates_head (m : Z) :
  0 <= m -> exists l, candidates m = (0, 0) :: l.
Proof.
  intros Hm. unfold candidates.
  rewrite (seqZ_cons 0 (m + 1)) by lia.
  cbn [mbind list_bind fmap list_fmap app]. eauto.
Qed.

Section AlternativeNormalised.
Variables W R I : Z.
Hypothesis HW : 2 <= W.
Hypothesis HR : 0 <= R.
Hypothesis HI : 1 <= I <= 5.

Local Abbreviation altOf o t := (Alternative.getSupervisorStateAtDay t o W R I).

Lemma alt_norm_first (o t : Z) :
  o <= t < o + (W + R) ->
  altOf o t =
    if t - o =? 0 then STANDUP
    else if t - o =? W - 1 then WINDDOWN
    else if W <=? t - o then REST
    else if t - o <=? I then INDUCTION
    else PRODUCING.
Proof using All.
  intros Ht. rewrite alt_first_cycle by lia. cbv zeta.
  by rewrite (Z.max_r 2 W), (Z.max_r 1), (Z.min_r 5 I) by lia.
Qed.

Lemma alt_norm_later (o t : Z) :
  o + (W + R) <= t ->
  altOf o t =
    let pos := (t - o - (W + R)) mod (W + R) in
    if pos =? 0 then STANDUP
    else if pos =? W - 1 then WINDDOWN
    else if W <=? pos then REST
    else PRODUCING.
Proof using All.
  intros Ht. rewrite alt_later_cycles by lia. cbv zeta.
  by rewrite (Z.max_r 2 W), (Z.max_r 0 R) by lia.
Qed.

(** With a block of two days there is no producing day at all. *)
Lemma alt_two_day_block_idle (o t : Z) : W = 2 -> altOf o t <> PRODUCING.
Proof using All.
  intros HW2. destruct (Z.lt_ge_cases t o).
  { by rewrite alt_before by lia. }
  destruct (Z.lt_ge_cases t (o + (W + R))).
  - rewrite alt_norm_first by lia. zcases; discriminate.
  - rewrite alt_norm_later by lia. cbv zeta.
    pose proof (Z.mod_pos_bound (t - o - (W + R)) (W + R) ltac:(lia)).
    zcases; discriminate.
Qed.

Lemma alt_first_unit_producing :
  3 <= W -> altOf 0 (Alt.firstProducingDayOf W R I) = PRODUCING.
Proof using All.
  intros HW3. unfold Alt.firstProducingDayOf. destruct (Z.ltb_spec I (W - 2)).
  - rewrite alt_norm_first by lia. zcases.
  - rewrite alt_norm_later by lia. cbv zeta.
    replace (W + R + 1 - 0 - (W + R)) with 1 by lia.
    rewrite Z.mod_small by lia.
    destruct (Z.eqb_spec 1 (W - 1)); [lia|]. zcases.
Qed.

Lemma alt_first_unit_winddown :
  altOf 0 (Alt.firstWinddownAfter W R I) = WINDDOWN.
Proof using All.
  unfold Alt.firstWinddownAfter. destruct (Z.ltb_spec I (W - 2)).
  - rewrite alt_norm_first by lia. zcases.
  - rewrite alt_norm_later by lia. cbv zeta.
    replace (W + R + W - 1 - 0 - (W + R)) with (W - 1) by lia.
    rewrite Z.mod_small by lia. zcases.
Qed.

(** A unit that starts later is not yet producing on that day. *)
Lemma alt_later_unit_not_producing (o : Z) :
  0 < o -> altOf o (Alt.firstProducingDayOf W R I) <> PRODUCING.
Proof using All.
  intros Ho. unfold Alt.firstProducingDayOf.
  destruct (Z.ltb_spec I (W - 2)).
  - destruct (Z.lt_ge_cases (1 + I) o).
    { by rewrite alt_before by lia. }
    rewrite alt_norm_first by lia. zcases; discriminate.
  - destruct (Z.lt_ge_cases (W + R + 1) o).
    { by rewrite alt_before by lia. }
    destruct (Z.eq_dec o 1) as [->|Hne].
    + rewrite alt_norm_later by lia. cbv zeta.
      replace (W + R + 1 - 1 - (W + R)) with 0 by lia.
      rewrite Z.mod_0_l by lia. discriminate.
    + rewrite alt_norm_first by lia. zcases; discriminate.
Qed.

Lemma alt_producingCount_three (a b c t : Z) :
  Alt.producingCount W R I [a; b; c] t
  = (if decide (altOf a t = PRODUCING) then 1 else 0)
    + (if decide (altOf b t = PRODUCING) then 1 else 0)
    + (if decide (altOf c t = PRODUCING) then 1 else 0).
Proof using All.
  unfold Alt.producingCount. rewrite !filter_cons, filter_nil.
  repeat destruct (decide _); simpl; lia.
Qed.

Lemma alt_producingCount_idle (sts : list Z) (t : Z) :
  W = 2 -> Alt.producingCount W R I sts t = 0.
Proof using All.
  intros HW2. unfold Alt.producingCount. rewrite filter_empty; [done|].
  intros o _. by apply alt_two_day_block_idle.
Qed.

Lemma alt_fullPCount_idle (sts : list Z) (horizon : Z) :
  W = 2 -> Alt.fullPCount W R I sts horizon = replicate (Z.to_nat horizon) 0.
Proof using All.
  intros HW2. unfold Alt.fullPCount, upto.
  rewrite (const_fmap _ _ 0)
    by (intros i d _; apply alt_producingCount_idle; exact HW2).
  by rewrite length_seq.
Qed.

(** With a block of two days every candidate counts as perfect, with no
    first producing day. *)
Lemma alt_specDiagnostics_idle (horizon o2 o3 : Z) :
  W = 2 ->
  Alt.specDiagnostics W R I horizon o2 o3
  = {| firstPDay := -1; threePDays := 0; notTwoAfterPDays := 0;
       score := Z.abs o2 + Z.abs o3; isPerfect := true |}.
Proof using All.
  intros HW2. unfold Alt.specDiagnostics.
  rewrite alt_fullPCount_idle by done. cbv zeta.
  unfold findIndex. rewrite findIndex_from_replicate by done.
  rewrite !filter_empty; [done| |].
  - intros d _ (Hne & _). done.
  - intros d Hd%elem_of_upto.
    rewrite lookup_total_replicate_2 by lia. done.
Qed.

(** No candidate is perfect when the block has three days or more and the
    horizon covers the first [B] day after the first producing day of
    unit 1. *)
Lemma alt_specDiagnostics_not_perfect (horizon o2 o3 : Z) :
  3 <= W -> Alt.firstWinddownAfter W R I < horizon -> 0 <= o2 -> 0 <= o3 ->
  isPerfect (Alt.specDiagnostics W R I horizon o2 o3) = false.
Proof using All.
  intros HW3 Hh Ho2 Ho3.
  destruct (isPerfect _) eqn:Hp; [exfalso|done].
  unfold Alt.specDiagnostics in Hp. cbn [isPerfect] in Hp.
  apply andb_true_iff in Hp as [_ Hnot]. apply Z.eqb_eq in Hnot.
  set (pc := Alt.fullPCount W R I [0; o2; o3] horizon) in *.
  set (fp := findIndex (fun x => 0 <? x) pc) in *.
  set (d0 := Alt.firstProducingDayOf W R I).
  set (dB := Alt.firstWinddownAfter W R I) in *.
  assert (0 <= d0 < dB) as Hd0.
  { unfold d0, dB, Alt.firstProducingDayOf, Alt.firstWinddownAfter.
    destruct (Z.ltb_spec I (W - 2)); lia. }
  assert (forall d, 0 <= d < horizon ->
            pc !!! Z.to_nat d = Alt.producingCount W R I [0; o2; o3] d) as Hpc.
  { intros d Hd. apply list_lookup_total_correct. unfold pc.
    rewrite alt_lookup_fullPCount by lia. by rewrite Z2Nat.id by lia. }
  assert (forall d, 0 <= d < horizon -> fp <> -1 -> fp <= d ->
            Alt.producingCount W R I [0; o2; o3] d = 2) as Htwo.
  { intros d Hd Hfp Hle. rewrite <- Hpc by done.
    destruct (decide (pc !!! Z.to_nat d = 2)) as [|Hne]; [done|exfalso].
    apply (length_filter_zero _ _ (Z.to_nat d) Hnot).
    - apply elem_of_upto. lia.
    - rewrite Z2Nat.id by lia. done. }
  pose proof (alt_first_unit_producing HW3) as HP. fold d0 in HP.
  pose proof alt_first_unit_winddown as HB. fold dB in HB.
  assert (0 <= fp <= d0) as Hfp.
  { pose proof (findIndex_from_bounds (fun x => 0 <? x) pc 0 (Z.to_nat d0)
                  (Alt.producingCount W R I [0; o2; o3] d0)) as Hb.
    rewrite Z2Nat.id in Hb by lia. apply Hb.
    - unfold pc. rewrite alt_lookup_fullPCount by lia.
      by rewrite Z2Nat.id by lia.
    - apply Z.ltb_lt. rewrite alt_producingCount_three.
      rewrite decide_True by done. repeat destruct (decide _); lia. }
  pose proof (Htwo d0 ltac:(lia) ltac:(lia) ltac:(lia)) as H0.
  pose proof (Htwo dB ltac:(lia) ltac:(lia) ltac:(lia)) as H1.
  rewrite alt_producingCount_three in H0, H1.
  rewrite decide_True in H0 by done.
  rewrite (decide_False (P := altOf 0 dB = PRODUCING)) in H1 by congruence.
  destruct (decide (o2 = 0)) as [->|Hn2].
  { rewrite (decide_False (P := altOf 0 dB = PRODUCING)) in H1 by congruence.
    destruct (decide _); lia. }
  destruct (decide (o3 = 0)) as [->|Hn3].
  { rewrite (decide_False (P := altOf 0 dB = PRODUCING)) in H1 by congruence.
    destruct (decide _); lia. }
  rewrite (decide_False (P := altOf o2 d0 = PRODUCING)) in H0
    by (apply alt_later_unit_not_producing; lia).
  rewrite (decide_False (P := altOf o3 d0 = PRODUCING)) in H0
    by (apply alt_later_unit_not_producing; lia).
  lia.
Qed.

(** With a block of two days the search stops at its first candidate. *)
Lemma alt_findBestOffsets_idle (horizon : Z) :
  W = 2 -> 1 <= horizon < 2 ^ 32 ->
  Alt.searchOffsets W R I horizon 0
    = Some (Return (Alt.candidateAt W R I horizon (0, 0)))
  /\ Alt.findBestOffsets W R I horizon 0
    = Some {| startS2 := 0; startS3 := 0;
              bestDiagnostics :=
                {| firstPDay := -1; threePDays := 0; notTwoAfterPDays := 0;
                   score := 0; isPerfect := true |} |}.
Proof using All.
  intros HW2 Hh.
  assert (Alt.searchOffsets W R I horizon 0
          = Some (Return (Alt.candidateAt W R I horizon (0, 0)))) as Hs.
  { rewrite alt_searchOffsets_scan by lia.
    destruct (candidates_head (Alt.maxOffsetOf W R horizon)) as [l ->].
    { unfold Alt.maxOffsetOf. lia. }
    cbn [Alt.scan]. unfold Alt.candidateAt at 1. cbn [bestDiagnostics fst snd].
    by rewrite alt_specDiagnostics_idle. }
  split; [exact Hs|].
  unfold Alt.findBestOffsets. cbv zeta. rewrite Hs. cbn [mbind option_bind].
  unfold Alt.candidateAt. cbn [fst snd].
  by rewrite alt_specDiagnostics_idle.
Qed.

End AlternativeNormalised.

(** ** The other copy of the builder *)

Lemma alt_example_minimal :
  Alt.buildSchedule (integerParams 3 0 1 1)
  = Some {| params := {| W := 3; R := 0; I := 1; totalPerforationDays := 1 |};
            starts := [0; 0; 1];
            days := 5;
            names := ["S1"; "S2"; "S3"]%string;
            states :=
              [[STANDUP; INDUCTION; WINDDOWN; STANDUP; PRODUCING];
               [STANDUP; INDUCTION; WINDDOWN; STANDUP; PRODUCING];
               [EMPTY; STANDUP; INDUCTION; WINDDOWN; STANDUP]];
            pCount := [0; 0; 0; 0; 2];
            diagnostics :=
              {| firstPDay := 4; threePDays := 0; notTwoAfterPDays := 40;
                 score := 4001; isPerfect := false |} |}.
Proof. vm_compute. reflexivity. Qed.

Lemma alt_lookup_assemble_row (q : Params) (best : Best) (s d : nat)
    (row : list DayState) (x : DayState) :
  states (Alt.assemble q best) !! s = Some row -> row !! d = Some x ->
  exists o, [0; startS2 best; startS3 best] !! s = Some o
    /\ x = Alternative.getSupervisorStateAtDay (Z.of_nat d) o (W q) (R q) (I q)
    /\ Z.of_nat d < Alt.horizonFor q.
Proof.
  unfold Alt.assemble. cbn [states]. intros Hrow Hx.
  apply list_lookup_fmap_Some in Hrow as (full & -> & Hfull).
  apply alt_lookup_fullStates in Hfull as (o & Ho & ->).
  exists o. split; [done|].
  assert (((fun d0 => Alternative.getSupervisorStateAtDay (Z.of_nat d0) o
                        (W q) (R q) (I q))
             <$> upto (Alt.horizonFor q)) !! d = Some x) as Hd.
  { unfold slice0 in Hx. destruct (0 <=? _);
      apply lookup_take_Some in Hx as [Hx _]; exact Hx. }
  apply list_lookup_fmap_Some in Hd as (d' & -> & Hd').
  unfold upto in Hd'. apply lookup_seq in Hd' as [-> Hlt]. split; [done|lia].
Qed.

Lemma alt_assemble_lengths (p : Raw.t) (best : Best) :
  let r := Alt.assemble (Alt.clamped p) best in
  length (pCount r) = Z.to_nat (days r)
  /\ Forall (fun row => length row = Z.to_nat (days r)) (states r)
  /\ length (states r) = 3%nat.
Proof.
  cbv zeta. pose proof (alt_assemble_days p best) as Hdays.
  set (q := Alt.clamped p) in *. unfold Alt.assemble in *.
  cbn [days pCount states] in *.
  set (dd := trimLoop _ _ _ _ _ + 1) in *.
  split_and!.
  - rewrite slice0_nonneg by lia.
    rewrite length_take, alt_length_fullPCount. lia.
  - apply Forall_forall. intros row Hrow.
    apply list_elem_of_fmap in Hrow as (full & -> & Hfull).
    apply list_elem_of_lookup in Hfull as [i Hfull].
    apply alt_length_fullStates_row in Hfull.
    rewrite slice0_nonneg by lia. rewrite length_take. lia.
  - reflexivity.
Qed.

(** What the builder gets from the solver. *)
Lemma alt_buildSchedule_candidate (p : Raw.t) :
  let q := Alt.clamped p in
  let m := Alt.maxOffsetOf (W q) (R q) (Alt.horizonFor q) in
  exists c,
    (0 <= c.1 <= m /\ 0 <= c.2 <= m)
    /\ Alt.buildSchedule p
       = Some (Alt.assemble q
                 (Alt.candidateAt (W q) (R q) (I q) (Alt.horizonFor q) c)).
Proof.
  cbv zeta. destruct (alt_buildSchedule_assemble p) as (best & Hbest & Hb).
  pose proof (alt_horizon_range p) as Hh.
  pose proof (alt_maxOffset_range p) as Hm. cbv zeta in Hm.
  set (q := Alt.clamped p) in *.
  destruct (alt_findBestOffsets_outcome (W q) (R q) (I q) (Alt.horizonFor q))
    as (l1 & c & l2 & Hl & Hbest' & _); [lia|lia|].
  rewrite Hbest' in Hbest. injection Hbest as <-.
  exists c. split; [|exact Hb].
  apply elem_of_candidates. rewrite Hl.
  apply elem_of_app. right. apply elem_of_cons. by left.
Qed.

(** X18.  The other copy of the builder returns a schedule for every
    parameter object, on [W] clamped into [[2, 60]], [R] into [[0, 60]],
    [I] into [[1, 5]] and the target into [[1, 5000]]: three named rows of
    [days] cells each, a count vector of [days] entries,
    [1 <= days <= horizon], unit 1 on day 0 and the two other start days in
    [[0, maxOffset]]. *)
Theorem alternative_build_result (p : Raw.t) :
  let q := Alt.clamped p in
  let horizon := totalPerforationDays q + (W q + R q) * 8 + 40 in
  let maxOffset := Z.min (horizon - 1) ((W q + R q) * 2 + 20) in
  exists r offset2 offset3,
    Alt.buildSchedule p = Some r
    /\ params r = q
    /\ 2 <= W q <= 60 /\ 0 <= R q <= 60 /\ 1 <= I q <= 5
    /\ 1 <= totalPerforationDays q <= 5000
    /\ names r = ["S1"; "S2"; "S3"]%string
    /\ starts r = [0; offset2; offset3]
    /\ 0 <= offset2 <= maxOffset /\ 0 <= offset3 <= maxOffset
    /\ 1 <= days r <= horizon
    /\ length (states r) = 3%nat
    /\ Forall (fun row => length row = Z.to_nat (days r)) (states r)
    /\ length (pCount r) = Z.to_nat (days r).
Proof.
  cbv zeta.
  destruct (alt_buildSchedule_candidate p) as (c & Hc & Hb). cbv zeta in Hc.
  pose proof (alt_clamped_range p) as (HW & HR & HI & HT).
  set (best := Alt.candidateAt _ _ _ _ c) in Hb.
  pose proof (alt_assemble_days p best) as Hdays.
  pose proof (alt_assemble_lengths p best) as (Hpc & Hrows & Hlen).
  exists (Alt.assemble (Alt.clamped p) best), c.1, c.2.
  unfold Alt.maxOffsetOf, Alt.horizonFor, Alt.horizonOf in *.
  split_and!; try done; try lia.
Qed.

(** X19.  Consistency of the result of the other copy: the matrix has three
    rows, every cell of it is the state its own generator gives for that
    unit and day on the clamped parameters, and every entry of the count
    vector is the number of rows that are producing on that day, a number
    between 0 and 3. *)
Theorem alternative_build_consistent (p : Raw.t) (r : Schedule) (s d : nat) :
  Alt.buildSchedule p = Some r ->
  (s < 3)%nat -> Z.of_nat d < days r ->
  params r = Alt.clamped p
  /\ length (states r) = 3%nat
  /\ exists (row : list DayState) (n : Z),
       states r !! s = Some row
       /\ row !! d
          = Some (Alternative.getSupervisorStateAtDay (Z.of_nat d)
                    (starts r !!! s) (W (params r)) (R (params r)) (I (params r)))
       /\ pCount r !! d = Some n
       /\ n = Z.of_nat (length (filter
                (fun row' : list DayState => row' !! d = Some PRODUCING)
                (states r)))
       /\ 0 <= n <= 3.
Proof.
  intros Hbuild Hs Hd.
  destruct (alt_buildSchedule_assemble p) as (best & _ & Hbuild').
  rewrite Hbuild' in Hbuild. injection Hbuild as <-.
  pose proof (alt_assemble_days p best) as Hdays.
  set (q := Alt.clamped p) in *.
  split; [reflexivity|]. split; [reflexivity|].
  unfold Alt.assemble in *. cbn [days states pCount starts params] in *.
  set (sts := [0; startS2 best; startS3 best]) in *.
  set (counts := Alt.fullPCount (W q) (R q) (I q) sts (Alt.horizonFor q)) in *.
  set (dd := trimLoop _ _ _ _ _ + 1) in *.
  assert (forall row : list DayState,
            slice0 row dd !! d = row !! d) as Hslice.
  { intros row. rewrite slice0_nonneg by lia. apply lookup_take_lt. lia. }
  assert (forall o : Z,
    ((fun d0 => Alternative.getSupervisorStateAtDay (Z.of_nat d0) o (W q) (R q) (I q))
       <$> upto (Alt.horizonFor q)) !! d
    = Some (Alternative.getSupervisorStateAtDay (Z.of_nat d) o (W q) (R q) (I q))) as Hcell.
  { intros o. rewrite list_lookup_fmap. unfold upto.
    rewrite lookup_seq_lt by lia. done. }
  exists (slice0 ((fun d0 => Alternative.getSupervisorStateAtDay (Z.of_nat d0) (sts !!! s)
                     (W q) (R q) (I q)) <$> upto (Alt.horizonFor q)) dd),
         (Alt.producingCount (W q) (R q) (I q) sts (Z.of_nat d)).
  split_and!.
  - destruct s as [|[|[|s]]]; [done..|lia].
  - rewrite Hslice. apply Hcell.
  - unfold counts. rewrite slice0_nonneg by lia.
    rewrite lookup_take_lt by lia. apply alt_lookup_fullPCount. lia.
  - unfold Alt.producingCount, Alt.fullStates, sts.
    cbn [fmap list_fmap].
    f_equal. apply length_filter_Forall2.
    constructor; [|constructor; [|constructor; [|constructor]]];
      rewrite Hslice, Hcell; split; congruence.
  - apply alt_producingCount_range.
  - pose proof (alt_producingCount_range (W q) (R q) (I q) sts (Z.of_nat d)).
    simpl in *. lia.
Qed.

Lemma alternative_build_consistent_witness :
  exists (r : Schedule) (row : list DayState),
    Alt.buildSchedule (integerParams 3 0 1 1) = Some r
    /\ states r !! 2%nat = Some row
    /\ row !! 3%nat
       = Some (Alternative.getSupervisorStateAtDay 3 1 3 0 1)
    /\ pCount r !! 3%nat = Some 0.
Proof.
  destruct (alternative_build_consistent (integerParams 3 0 1 1) _ 2 3
              alt_example_minimal)
    as (_ & _ & row & n & Hrow & Hcell & Hn & Hcount & _);
    [lia|simpl; lia|].
  eexists _, row. split_and!; [exact alt_example_minimal|exact Hrow|exact Hcell|].
  rewrite Hn, Hcount. reflexivity.
Defined.

(** X20.  Horizon and trimming in the other copy: on the clamped parameters
    the builder works over [horizon = totalPerforationDays + (W + R) * 8 + 40]
    days; the result ends with the first day on which the running number of
    days with exactly two units producing reaches the target, that day
    included; when no day of the horizon reaches it, the result is the whole
    horizon. *)
Theorem alternative_build_trimming (p : Raw.t) :
  let q := Alt.clamped p in
  let horizon := totalPerforationDays q + (W q + R q) * 8 + 40 in
  exists r,
    Alt.buildSchedule p = Some r /\ params r = q /\
    let counts := Alt.fullPCount (W q) (R q) (I q) (starts r) horizon in
    let matrix := Alt.fullStates (W q) (R q) (I q) (starts r) horizon in
    length counts = Z.to_nat horizon
    /\ (forall d : nat,
          Z.of_nat d < horizon ->
          reached counts (totalPerforationDays q) d ->
          (forall d' : nat, (d' < d)%nat ->
             ~ reached counts (totalPerforationDays q) d') ->
          days r = Z.of_nat d + 1
          /\ states r = take (S d) <$> matrix
          /\ pCount r = take (S d) counts)
    /\ ((forall d : nat, Z.of_nat d < horizon ->
           ~ reached counts (totalPerforationDays q) d) ->
        days r = horizon /\ states r = matrix /\ pCount r = counts).
Proof.
  cbv zeta.
  destruct (alt_buildSchedule_assemble p) as (best & _ & Hbuild).
  pose proof (alt_horizon_range p) as Hh. pose proof (alt_clamped_range p) as Hq.
  set (q := Alt.clamped p) in *.
  change (totalPerforationDays q + (W q + R q) * 8 + 40)
    with (Alt.horizonFor q).
  exists (Alt.assemble q best). split; [exact Hbuild|]. split; [reflexivity|].
  unfold Alt.assemble. cbn [starts days states pCount].
  set (sts := [0; startS2 best; startS3 best]).
  set (counts := Alt.fullPCount (W q) (R q) (I q) sts (Alt.horizonFor q)).
  pose proof (alt_length_fullPCount (W q) (R q) (I q) sts (Alt.horizonFor q)) as Hlen.
  fold counts in Hlen.
  split; [exact Hlen|].
  pose proof (trimLoop_spec counts (totalPerforationDays q)
                (Z.to_nat (Alt.horizonFor q)) 0 (Alt.horizonFor q - 1)) as Htrim.
  cbv zeta in Htrim. rewrite take_0 in Htrim.
  change (countTwo []) with 0 in Htrim.
  change (seq 0 (Z.to_nat (Alt.horizonFor q))) with (upto (Alt.horizonFor q)) in Htrim.
  specialize (Htrim ltac:(lia) ltac:(lia)).
  split.
  - intros d Hd Hreach Hmin.
    destruct Htrim as [(d0 & Hd0 & Hr & Hreach0 & Hmin0)|[_ Hnone]].
    + assert (d0 = d) as ->.
      { destruct (Nat.lt_trichotomy d0 d) as [Hlt|[Heq|Hgt]]; [|done|].
        - exfalso. by apply (Hmin d0).
        - exfalso. apply (Hmin0 d); [lia|done]. }
      rewrite Hr. rewrite !slice0_nonneg by lia.
      replace (Z.to_nat (Z.of_nat d + 1)) with (S d) by lia.
      split_and!; [done| |done].
      apply list_fmap_ext. intros i row _. rewrite slice0_nonneg by lia.
      f_equal. lia.
    + exfalso. apply (Hnone d); [lia|done].
  - intros Hnever.
    destruct Htrim as [(d0 & Hd0 & Hr & Hreach0 & Hmin0)|[Hr _]].
    + exfalso. apply (Hnever d0); [lia|done].
    + rewrite Hr. replace (Alt.horizonFor q - 1 + 1) with (Alt.horizonFor q) by lia.
      split_and!; [done| |].
      * rewrite <- (list_fmap_id (Alt.fullStates _ _ _ _ _)) at 2.
        apply list_fmap_ext. intros i row Hrow.
        rewrite slice0_nonneg by lia. apply take_ge.
        apply alt_length_fullStates_row in Hrow. unfold id. lia.
      * rewrite slice0_nonneg by lia. apply take_ge. lia.
Qed.

(** X21.  Selection rule of the other copy of the solver, for [W >= 2] and
    [R >= 0]: over the candidates [(offset2, offset3)] of [[0, maxOffset]²]
    with [maxOffset = min(horizon - 1, (W + R) * 2 + 20)], visited with
    [offset2] ascending in the outer loop and [offset3] ascending in the
    inner loop, the first perfect candidate is returned at once; if none is
    perfect the result has the lowest score
    [threePDays * 10000 + notTwoAfterPDays * 100 + |offset2| + |offset3|],
    every candidate visited before it having a strictly higher score. *)
Theorem alternative_solver_selection (W R I horizon : Z) :
  2 <= W -> 0 <= R -> 1 <= horizon < 2 ^ 32 ->
  let maxOffset := Z.min (horizon - 1) ((W + R) * 2 + 20) in
  let inRange (c : Z * Z) := 0 <= c.1 <= maxOffset /\ 0 <= c.2 <= maxOffset in
  let diagOf (c : Z * Z) := Alt.specDiagnostics W R I horizon c.1 c.2 in
  exists best,
    Alt.findBestOffsets W R I horizon 0 = Some best
    /\ inRange (startS2 best, startS3 best)
    /\ bestDiagnostics best = diagOf (startS2 best, startS3 best)
    /\ (forall c, inRange c ->
          Alt.scoreOffsets W R I horizon [0; c.1; c.2] = Some (diagOf c)
          /\ score (diagOf c)
             = threePDays (diagOf c) * 10000 + notTwoAfterPDays (diagOf c) * 100
               + Z.abs c.1 + Z.abs c.2
          /\ isPerfect (diagOf c)
             = (threePDays (diagOf c) =? 0) && (notTwoAfterPDays (diagOf c) =? 0))
    /\ ((exists c, inRange c /\ isPerfect (diagOf c) = true) ->
        Alt.searchOffsets W R I horizon 0 = Some (Return best)
        /\ isPerfect (bestDiagnostics best) = true
        /\ forall c, inRange c -> isPerfect (diagOf c) = true ->
             c = (startS2 best, startS3 best)
             \/ enumeratedBefore (startS2 best, startS3 best) c)
    /\ ((forall c, inRange c -> isPerfect (diagOf c) = false) ->
        Alt.searchOffsets W R I horizon 0 = Some (Continue (Some best))
        /\ forall c, inRange c ->
             score (bestDiagnostics best) <= score (diagOf c)
             /\ (enumeratedBefore c (startS2 best, startS3 best) ->
                 score (bestDiagnostics best) < score (diagOf c))).
Proof.
  intros HW HR Hh. cbv zeta.
  change (Z.min (horizon - 1) ((W + R) * 2 + 20))
    with (Alt.maxOffsetOf W R horizon).
  assert (0 <= Alt.maxOffsetOf W R horizon) as Hm by (unfold Alt.maxOffsetOf; lia).
  destruct (alt_findBestOffsets_outcome W R I horizon Hh Hm)
    as (l1 & c0 & l2 & Hl & Hbest & Hcases).
  set (m := Alt.maxOffsetOf W R horizon) in *.
  assert (c0 ∈ candidates m) as Hc0.
  { rewrite Hl. apply elem_of_app. right. apply elem_of_cons. by left. }
  exists (Alt.candidateAt W R I horizon c0). cbn [Alt.candidateAt startS2 startS3 bestDiagnostics].
  replace (c0.1, c0.2) with c0 by (by destruct c0).
  split; [exact Hbest|]. split; [by apply elem_of_candidates|].
  split; [reflexivity|]. split.
  { intros c Hc. split; [apply alt_scoreOffsets_spec; lia|]. done. }
  split.
  - intros (c & Hc & Hp).
    assert (c ∈ candidates m) as Hin by (by apply elem_of_candidates).
    destruct Hcases as [(Hret & Hp0 & Hbefore)|(_ & Hnone & _)].
    + split; [exact Hret|]. split; [exact Hp0|]. intros c' Hc' Hp'.
      assert (c' ∈ candidates m) as Hin' by (by apply elem_of_candidates).
      destruct (candidates_split m l1 l2 c0 c' Hl Hin') as (Hb1 & _ & Hor).
      rewrite Hl in Hin'.
      apply elem_of_app in Hin' as [Hin'|[->|Hin']%elem_of_cons].
      * specialize (Hbefore _ Hin'). unfold Alt.candidateAt in Hbefore. cbn [bestDiagnostics] in Hbefore. congruence.
      * by left.
      * right. pose proof (candidates_sorted m) as Hs. rewrite Hl in Hs.
        apply StronglySorted_app_1_r, StronglySorted_cons in Hs as [Hall _].
        rewrite Forall_forall in Hall. by apply Hall.
    + specialize (Hnone _ Hin). unfold Alt.candidateAt in Hnone. cbn [bestDiagnostics] in Hnone.
      congruence.
  - intros Hnone.
    destruct Hcases as [(_ & Hp0 & _)|(Hcont & _ & H1 & H2)].
    { apply elem_of_candidates in Hc0. specialize (Hnone _ Hc0).
      unfold Alt.candidateAt in Hp0. cbn [bestDiagnostics] in Hp0. congruence. }
    split; [exact Hcont|]. intros c Hc.
    assert (c ∈ candidates m) as Hin by (by apply elem_of_candidates).
    + destruct (candidates_split m l1 l2 c0 c Hl Hin) as (Hb1 & _ & _).
      split.
      * rewrite Hl in Hin.
        apply elem_of_app in Hin as [Hin|[->|Hin]%elem_of_cons].
        -- specialize (H1 _ Hin). unfold Alt.candidateAt in H1. cbn [bestDiagnostics] in H1. lia.
        -- lia.
        -- specialize (H2 _ Hin). unfold Alt.candidateAt in H2. cbn [bestDiagnostics] in H2. lia.
      * intros Hb. specialize (H1 _ (Hb1 Hb)).
        unfold Alt.candidateAt in H1. cbn [bestDiagnostics] in H1. lia.
Qed.

Lemma alternative_solver_selection_witness :
  (exists best,
     Alt.findBestOffsets 2 0 1 3 0 = Some best
     /\ Alt.searchOffsets 2 0 1 3 0 = Some (Return best)
     /\ isPerfect (bestDiagnostics best) = true)
  /\ (exists best,
        Alt.findBestOffsets 3 0 1 6 0 = Some best
        /\ Alt.searchOffsets 3 0 1 6 0 = Some (Continue (Some best))
        /\ forall c, (0 <= c.1 <= 5 /\ 0 <= c.2 <= 5) ->
             score (bestDiagnostics best)
             <= score (Alt.specDiagnostics 3 0 1 6 c.1 c.2)).
Proof.
  split.
  - destruct (alternative_solver_selection 2 0 1 3)
      as (best & Hbest & _ & _ & _ & Hperfect & _); [lia..|].
    exists best. split; [exact Hbest|].
    destruct Hperfect as (Hs & Hp & _); [|by split].
    exists (0, 0). split; [simpl; lia|]. vm_compute. reflexivity.
  - destruct (alternative_solver_selection 3 0 1 6)
      as (best & Hbest & _ & _ & _ & _ & Hnone); [lia..|].
    exists best. split; [exact Hbest|].
    destruct Hnone as [Hcont Hmin].
    { intros c Hc. simpl in Hc.
      apply alt_specDiagnostics_not_perfect; [lia..|vm_compute; reflexivity| |];
        lia. }
    split; [exact Hcont|]. intros c Hc. exact (proj1 (Hmin c Hc)).
Defined.

(** ** A block of two days *)

Lemma countTwo_zeros (n : nat) : countTwo (replicate n 0) = 0.
Proof. unfold countTwo. by rewrite filter_replicate_none. Qed.

(** X22.  The other copy of the solver reports a perfect schedule exactly
    when the clamped block has two days, which leaves no producing day at
    all: the search then stops at its first candidate, and the result is
    the whole horizon with three units started on day 0, no first producing
    day and a count vector of zeros. *)
Theorem alternative_perfect_iff_two_day_block (p : Raw.t) :
  let q := Alt.clamped p in
  let horizon := totalPerforationDays q + (W q + R q) * 8 + 40 in
  exists r,
    Alt.buildSchedule p = Some r
    /\ (isPerfect (diagnostics r) = true <-> W q = 2)
    /\ (W q = 2 ->
        starts r = [0; 0; 0]
        /\ diagnostics r
           = {| firstPDay := -1; threePDays := 0; notTwoAfterPDays := 0;
                score := 0; isPerfect := true |}
        /\ days r = horizon
        /\ pCount r = replicate (Z.to_nat horizon) 0).
Proof.
  cbv zeta.
  destruct (alt_buildSchedule_assemble p) as (best & Hbest & Hb).
  pose proof (alt_clamped_range p) as (HW & HR & HI & HT).
  pose proof (alt_horizon_range p) as Hh.
  pose proof (alt_maxOffset_range p) as Hm. cbv zeta in Hm.
  set (q := Alt.clamped p) in *.
  change (totalPerforationDays q + (W q + R q) * 8 + 40)
    with (Alt.horizonFor q).
  exists (Alt.assemble q best). split; [exact Hb|].
  change (diagnostics (Alt.assemble q best)) with (bestDiagnostics best).
  destruct (Z.eq_dec (W q) 2) as [HW2|HW3].
  - destruct (alt_findBestOffsets_idle (W q) (R q) (I q)
                ltac:(lia) ltac:(lia) ltac:(lia) (Alt.horizonFor q) HW2)
      as [_ Hidle]; [lia|].
    rewrite Hidle in Hbest. injection Hbest as <-.
    split; [done|]. intros _.
    unfold Alt.assemble. cbn [starts diagnostics bestDiagnostics days pCount
                              startS2 startS3].
    rewrite alt_fullPCount_idle by lia.
    set (n := Z.to_nat (Alt.horizonFor q)).
    pose proof (trimLoop_spec (replicate n 0) (totalPerforationDays q)
                  n 0 (Alt.horizonFor q - 1)) as Htrim.
    cbv zeta in Htrim. rewrite take_0 in Htrim.
    change (countTwo []) with 0 in Htrim.
    change (seq 0 n) with (upto (Alt.horizonFor q)) in Htrim.
    rewrite length_replicate in Htrim.
    destruct (Htrim ltac:(lia) ltac:(lia))
      as [(d & Hd & _ & Hreach & _)|[-> _]].
    { exfalso. unfold reached in Hreach.
      rewrite take_replicate, countTwo_zeros in Hreach. lia. }
    split_and!; [done|done|lia|].
    rewrite slice0_nonneg by lia. apply take_ge. rewrite length_replicate. lia.
  - destruct (alt_findBestOffsets_outcome (W q) (R q) (I q) (Alt.horizonFor q))
      as (l1 & c & l2 & Hl & Hbest' & _); [lia|lia|].
    rewrite Hbest' in Hbest. injection Hbest as <-.
    assert (c ∈ candidates (Alt.maxOffsetOf (W q) (R q) (Alt.horizonFor q)))
      as Hc.
    { rewrite Hl. apply elem_of_app. right. apply elem_of_cons. by left. }
    apply elem_of_candidates in Hc.
    assert (isPerfect (Alt.specDiagnostics (W q) (R q) (I q)
                         (Alt.horizonFor q) c.1 c.2) = false) as Hnp.
    { apply alt_specDiagnostics_not_perfect; try lia.
      unfold Alt.firstWinddownAfter, Alt.horizonFor, Alt.horizonOf in *.
      destruct (Z.ltb_spec (I q) (W q - 2)); lia. }
    cbn [Alt.candidateAt bestDiagnostics]. fold q.
    split; [|lia]. split; [|lia].
    intros Hp. pose proof (eq_trans (eq_sym Hnp) Hp) as Hft. discriminate Hft.
Qed.

(** ** The validator on the result of the other copy *)

(** X23.  On a schedule built by the other copy the validator raises a
    transition alert in two cases only: [S-B] when the clamped block has
    two days, and [B-S] when the clamped rest is zero.  With [W >= 3] and
    [R >= 1] a built schedule raises no transition alert. *)
Theorem alternative_build_transition_alerts (p : Raw.t) (r : Schedule)
    (s d : nat) (key : string) :
  Alt.buildSchedule p = Some r ->
  InvalidPattern s d key ∈ validateAlerts (states r) (pCount r) ->
  (W (params r) = 2 /\ key = "S-B"%string)
  \/ (R (params r) = 0 /\ key = "B-S"%string).
Proof.
  intros Hbuild Hin.
  destruct (alt_buildSchedule_assemble p) as (best & _ & Hb).
  rewrite Hb in Hbuild. injection Hbuild as <-.
  pose proof (alt_clamped_range p) as (HW & HR & HI & HT).
  set (q := Alt.clamped p) in *.
  change (params (Alt.assemble q best)) with q.
  apply validateAlerts_pattern in Hin as (row & Hrow & Hd & Hna & Hnb & Hk & ->).
  destruct (lookup_lt_is_Some_2 row (d - 1) ltac:(lia)) as [a Ha].
  destruct (lookup_lt_is_Some_2 row d ltac:(lia)) as [b Hb'].
  rewrite (list_lookup_total_correct _ _ _ Ha) in *.
  rewrite (list_lookup_total_correct _ _ _ Hb') in *.
  destruct (alt_lookup_assemble_row q best s (d - 1) row a Hrow Ha)
    as (o & Ho & -> & _).
  destruct (alt_lookup_assemble_row q best s d row b Hrow Hb')
    as (o' & Ho' & -> & _).
  rewrite Ho in Ho'. injection Ho' as <-.
  apply pairKey_forbidden, forbiddenb_spec in Hk.
  replace (Z.of_nat d) with (Z.of_nat (d - 1) + 1) in Hk |- * by lia.
  pose proof (proj1 (alt_transition (W q) (R q) (I q) o _) Hk)
    as [[HW2 HS]|[HR0 HB]].
  - left. split; [lia|].
    pose proof (alt_standup_next (W q) (R q) (I q) o _ HS) as Hnext.
    rewrite HS in Hk |- *.
    destruct (Alternative.getSupervisorStateAtDay (Z.of_nat (d - 1) + 1) o
                (W q) (R q) (I q)); try discriminate; done.
  - right. split; [lia|].
    rewrite HB in Hk |- *.
    destruct (Alternative.getSupervisorStateAtDay (Z.of_nat (d - 1) + 1) o
                (W q) (R q) (I q)); try discriminate; done.
Qed.

Lemma alternative_build_transition_alerts_witness :
  exists r, Alt.buildSchedule (integerParams 3 0 1 1) = Some r
            /\ R (params r) = 0
            /\ InvalidPattern 0 3 "B-S" ∈ validateAlerts (states r) (pCount r).
Proof.
  eexists. split; [exact alt_example_minimal|].
  assert (InvalidPattern 0 3 "B-S"
          ∈ validateAlerts
              [[STANDUP; INDUCTION; WINDDOWN; STANDUP; PRODUCING];
               [STANDUP; INDUCTION; WINDDOWN; STANDUP; PRODUCING];
               [EMPTY; STANDUP; INDUCTION; WINDDOWN; STANDUP]]
              [0; 0; 0; 0; 2]) as Hin.
  { apply list_elem_of_In. vm_compute.
    repeat (first [left; reflexivity | right]). }
  split; [|exact Hin].
  destruct (alternative_build_transition_alerts _ _ 0 3 "B-S"
              alt_example_minimal Hin) as [[HW2 _]|[HR0 _]].
  - discriminate HW2.
  - exact HR0.
Defined.
